(** * cf_ai_chat-app: token budget, vector memory and session coordinator

  A shallow embedding of [src/tokenizer.ts], [src/vectorStore.ts] and the
  [/chat] and [/clear] routes of [src/chatSession.ts], together with the
  properties the specification states about them.

  JavaScript numbers that hold token counts and budgets are integers far
  below 2^53, so they are modelled as [Z]; array positions and string
  lengths are [nat].  Strings are [string] (a sequence of code units);
  [slice] and [length] act on code units exactly as in the source. *)

From Stdlib Require Import ZArith Lia Floats.
From stdpp Require Import base list strings gmap pretty.

#[global] Set Warnings "-abstract-large-number".

Local Open Scope Z_scope.

(** ** Messages *)

Inductive Role := system | user | assistant.

#[global] Instance Role_eq_dec : EqDecision Role.
Proof. solve_decision. Defined.

Record Message := mkMessage { role : Role; content : string }.

#[global] Instance Message_eq_dec : EqDecision Message.
Proof. solve_decision. Defined.

(** ** tokenizer.ts *)

Module Tokenizer.

Section WithEncoder.

(** [llama3Tokenizer.encode]: the third-party tokenizer, a parameter of
    the development.  It returns an array of token ids. *)
Variable encode : string → list nat.

Definition PER_MESSAGE_OVERHEAD : Z := 4.

Definition countTokens (text : string) : Z :=
  Z.of_nat (length (encode text)).

Definition countMessageTokens (message : Message) : Z :=
  countTokens (content message) + PER_MESSAGE_OVERHEAD.

(** The [for (let i = messages.length - 1; i >= 0; i--)] loop.  [n] is
    [i + 1], the number of positions not yet visited; the result is the
    final [startIndex].  [messages[i]] is always in range, the [None]
    branch is never taken. *)
Fixpoint trimLoop (messages : list Message) (maxTokens : Z)
    (n : nat) (totalTokens : Z) (startIndex : nat) : nat :=
  match n with
  | O => startIndex
  | S i =>
      match messages !! i with
      | None => startIndex
      | Some m =>
          let msgTokens := countMessageTokens m in
          if totalTokens + msgTokens >? maxTokens then startIndex
          else trimLoop messages maxTokens i (totalTokens + msgTokens) i
      end
  end.

Definition trimMessagesToFitContext (messages : list Message)
    (maxTokens : Z) : list Message :=
  let startIndex := trimLoop messages maxTokens (length messages) 0
                             (length messages) in
  drop startIndex messages.

(** Cumulative framed token count of a message sequence. *)
Definition sumMessageTokens (l : list Message) : Z :=
  foldr (λ m acc, countMessageTokens m + acc) 0 l.

(** [r] is a longest suffix of [messages] whose cumulative framed token
    count does not exceed [budget]. *)
Definition longestFittingSuffix (messages : list Message) (budget : Z)
    (r : list Message) : Prop :=
  r `suffix_of` messages ∧
  sumMessageTokens r ≤ budget ∧
  ∀ s, s `suffix_of` messages → sumMessageTokens s ≤ budget →
       (length s ≤ length r)%nat.

End WithEncoder.

(** A toy tokenizer used for concrete evaluations: one token per code unit. *)
Definition unitEncoder (s : string) : list nat :=
  (λ c, Ascii.nat_of_ascii c) <$> String.list_ascii_of_string s.



End Tokenizer.

(** ** Effects

    Every [await] in the source is a request to an external service that
    either returns or throws.  A computation is a state transformer that
    ends in a value or in an exception; [tryCatch] is [try { } catch { }].
    State changes made before a throw are kept, as in JavaScript. *)

Module Effects.

Inductive Res (A : Type) : Type :=
| Val (a : A)
| Exn (e : string).
Arguments Val {A} a.
Arguments Exn {A} e.

Definition Eff (S A : Type) : Type := S → Res A * S.

Definition ret {S A} (a : A) : Eff S A := λ s, (Val a, s).

Definition throw {S A} (e : string) : Eff S A := λ s, (Exn e, s).

Definition bind {S A B} (c : Eff S A) (k : A → Eff S B) : Eff S B :=
  λ s, match c s with
       | (Val a, s') => k a s'
       | (Exn e, s') => (Exn e, s')
       end.

Definition tryCatch {S A} (c : Eff S A) (h : string → Eff S A) : Eff S A :=
  λ s, match c s with
       | (Val a, s') => (Val a, s')
       | (Exn e, s') => h e s'
       end.

Definition get {S} : Eff S S := λ s, (Val s, s).

Definition modify {S} (f : S → S) : Eff S unit := λ s, (Val tt, f s).

(** Run a computation on the second component of a pair of states. *)
Definition liftW {S W A} (c : Eff W A) : Eff (S * W) A :=
  λ sw, match c sw.2 with (r, w') => (r, (sw.1, w')) end.

(** Read and update the first component of a pair of states. *)
Definition getSelf {S W} : Eff (S * W) S := λ sw, (Val sw.1, sw).

Definition modifySelf {S W} (f : S → S) : Eff (S * W) unit :=
  λ sw, (Val tt, (f sw.1, sw.2)).

(** [try { await c } catch (err) { console.error(...) }]: console output
    is not part of the model, so the handler only swallows the error. *)
Definition bestEffort {S} (c : Eff S unit) : Eff S unit :=
  tryCatch c (λ _, ret tt).

End Effects.

Import Effects.

Notation "'let*' x ':=' c 'in' k" := (bind c (λ x, k))
  (at level 10, x name, c at level 100, k at level 200, only parsing).
Notation "'do*' c 'in' k" := (bind c (λ _, k))
  (at level 10, c at level 100, k at level 200, only parsing).

(** ** The external services

    Workers AI, Vectorize and D1 are bindings of the runtime, not code of
    the repository.  Their state is the [World]; what they answer during
    one request of the worker is an [Env].  Every call to a service is
    recorded in the [trace], and the answer of a service may depend on the
    number of calls recorded before it, so that two calls with the same
    arguments may fare differently.  Vectorize is modelled after the
    interface the specification describes: records are keyed by id (last
    write wins), a query returns at most [topK] matches of one namespace,
    and records are deleted by id. *)

Definition Embedding : Type := list float.

Record Metadata := mkMetadata { md_role : string; md_content : string }.

Record VectorizeVector := mkVector {
  v_id : string;
  v_values : Embedding;
  v_namespace : string;
  v_metadata : Metadata }.

Record VectorizeMatch := mkMatch {
  m_id : string;
  m_score : float;
  m_metadata : option Metadata }.

Inductive Statement :=
| InsertMessage (session_id role content : string) (created_at : Z)
| DeleteMessages (session_id : string).

Record Row := mkRow {
  row_session_id : string;
  row_role : string;
  row_content : string;
  row_created_at : Z }.

(** What [AI.run] gives back for a chat completion: it throws, or returns
    an object whose [response] field may be absent ([None]). *)
Inductive AiReply :=
| AiThrows (message : string)
| AiReturns (response : option string).

(** A request issued to a service, recorded whether or not it succeeds. *)
Inductive Event :=
| EvD1 (st : Statement)
| EvEmbed (texts : list string)
| EvInsert (vectors : list VectorizeVector)
| EvQuery (vector : Embedding) (topK : nat) (namespace : string)
| EvDeleteByIds (ids : list string)
| EvChat (messages : list Message) (max_tokens : Z) (temperature : float).

Record World := mkWorld {
  vectors : gmap string VectorizeVector;
  rows : list Row;
  trace : list Event }.

(** In every field but the first, the leading [nat] is the number of calls
    recorded so far. *)
Record Env := mkEnv {
  (** [new Date().toUTCString()] *)
  utcNow : string;
  (** [Date.now()] *)
  dateNow : nat → Z;
  (** whether D1 runs the statement ([false]: it throws) *)
  d1_ok : nat → Statement → bool;
  (** the embedding model: whether a call for these texts succeeds
      ([false]: it throws), and the vector it computes for one text; a
      successful batch holds one vector per text, in order *)
  ai_embed_ok : nat → list string → bool;
  ai_embedding : nat → string → Embedding;
  (** the chat model *)
  ai_chat : nat → list Message → AiReply;
  (** whether Vectorize accepts the insert *)
  vz_insert_ok : nat → list VectorizeVector → bool;
  (** Vectorize's similarity ranking of a namespace, best first, or [None]
      when the query throws *)
  vz_rank : nat → Embedding → string → gmap string VectorizeVector →
            option (list VectorizeMatch);
  (** whether Vectorize accepts the delete *)
  vz_delete_ok : nat → list string → bool }.

Module Services.

Section WithEnv.

Variable E : Env.

Definition log (e : Event) : Eff World unit :=
  modify (λ w, mkWorld (vectors w) (rows w) (trace w ++ [e])).

Definition applyStatement (st : Statement) (rs : list Row) : list Row :=
  match st with
  | InsertMessage sid r c t => rs ++ [mkRow sid r c t]
  | DeleteMessages sid =>
      filter (λ r, row_session_id r ≠ sid) rs
  end.

(** The number of calls recorded so far. *)
Definition tick : Eff World nat :=
  let* w := get in ret (length (trace w)).

(** [env.DB.prepare(...).bind(...).run()] *)
Definition d1_run (st : Statement) : Eff World unit :=
  let* n := tick in
  do* log (EvD1 st) in
  if d1_ok E n st
  then modify (λ w, mkWorld (vectors w) (applyStatement st (rows w)) (trace w))
  else throw "D1_ERROR".

Definition now : Eff World Z :=
  let* n := tick in ret (dateNow E n).

(** [ai.run(EMBEDDING_MODEL, { text: texts })], giving [result.data] *)
Definition ai_run_embedding (texts : list string) : Eff World (list Embedding) :=
  let* n := tick in
  do* log (EvEmbed texts) in
  if ai_embed_ok E n texts
  then ret (ai_embedding E n <$> texts)
  else throw "AI_ERROR".

(** [env.AI.run(model, { messages, max_tokens, temperature })] *)
Definition ai_run_chat (messages : list Message) (max_tokens : Z)
    (temperature : float) : Eff World (option string) :=
  let* n := tick in
  do* log (EvChat messages max_tokens temperature) in
  match ai_chat E n messages with
  | AiReturns response => ret response
  | AiThrows e => throw e
  end.

Definition putVectors (vs : list VectorizeVector)
    (m : gmap string VectorizeVector) : gmap string VectorizeVector :=
  foldl (λ acc v, <[v_id v := v]> acc) m vs.

Definition vectorize_insert (vs : list VectorizeVector) : Eff World unit :=
  let* n := tick in
  do* log (EvInsert vs) in
  if vz_insert_ok E n vs
  then modify (λ w, mkWorld (putVectors vs (vectors w)) (rows w) (trace w))
  else throw "VECTOR_INSERT_ERROR".

Definition stripMetadata (m : VectorizeMatch) : VectorizeMatch :=
  mkMatch (m_id m) (m_score m) None.

(** [vectorize.query(vector, { topK, namespace, returnMetadata })];
    metadata comes back only with [returnMetadata: 'all']. *)
Definition vectorize_query (vector : Embedding) (topK : nat)
    (returnMetadata : bool) (namespace : string)
    : Eff World (list VectorizeMatch) :=
  let* n := tick in
  do* log (EvQuery vector topK namespace) in
  let* w := get in
  match vz_rank E n vector namespace (vectors w) with
  | Some ranked =>
      let matches := take topK ranked in
      ret (if returnMetadata then matches else stripMetadata <$> matches)
  | None => throw "VECTOR_QUERY_ERROR"
  end.

Definition dropVectors (ids : list string)
    (m : gmap string VectorizeVector) : gmap string VectorizeVector :=
  foldr delete m ids.

Definition vectorize_deleteByIds (ids : list string) : Eff World unit :=
  let* n := tick in
  do* log (EvDeleteByIds ids) in
  if vz_delete_ok E n ids
  then modify (λ w, mkWorld (dropVectors ids (vectors w)) (rows w) (trace w))
  else throw "VECTOR_DELETE_ERROR".

End WithEnv.

End Services.

(** ** JavaScript string helpers

    A string is a sequence of units.  JavaScript counts and cuts UTF-16
    code units; for text below U+0080 a unit is a code unit and a byte at
    once.  What is proved about [slice] and lengths without looking at
    the units holds for code units as it stands; where bytes are meant,
    the text is required to be below U+0080. *)

Module Js.

(** [s.slice(start, end)] for non-negative arguments. *)
Definition slice (s : string) (start end_ : nat) : string :=
  String.substring start (end_ - start) s.

(** [a.slice(start, end)] on arrays, for non-negative arguments. *)
Definition sliceList {A} (l : list A) (start end_ : nat) : list A :=
  take (end_ - start) (drop start l).

(** A string used as a condition: only the empty string is falsy. *)
Definition truthy (s : string) : bool :=
  match s with EmptyString => false | String _ _ => true end.

(** [lines.join(sep)] *)
Fixpoint join (sep : string) (lines : list string) : string :=
  match lines with
  | [] => ""
  | [x] => x
  | x :: rest => x +:+ sep +:+ join sep rest
  end.

Definition nl : string := String (Ascii.ascii_of_nat 10) EmptyString.
Definition dq : string := String (Ascii.ascii_of_nat 34) EmptyString.

(** The white space and the line terminators that [String.prototype.trim]
    strips.  Those below U+0080 are single units: tab, line feed, vertical
    tab, form feed, carriage return and space.  U+00A0 is the unit 160, or
    the bytes 194 160 of its UTF-8 form. *)
Definition isWhiteSpace (c : Ascii.ascii) : bool :=
  let n := Ascii.nat_of_ascii c in
  ((9 <=? n) && (n <=? 13) || (n =? 32) || (n =? 160))%nat.

(** The others come as the three bytes of their UTF-8 form: U+1680,
    U+2000 to U+200A, U+2028, U+2029, U+202F, U+205F, U+3000 and
    U+FEFF. *)
Definition isWhiteSpace3 (c1 c2 c3 : Ascii.ascii) : bool :=
  let n1 := Ascii.nat_of_ascii c1 in
  let n2 := Ascii.nat_of_ascii c2 in
  let n3 := Ascii.nat_of_ascii c3 in
  ((n1 =? 225) && (n2 =? 154) && (n3 =? 128) ||
   (n1 =? 226) && (n2 =? 128) &&
     ((128 <=? n3) && (n3 <=? 138) || (n3 =? 168) || (n3 =? 169) ||
      (n3 =? 175)) ||
   (n1 =? 226) && (n2 =? 129) && (n3 =? 159) ||
   (n1 =? 227) && (n2 =? 128) && (n3 =? 128) ||
   (n1 =? 239) && (n2 =? 187) && (n3 =? 191))%nat.

(** Whether a text consists of white space only. *)
Fixpoint allWhiteSpace (s : string) : bool :=
  match s with
  | EmptyString => true
  | String c1 rest1 =>
      if isWhiteSpace c1 then allWhiteSpace rest1
      else
        match rest1 with
        | String c2 rest2 =>
            if (Ascii.nat_of_ascii c1 =? 194)%nat &&
               (Ascii.nat_of_ascii c2 =? 160)%nat
            then allWhiteSpace rest2
            else
              match rest2 with
              | String c3 rest3 =>
                  if isWhiteSpace3 c1 c2 c3 then allWhiteSpace rest3
                  else false
              | EmptyString => false
              end
        | EmptyString => false
        end
  end.

(** [s.trim()] used as a condition: true when something other than white
    space occurs in [s]. *)
Definition trimTruthy (s : string) : bool := negb (allWhiteSpace s).

(** Whether every unit of a text is below U+0080. *)
Fixpoint isAscii (s : string) : bool :=
  match s with
  | EmptyString => true
  | String c rest => (Ascii.nat_of_ascii c <? 128)%nat && isAscii rest
  end.

End Js.

(** ** vectorStore.ts *)

Module VectorStore.

Import Js Services.

Definition shortId (id : string) (maxLen : nat) : string :=
  if (maxLen <? String.length id)%nat then slice id 0 maxLen else id.

Definition CHUNK_SIZE : nat := 1500.
Definition OVERLAP : nat := 200.
Definition BATCH_SIZE : nat := 20.

(** The [while (i < content.length)] loop of [storeDocument].  [None]
    means the loop is still running when the fuel is spent. *)
Fixpoint chunkLoop (fuel : nat) (content : string) (i : nat)
    (chunks : list string) : option (list string) :=
  match fuel with
  | O => None
  | S fuel' =>
      if (i <? String.length content)%nat
      then chunkLoop fuel' content (i + (CHUNK_SIZE - OVERLAP))
                     (chunks ++ [slice content i (i + CHUNK_SIZE)])
      else Some chunks
  end.

(** The window the loop cuts at a start offset. *)
Definition window (content : string) (offset : nat) : string :=
  slice content offset (offset + CHUNK_SIZE).

(** The start offsets the loop visits, computed alongside for reference. *)
Fixpoint chunkOffsets (fuel : nat) (content : string) (i : nat)
    : list nat :=
  match fuel with
  | O => []
  | S fuel' =>
      if (i <? String.length content)%nat
      then i :: chunkOffsets fuel' content (i + (CHUNK_SIZE - OVERLAP))
      else []
  end.

(** The loop, once finished, has cut exactly the windows at [offsets]. *)
Definition producesWindows (content : string) (offsets : list nat) : Prop :=
  ∃ fuel, chunkLoop fuel content 0 [] = Some (window content <$> offsets).

Definition FACTS_NAMESPACE : string := "__global_facts__".

Record Recalled := mkRecalled {
  r_role : string; r_content : string; r_score : float }.

Record FactHit := mkFactHit { f_content : string; f_score : float }.

(** An entry of the list that [listFacts] returns. *)
Record FactEntry := mkFactEntry { fe_id : string; fe_content : string }.

Definition hasContent (m : VectorizeMatch) : bool :=
  match m_metadata m with
  | Some md => truthy (md_content md)
  | None => false
  end.

Definition documentVector (sessionId filename : string)
    (batchChunks : list string) (batchIdx idx : nat) (embedding : Embedding)
    : VectorizeVector :=
  let globalIdx := (batchIdx + idx)%nat in
  let vectorId := "doc::" +:+ shortId sessionId 20 +:+ "::" +:+
                  shortId filename 20 +:+ "::" +:+ pretty globalIdx in
  mkVector vectorId embedding sessionId
    (mkMetadata "document"
       (slice ("[Document: " +:+ filename +:+ "]" +:+ nl +:+ nl +:+
               default "undefined" (batchChunks !! idx)) 0 8000)).

(** The record [storeMessage] inserts. *)
Definition messageVector (sessionId : string) (messageIndex : nat)
    (role content : string) (embedding : Embedding) : VectorizeVector :=
  let vectorId := shortId sessionId 48 +:+ "::" +:+ pretty messageIndex in
  mkVector vectorId embedding sessionId
    (mkMetadata role (slice content 0 8000)).

Section WithEnv.

Variable E : Env.

Definition embedText (text : string) : Eff World Embedding :=
  let* data := ai_run_embedding E [text] in
  ret (default [] (data !! O)).

Definition embedTextBatch (texts : list string)
    : Eff World (list Embedding) :=
  ai_run_embedding E texts.

(** The [for (batchIdx = 0; batchIdx < chunks.length; ...)] loop. *)
Fixpoint batchLoop (fuel : nat) (sessionId filename : string)
    (chunks : list string) (batchIdx : nat) : option (Eff World unit) :=
  match fuel with
  | O => None
  | S fuel' =>
      if (batchIdx <? length chunks)%nat
      then
        match batchLoop fuel' sessionId filename chunks
                        (batchIdx + BATCH_SIZE) with
        | None => None
        | Some next =>
            Some (
              let batchChunks :=
                sliceList chunks batchIdx (batchIdx + BATCH_SIZE) in
              let textsToEmbed := (λ c, slice c 0 2000) <$> batchChunks in
              let* embeddings := embedTextBatch textsToEmbed in
              let vectors :=
                imap (documentVector sessionId filename batchChunks batchIdx)
                     embeddings in
              do* vectorize_insert E vectors in
              next)
        end
      else Some (ret tt)
  end.

Definition storeDocument (fuel : nat) (sessionId filename content : string)
    : option (Eff World unit) :=
  match chunkLoop fuel content 0 [] with
  | None => None
  | Some chunks => batchLoop fuel sessionId filename chunks 0
  end.

Definition storeMessage (sessionId : string) (messageIndex : nat)
    (role content : string) : Eff World unit :=
  let textToEmbed := slice content 0 2000 in
  let* embedding := embedText textToEmbed in
  vectorize_insert E
    [messageVector sessionId messageIndex role content embedding].

Definition queryRelevantMessages (sessionId queryText : string)
    (topK : nat) : Eff World (list Recalled) :=
  let* queryEmbedding := embedText (slice queryText 0 2000) in
  let* matches := vectorize_query E queryEmbedding topK true sessionId in
  ret ((λ m,
          let md := default (mkMetadata "" "") (m_metadata m) in
          mkRecalled (if truthy (md_role md) then md_role md else "user")
                     (md_content md) (m_score m))
       <$> filter (λ m, hasContent m = true) matches).

Definition dummyVector : Embedding := replicate 768 0%float.

Definition clearSessionVectors (sessionId : string) : Eff World unit :=
  tryCatch
    (let* matches := vectorize_query E dummyVector 100 false sessionId in
     if (0 <? length matches)%nat
     then vectorize_deleteByIds E (m_id <$> matches)
     else ret tt)
    (λ _, ret tt).

Definition storeFact (factId content : string) : Eff World unit :=
  let textToEmbed := slice content 0 2000 in
  let* embedding := embedText textToEmbed in
  let vectorId := "fact::" +:+ shortId factId 30 in
  vectorize_insert E
    [mkVector vectorId embedding FACTS_NAMESPACE
       (mkMetadata "fact" (slice content 0 8000))].

Definition queryRelevantFacts (queryText : string) (topK : nat)
    : Eff World (list FactHit) :=
  let* queryEmbedding := embedText (slice queryText 0 2000) in
  let* matches :=
    vectorize_query E queryEmbedding topK true FACTS_NAMESPACE in
  ret ((λ m,
          let md := default (mkMetadata "" "") (m_metadata m) in
          mkFactHit (md_content md) (m_score m))
       <$> filter (λ m, hasContent m = true) matches).

Definition clearFacts : Eff World unit :=
  tryCatch
    (let* matches :=
       vectorize_query E dummyVector 100 false FACTS_NAMESPACE in
     if (0 <? length matches)%nat
     then vectorize_deleteByIds E (m_id <$> matches)
     else ret tt)
    (λ _, ret tt).

Definition listFacts : Eff World (list FactEntry) :=
  tryCatch
    (let* matches :=
       vectorize_query E dummyVector 50 true FACTS_NAMESPACE in
     ret ((λ m,
             let md := default (mkMetadata "" "") (m_metadata m) in
             mkFactEntry (m_id m) (md_content md))
          <$> filter (λ m, hasContent m = true) matches))
    (λ _, ret []).

Definition deleteFact (factVectorId : string) : Eff World unit :=
  vectorize_deleteByIds E [factVectorId].

End WithEnv.

(** Number of records a namespace holds. *)
Definition namespaceSize (ns : string) (m : gmap string VectorizeVector)
    : nat :=
  size (filter (λ kv, v_namespace kv.2 = ns) m).

End VectorStore.

(** ** chatSession.ts *)

Module ChatSession.

Import Js Services VectorStore Tokenizer.

(** Decimal literals denote the nearest binary64 value, as in JavaScript. *)
#[local] Set Warnings "-inexact-float".

Definition MAX_CONTEXT_TOKENS : Z := 24000.
Definition MAX_RESPONSE_TOKENS : Z := 1024.
Definition MAX_RECALLED_TOKENS : Z := 2000.
Definition MAX_FACTS_TOKENS : Z := 1000.
Definition RAG_TOP_K : nat := 5.
Definition FACTS_TOP_K : nat := 3.
Definition SELF_MATCH_SCORE : float := 0.99%float.
Definition TEMPERATURE : float := 0.7%float.
Definition FALLBACK_REPLY : string := "Sorry, I could not generate a response.".

(** The fields of the Durable Object; [stateId] is [this.state.id.toString()]. *)
Record ChatSession := mkSession {
  stateId : string;
  messages : list Message;
  contextTemplate : string;
  instructMode : string }.

Inductive Body :=
| BodyChat (response : string) (messageCount : nat)
| BodyError (error detail : string)
| BodyOk.

Record Response := mkResponse { status : nat; body : Body }.

Definition pushMessage (m : Message) (self : ChatSession) : ChatSession :=
  mkSession (stateId self) (messages self ++ [m])
            (contextTemplate self) (instructMode self).

Definition resetMessages (self : ChatSession) : ChatSession :=
  mkSession (stateId self) [] (contextTemplate self) (instructMode self).

Definition systemContentOf (utc instruct template : string) : string :=
  let base :=
    "You are a helpful, concise AI assistant powered by Llama 3.3 running on Cloudflare Workers AI."
    +:+ nl +:+
    "You have memory of this conversation via Cloudflare Durable Objects and long-term memory via a vector database."
    +:+ nl +:+
    "If " +:+ dq +:+ "recalled memory" +:+ dq +:+
    " is provided below, use it to reference earlier parts of the conversation the user may be asking about."
    +:+ nl +:+
    "If " +:+ dq +:+ "known facts" +:+ dq +:+
    " are provided, treat them as established truths the user has previously stored."
    +:+ nl +:+
    "Be direct, accurate, and friendly. Format code in markdown code blocks when relevant."
    +:+ nl +:+
    "Current UTC time: " +:+ utc in
  let withInstruct :=
    if trimTruthy instruct
    then base +:+ nl +:+ nl +:+
         "Instruct mode (follow these behavioral instructions):" +:+ nl +:+
         instruct
    else base in
  if trimTruthy template
  then withInstruct +:+ nl +:+ nl +:+
       "Additional context provided by the user for this conversation:"
       +:+ nl +:+ template
  else withInstruct.

(** The predicate of [relevant.filter(...)]:
    [r.score < 0.99 && r.content !== message]. *)
Definition keepRecalled (message : string) (r : Recalled) : bool :=
  (r_score r <? SELF_MATCH_SCORE)%float &&
  negb (String.eqb (r_content r) message).

Definition filterRecalled (message : string) (relevant : list Recalled)
    : list Recalled :=
  filter (λ r, keepRecalled message r = true) relevant.

Definition recalledLine (r : Recalled) : string :=
  "[" +:+ r_role r +:+ "]: " +:+ r_content r.

Definition recalledContextOf (message : string) (relevant : list Recalled)
    : string :=
  let filtered := filterRecalled message relevant in
  if (0 <? length filtered)%nat
  then join nl (recalledLine <$> filtered)
  else "".

Definition factsContextOf (facts : list FactHit) : string :=
  if (0 <? length facts)%nat
  then join nl ((λ f, "• " +:+ f_content f) <$> facts)
  else "".

(** Everything the "token-based context trimming" block computes. *)
Record Prompt := mkPrompt {
  systemTokens : Z;
  recalledMessage : option Message;
  recalledTokens : Z;
  factsMessage : option Message;
  factsTokens : Z;
  availableForHistory : Z;
  trimmed : list Message;
  finalMessages : list Message }.

Section WithEncoder.

Variable encode : string → list nat.

Definition assemble (systemPrompt : Message)
    (recalledContext factsContext : string) (history : list Message)
    : Prompt :=
  let systemTokens := countMessageTokens encode systemPrompt in
  let recalledMessage :=
    if truthy recalledContext
    then Some (mkMessage system
                 ("Recalled memory from earlier in this conversation:"
                  +:+ nl +:+ recalledContext))
    else None in
  let recalledTokens :=
    match recalledMessage with
    | Some m => Z.min (countMessageTokens encode m) MAX_RECALLED_TOKENS
    | None => 0
    end in
  let factsMessage :=
    if truthy factsContext
    then Some (mkMessage system
                 ("Known facts stored by the user:" +:+ nl +:+ factsContext))
    else None in
  let factsTokens :=
    match factsMessage with
    | Some m => Z.min (countMessageTokens encode m) MAX_FACTS_TOKENS
    | None => 0
    end in
  let availableForHistory :=
    MAX_CONTEXT_TOKENS - MAX_RESPONSE_TOKENS - systemTokens
    - recalledTokens - factsTokens in
  let trimmed :=
    trimMessagesToFitContext encode history availableForHistory in
  let finalMessages :=
    [systemPrompt] ++ option_list factsMessage ++
    option_list recalledMessage ++ trimmed in
  mkPrompt systemTokens recalledMessage recalledTokens factsMessage
           factsTokens availableForHistory trimmed finalMessages.

(** By how much a block's real count exceeds what the budget was charged
    for it. *)
Definition uncharged (m : option Message) (charged : Z) : Z :=
  match m with
  | Some m => countMessageTokens encode m - charged
  | None => 0
  end.

Section WithEnv.

Variable E : Env.

Definition insertMessageRow (sessionId role content : string)
    : Eff World unit :=
  let* t := now E in
  d1_run E (InsertMessage sessionId role content t).

Definition replyText (aiResponse : option string) : string :=
  match aiResponse with
  | Some r => if truthy r then r else FALLBACK_REPLY
  | None => FALLBACK_REPLY
  end.

(** [POST /chat], after [ensureLoaded], up to and including the
    assembly of the final message list. *)
Definition buildPrompt (sessionId message : string)
    : Eff (ChatSession * World) Prompt :=
  let* self0 := getSelf in
  let systemPrompt :=
    mkMessage system
      (systemContentOf (utcNow E) (instructMode self0)
                       (contextTemplate self0)) in
  do* modifySelf (pushMessage (mkMessage user message)) in
  let* self1 := getSelf in
  let currentMsgIndex := (length (messages self1) - 1)%nat in
  do* bestEffort (liftW (insertMessageRow sessionId "user" message)) in
  do* bestEffort
        (liftW (storeMessage E (stateId self1) currentMsgIndex
                             "user" message)) in
  let* recalledContext :=
    tryCatch
      (let* relevant :=
         liftW (queryRelevantMessages E (stateId self1) message RAG_TOP_K) in
       ret (recalledContextOf message relevant))
      (λ _, ret "") in
  let* factsContext :=
    tryCatch
      (let* facts := liftW (queryRelevantFacts E message FACTS_TOP_K) in
       ret (factsContextOf facts))
      (λ _, ret "") in
  let* self2 := getSelf in
  ret (assemble systemPrompt recalledContext factsContext (messages self2)).

(** The world after the user message has been appended, its row insert
    and vector write attempted, and the two recalls made. *)
Definition worldAfterPrompt (sessionId message : string)
    (self : ChatSession) (w : World) : World :=
  (buildPrompt sessionId message (self, w)).2.2.

(** The [try { AI.run ... } catch (err) { ... }] block that ends the
    route. *)
Definition respond (sessionId : string) (p : Prompt)
    : Eff (ChatSession * World) Response :=
  tryCatch
    (let* aiResponse :=
       liftW (ai_run_chat E (finalMessages p) MAX_RESPONSE_TOKENS
                          TEMPERATURE) in
     let assistantMessage := replyText aiResponse in
     do* modifySelf (pushMessage (mkMessage assistant assistantMessage)) in
     do* bestEffort
           (liftW (insertMessageRow sessionId "assistant"
                                    assistantMessage)) in
     let* self3 := getSelf in
     do* bestEffort
           (liftW (storeMessage E (stateId self3)
                                (length (messages self3) - 1)%nat
                                "assistant" assistantMessage)) in
     let* self4 := getSelf in
     ret (mkResponse 200
            (BodyChat assistantMessage (length (messages self4)))))
    (λ err, ret (mkResponse 500 (BodyError "AI inference failed" err))).

(** [POST /chat], after [ensureLoaded], for a body whose [message] is a
    string, as the route declares it.  The route does not test the type:
    a body with another value there is not a request this definition
    describes. *)
Definition chat (sessionId message : string)
    : Eff (ChatSession * World) Response :=
  let* p := buildPrompt sessionId message in
  respond sessionId p.

(** [POST /clear], after [ensureLoaded]. *)
Definition clear (sessionId : string)
    : Eff (ChatSession * World) Response :=
  do* modifySelf resetMessages in
  do* bestEffort (liftW (d1_run E (DeleteMessages sessionId))) in
  let* self := getSelf in
  do* bestEffort (liftW (clearSessionVectors E (stateId self))) in
  ret (mkResponse 200 BodyOk).

End WithEnv.

(** A sequence of [/chat] requests on one session, each with the
    environment it meets; the responses come back oldest first. *)
Fixpoint chatTurns (sessionId : string) (turns : list (Env * string))
    (st : ChatSession * World) : list Response * (ChatSession * World) :=
  match turns with
  | [] => ([], st)
  | (E, message) :: rest =>
      match chat E sessionId message st with
      | (Val r, st') =>
          let '(rs, st'') := chatTurns sessionId rest st' in (r :: rs, st'')
      | (Exn _, st') => ([], st')
      end
  end.

End WithEncoder.

Definition freshSession (id : string) : ChatSession := mkSession id [] "" "".

(** The two messages a successful turn appends, and the history that a
    run of successful turns builds. *)
Definition exchange (message reply : string) : list Message :=
  [mkMessage user message; mkMessage assistant reply].

Definition transcript (turns : list (Env * string)) (replies : list string)
    : list Message :=
  mjoin (zip_with (λ t a, exchange t.2 a) turns replies).

(** The role string handed to [storeMessage] for a message. *)
Definition roleName (r : Role) : string :=
  match r with
  | system => "system"
  | user => "user"
  | assistant => "assistant"
  end.

(** The vector write [vs] stores the message at some position of the
    session under the id derived from that position. *)
Definition writesMessageOf (self : ChatSession) (vs : list VectorizeVector)
    : Prop :=
  ∃ i m e, messages self !! i = Some m ∧
           vs = [messageVector (stateId self) i (roleName (role m))
                               (content m) e].

(** The same environment, except that the chat model answers [reply]. *)
Definition withReply (E : Env) (reply : AiReply) : Env :=
  mkEnv (utcNow E) (dateNow E) (d1_ok E) (ai_embed_ok E) (ai_embedding E)
        (λ _ _, reply) (vz_insert_ok E) (vz_rank E) (vz_delete_ok E).

Definition emptyWorld : World := mkWorld ∅ [] [].

End ChatSession.

(** ** The Durable Object: [ensureLoaded] and the routes of [fetch] *)

Module DurableObject.

Import Js Services VectorStore Tokenizer ChatSession.

(** The object: the session fields and the [loaded] flag. *)
Record Instance := mkInstance { session : ChatSession; loaded : bool }.

(** A row of [chats] as [ensureLoaded] selects it; a column may be NULL. *)
Record ChatRow := mkChatRow {
  context_template : option string;
  instruct_mode : option string }.

(** The statements on D1 that the rows of the world do not cover.  Each
    is a request that returns or throws, and may change the world in any
    way. *)
Record Database := mkDatabase {
  (** [SELECT context_template, instruct_mode FROM chats WHERE id = ?]
      with [.first()]: [None] when no row matches *)
  selectChat : string → Eff World (option ChatRow);
  (** [SELECT role, content FROM messages WHERE session_id = ? ORDER BY
      created_at ASC] with [.all()]: the [results] field, when present *)
  selectMessages : string → Eff World (option (list Message));
  (** [UPDATE chats SET context_template = ? WHERE id = ?] *)
  updateContextTemplate : string → string → Eff World unit;
  (** [UPDATE chats SET instruct_mode = ? WHERE id = ?] *)
  updateInstructMode : string → string → Eff World unit;
  (** [DELETE FROM chats WHERE id = ?] *)
  deleteChat : string → Eff World unit }.

(** What [fetch] reads of a request: the path, the method, the
    [x-session-id] header, and the fields of the JSON body, taken as
    parsed and of the types the routes declare: [message] is a string.
    An optional field is [Some] when [typeof] gives ['string']. *)
Record Request := mkRequest {
  rq_pathname : string;
  rq_method : string;
  rq_sessionId : option string;
  rq_message : string;
  rq_contextTemplate : option string;
  rq_instructMode : option string }.

Inductive Reply :=
| Plain (code : nat) (text : string)
| Json (response : Response)
| Settings (ok : bool) (contextTemplate instructMode : string).

Definition setSession (f : ChatSession → ChatSession) (self : Instance)
    : Instance :=
  mkInstance (f (session self)) (loaded self).

Definition setMessages (ms : list Message) (s : ChatSession) : ChatSession :=
  mkSession (stateId s) ms (contextTemplate s) (instructMode s).

Definition setContextTemplate (v : string) (s : ChatSession) : ChatSession :=
  mkSession (stateId s) (messages s) v (instructMode s).

Definition setInstructMode (v : string) (s : ChatSession) : ChatSession :=
  mkSession (stateId s) (messages s) (contextTemplate s) v.

(** [v || ''] *)
Definition orEmpty (v : option string) : string := default "" v.

(** Run a route of the session on the object that holds it. *)
Definition liftSession {A} (c : Eff (ChatSession * World) A)
    : Eff (Instance * World) A :=
  λ iw, match c (session iw.1, iw.2) with
        | (r, (s', w')) => (r, (mkInstance s' (loaded iw.1), w'))
        end.

Definition isRoute (request : Request) (path method : string) : bool :=
  String.eqb (rq_pathname request) path &&
  String.eqb (rq_method request) method.

Section WithEnv.

Variable encode : string → list nat.
Variable E : Env.
Variable D : Database.

Definition ensureLoaded (sessionId : string) : Eff (Instance * World) unit :=
  let* self := getSelf in
  if loaded self then ret tt
  else
    do* bestEffort
          (let* chat := liftW (selectChat D sessionId) in
           do* match chat with
               | Some row =>
                   modifySelf
                     (setSession
                        (λ s, setInstructMode (orEmpty (instruct_mode row))
                                (setContextTemplate
                                   (orEmpty (context_template row)) s)))
               | None => ret tt
               end in
           let* results := liftW (selectMessages D sessionId) in
           match results with
           | Some rs => modifySelf (setSession (setMessages rs))
           | None => ret tt
           end) in
    modifySelf (λ self, mkInstance (session self) true).

Definition fetch (request : Request) : Eff (Instance * World) Reply :=
  match rq_sessionId request with
  | None => ret (Plain 400 "Missing x-session-id header")
  | Some sessionId =>
      if negb (truthy sessionId)
      then ret (Plain 400 "Missing x-session-id header")
      else
        do* ensureLoaded sessionId in
        if isRoute request "/chat" "POST" then
          let* r :=
            liftSession (chat encode E sessionId (rq_message request)) in
          ret (Json r)
        else if isRoute request "/clear" "POST" then
          let* r := liftSession (clear E sessionId) in
          ret (Json r)
        else if isRoute request "/settings" "GET" then
          let* self := getSelf in
          ret (Settings false (contextTemplate (session self))
                        (instructMode (session self)))
        else if isRoute request "/settings" "POST" then
          do* match rq_contextTemplate request with
              | Some v =>
                  do* modifySelf (setSession (setContextTemplate v)) in
                  bestEffort (liftW (updateContextTemplate D v sessionId))
              | None => ret tt
              end in
          do* match rq_instructMode request with
              | Some v =>
                  do* modifySelf (setSession (setInstructMode v)) in
                  bestEffort (liftW (updateInstructMode D v sessionId))
              | None => ret tt
              end in
          let* self := getSelf in
          ret (Settings true (contextTemplate (session self))
                        (instructMode (session self)))
        else ret (Plain 404 "Not Found")
  end.

End WithEnv.

End DurableObject.

(** ** index.ts: routes of the worker

    [env.CHAT_SESSION.get(env.CHAT_SESSION.idFromName(name)).fetch(r)]
    runs [fetch] of the object for that name; the object is the state
    of the routes that call it. *)

Module Worker.

Import Js Services VectorStore Tokenizer ChatSession.

Inductive Reply :=
| FromObject (reply : DurableObject.Reply)
| Ok
| Facts (facts : list FactEntry)
| Error (code : nat) (error : string) (detail : option string).

(** A value read from the body or from the query string, used as a
    condition: [undefined], [null] and the empty string are falsy. *)
Definition present (v : option string) : bool :=
  match v with
  | Some s => truthy s
  | None => false
  end.

(** What [await request.json()] gives a route for the body of a request:
    the call rejects when the body is not JSON; [null] parses, and taking
    a field of it throws; of any other value the fields are taken, an
    absent one being [undefined]. *)
Inductive Body (Fields : Type) : Type :=
| NotJson
| JsonNull
| JsonValue (fields : Fields).
Arguments NotJson {Fields}.
Arguments JsonNull {Fields}.
Arguments JsonValue {Fields} fields.

(** The fields [POST /api/upload] takes of its body, each a string when
    present. *)
Record UploadFields := mkUploadFields {
  up_text : option string;
  up_filename : option string;
  up_sessionId : option string }.

Section WithEnv.

Variable encode : string → list nat.
Variable E : Env.
Variable D : DurableObject.Database.


(** [DELETE /api/chats?id=...]; the request sent to the object carries
    no header. *)
Definition apiChatsDelete (id : option string)
    : Eff (DurableObject.Instance * World) Reply :=
  if negb (present id)
  then ret (Error 400 "Missing id" None)
  else
    tryCatch
      (do* liftW (DurableObject.deleteChat D (default "" id)) in
       do* DurableObject.fetch encode E D
             (DurableObject.mkRequest "/clear" "POST" None "" None None) in
       ret Ok)
      (λ err, ret (Error 500 "Failed to delete chat" (Some err))).

(** [GET /api/facts] *)
Definition apiFactsGet : Eff World Reply :=
  tryCatch
    (let* facts := listFacts E in ret (Facts facts))
    (λ err, ret (Error 500 "Failed to list facts" (Some err))).

(** [DELETE /api/facts], with or without [?id=...] *)
Definition apiFactsDelete (factId : option string) : Eff World Reply :=
  tryCatch
    (do* (if present factId
          then deleteFact E (default "" factId)
          else clearFacts E) in
     ret Ok)
    (λ err, ret (Error 500 "Failed to delete fact(s)" (Some err))).

(** [POST /api/upload]; [None] while the loops of [storeDocument] are
    out of fuel.  The body is read before the [try] block of the route. *)
Definition apiUpload (fuel : nat) (body : Body UploadFields)
    : option (Eff World Reply) :=
  match body with
  | NotJson => Some (throw "SyntaxError")
  | JsonNull => Some (throw "TypeError")
  | JsonValue fields =>
      if negb (present (up_text fields)) ||
         negb (present (up_filename fields)) ||
         negb (present (up_sessionId fields))
      then Some (ret (Error 400 "Missing required fields" None))
      else
        match storeDocument E fuel (default "" (up_sessionId fields))
                            (default "" (up_filename fields))
                            (default "" (up_text fields)) with
        | Some run =>
            Some (tryCatch
                    (do* run in ret Ok)
                    (λ err, ret (Error 500 "Failed to process document"
                                       (Some err))))
        | None => None
        end
  end.

End WithEnv.

End Worker.

(** ** Concrete inputs used to evaluate the definitions *)

Module Samples.

Fixpoint repeatChar (c : Ascii.ascii) (n : nat) : string :=
  match n with
  | O => EmptyString
  | S n' => String c (repeatChar c n')
  end.

(** A 4000-character document. *)
Definition content4000 : string := repeatChar (Ascii.ascii_of_nat 97) 4000.

(** A ranking that returns every record of the namespace, in key order,
    with the same score. *)
Definition rankAll (score : float) (v : Embedding) (ns : string)
    (m : gmap string VectorizeVector) : option (list VectorizeMatch) :=
  Some ((λ kv, mkMatch kv.1 score (Some (v_metadata kv.2)))
        <$> filter (λ kv, v_namespace kv.2 = ns) (map_to_list m)).

(** A Vectorize index holding [n] message records of namespace "c1". *)
Definition storeOf (n : nat) : gmap string VectorizeVector :=
  Services.putVectors
    ((λ i, mkVector ("c1::" +:+ pretty i) [] "c1" (mkMetadata "user" "x"))
     <$> seq 0 n) ∅.

(** An environment in which every request succeeds and the chat model
    answers [reply]. *)
Definition okEnv (reply : AiReply) : Env :=
  mkEnv "Thu, 01 Jan 1970 00:00:00 GMT" (λ n, Z.of_nat n) (λ _ _, true)
        (λ _ _, true) (λ _ text, [0.5%float]) (λ _ _, reply) (λ _ _, true)
        (λ _, rankAll 0.5%float) (λ _ _, true).

(** An environment in which the chat model answers [reply] while every
    persistence and vector request fails. *)
Definition flakyEnv (reply : AiReply) : Env :=
  mkEnv "Thu, 01 Jan 1970 00:00:00 GMT" (λ n, Z.of_nat n) (λ _ _, false)
        (λ _ _, false) (λ _ text, []) (λ _ _, reply) (λ _ _, false)
        (λ _ _ _ _, None) (λ _ _, false).

(** An environment in which every request fails. *)
Definition failEnv : Env :=
  mkEnv "Thu, 01 Jan 1970 00:00:00 GMT" (λ n, Z.of_nat n) (λ _ _, false)
        (λ _ _, false) (λ _ text, []) (λ _ _, AiThrows "model unavailable")
        (λ _ _, false) (λ _ _ _ _, None) (λ _ _, false).

(** Statements on the chats table that find no row and change nothing. *)
Definition idleDatabase : DurableObject.Database :=
  DurableObject.mkDatabase (λ _, ret None) (λ _, ret None)
    (λ _ _, ret tt) (λ _ _, ret tt) (λ _, ret tt).

End Samples.

(** ** Properties of the tokenizer *)

Section TokenizerFacts.

Import Tokenizer.
Variable encode : string → list nat.

Abbreviation count := (countMessageTokens encode).
Abbreviation total := (sumMessageTokens encode).
Abbreviation trim := (trimMessagesToFitContext encode).

Lemma countTokens_nonneg text : 0 ≤ countTokens encode text.
Proof. unfold countTokens. lia. Qed.

Lemma countMessageTokens_pos m : 0 < count m.
Proof.
  unfold countMessageTokens, PER_MESSAGE_OVERHEAD.
  pose proof (countTokens_nonneg (content m)). lia.
Qed.

Lemma sumMessageTokens_nonneg l : 0 ≤ total l.
Proof.
  induction l as [|m l IH]; simpl; [lia|].
  pose proof (countMessageTokens_pos m). lia.
Qed.

Lemma sumMessageTokens_app l1 l2 : total (l1 ++ l2) = total l1 + total l2.
Proof. induction l1 as [|m l1 IH]; simpl; lia. Qed.

(** Dropping fewer messages never lowers the cumulative count. *)
Lemma sumMessageTokens_drop_mono l j k :
  (j ≤ k)%nat → total (drop k l) ≤ total (drop j l).
Proof.
  intros Hjk. replace k with (j + (k - j))%nat by lia.
  rewrite <- drop_drop.
  rewrite <- (take_drop (k - j) (drop j l)) at 2.
  rewrite sumMessageTokens_app.
  pose proof (sumMessageTokens_nonneg (take (k - j) (drop j l))). lia.
Qed.

Lemma sumMessageTokens_drop_lookup l i m :
  l !! i = Some m → total (drop i l) = count m + total (drop (S i) l).
Proof.
  intros Hi. by rewrite (drop_S l m i Hi).
Qed.

(** Loop invariant of [trimLoop]: entered with [startIndex = n] and
    [totalTokens] the count of the window chosen so far, it returns a
    start index [k ≤ n] whose window fits whenever the entry window did,
    and that cannot be extended by one more message. *)
Lemma trimLoop_spec l B n :
  (n ≤ length l)%nat →
  let k := trimLoop encode l B n (total (drop n l)) n in
  (k ≤ n)%nat ∧
  (total (drop n l) ≤ B → total (drop k l) ≤ B) ∧
  (k = O ∨ ∃ k', k = S k' ∧ B < total (drop k' l)).
Proof.
  induction n as [|i IH]; intros Hn; simpl.
  - split; [lia|]. split; [done|]. by left.
  - destruct (l !! i) as [m|] eqn:Hi.
    2:{ apply lookup_ge_None in Hi. lia. }
    pose proof (sumMessageTokens_drop_lookup _ _ _ Hi) as E.
    replace (total (drop (S i) l) + count m) with (total (drop i l)) by lia.
    destruct (Z.gtb_spec (total (drop i l)) B) as [Hgt|Hle].
    + split; [lia|]. split; [done|]. right. exists i. split; [done|lia].
    + destruct (IH ltac:(lia)) as (Hk & Hfit & Hmax).
      split; [lia|]. split; [|done]. intros _. by apply Hfit.
Qed.

Lemma trimLoop_start l B :
  let k := trimLoop encode l B (length l) 0 (length l) in
  (k ≤ length l)%nat ∧
  (0 ≤ B → total (drop k l) ≤ B) ∧
  (k = O ∨ ∃ k', k = S k' ∧ B < total (drop k' l)).
Proof.
  pose proof (trimLoop_spec l B (length l) ltac:(lia)) as H.
  rewrite drop_all in H. simpl in H. exact H.
Qed.

Lemma trimLoop_newest_too_big l m B n t :
  B < t + count m →
  trimLoop encode (l ++ [m]) B (S (length l)) t n = n.
Proof.
  intros Hbig. simpl. rewrite list_lookup_middle by done.
  destruct (Z.gtb_spec (t + count m) B); [done|lia].
Qed.

(** C1, as amended: for every message list and every integer budget the
    trimmer returns a suffix of its input that no fitting suffix exceeds
    in length; for a budget that is not negative the result fits the
    budget, so it is the longest fitting suffix; for a negative budget,
    and whenever the newest message alone exceeds the budget, the result
    is empty. *)
Theorem trim_longest_suffix (messages : list Message) (budget : Z) :
  let r := trim messages budget in
  r `suffix_of` messages ∧
  (∀ s, s `suffix_of` messages → total s ≤ budget →
        (length s ≤ length r)%nat) ∧
  (0 ≤ budget → longestFittingSuffix encode messages budget r) ∧
  (budget < 0 → r = []) ∧
  (∀ m, last messages = Some m → budget < count m → r = []).
Proof.
  intros r. subst r. unfold trimMessagesToFitContext.
  destruct (trimLoop_start messages budget) as (Hk & Hfit & Hmax).
  set (k := trimLoop encode messages budget (length messages) 0
                     (length messages)) in *.
  assert (Hsuf : drop k messages `suffix_of` messages)
    by apply suffix_drop.
  assert (Hlong : ∀ s, s `suffix_of` messages → total s ≤ budget →
                       (length s ≤ length (drop k messages))%nat).
  { intros s [pre ->] Hs. rewrite length_drop, length_app.
    destruct Hmax as [->|(k' & Hk' & Hbig)]; [lia|].
    destruct (decide (length pre ≤ k')%nat) as [Hle|Hgt]; [|lia].
    exfalso.
    pose proof (sumMessageTokens_drop_mono (pre ++ s) _ _ Hle) as Hmono.
    rewrite drop_app_length in Hmono. lia. }
  assert (Hlast : ∀ m, last messages = Some m → budget < count m →
                       drop k messages = []).
  { intros m Hm Hbig. apply last_Some in Hm as [l' ->].
    subst k. rewrite length_app. simpl.
    replace (length l' + 1)%nat with (S (length l')) by lia.
    rewrite trimLoop_newest_too_big by lia.
    replace (S (length l')) with (length (l' ++ [m]))
      by (rewrite length_app; simpl; lia).
    apply drop_all. }
  split; [done|]. split; [done|]. split; [|split; [|done]].
  - intros Hb. split; [done|]. split; [by apply Hfit|done].
  - intros Hneg. destruct (last messages) as [m|] eqn:Hm.
    + apply (Hlast m); [done|]. pose proof (countMessageTokens_pos m). lia.
    + apply last_None in Hm. subst messages. by destruct k.
Qed.


End TokenizerFacts.

(** The claim of C1 read literally fails for a negative budget: the
    trimmer returns the empty suffix, whose count 0 exceeds the budget, so
    no suffix at all fits. *)
Lemma trim_negative_budget_counterexample :
  ¬ Tokenizer.longestFittingSuffix Tokenizer.unitEncoder
      [mkMessage user "hi"] (-1)
      (Tokenizer.trimMessagesToFitContext Tokenizer.unitEncoder
         [mkMessage user "hi"] (-1)).
Proof. intros (_ & Hfit & _). vm_compute in Hfit. by apply Hfit. Qed.


(** ** Properties of document chunking *)

Section ChunkingFacts.

Import Js VectorStore.

Lemma stride_positive :
  (OVERLAP < CHUNK_SIZE)%nat ∧ (CHUNK_SIZE - OVERLAP = 1300)%nat.
Proof. unfold OVERLAP, CHUNK_SIZE. lia. Qed.

(** Whatever the fuel, a finished loop has appended exactly the windows
    at the offsets it visited. *)
Lemma chunkLoop_offsets fuel content i acc chunks :
  chunkLoop fuel content i acc = Some chunks →
  chunks = acc ++ (window content <$> chunkOffsets fuel content i).
Proof.
  revert i acc. induction fuel as [|fuel IH]; intros i acc; simpl; [done|].
  destruct (i <? String.length content)%nat.
  - intros H. apply IH in H. rewrite <- app_assoc in H. exact H.
  - intros [= <-]. by rewrite app_nil_r.
Qed.

(** The visited offsets are [i], [i + 1300], [i + 2 * 1300], ... *)
Lemma chunkOffsets_stride fuel content i :
  chunkOffsets fuel content i =
  (λ k, i + 1300 * k)%nat <$> seq 0 (length (chunkOffsets fuel content i)).
Proof.
  revert i. induction fuel as [|fuel IH]; intros i; cbn [chunkOffsets];
    [done|].
  destruct (i <? String.length content)%nat; [|done].
  cbn [length seq fmap list_fmap]. f_equal; [lia|].
  rewrite IH at 1. rewrite <- fmap_S_seq, <- list_fmap_compose.
  apply list_fmap_ext. intros _ k _. simpl.
  change (CHUNK_SIZE - OVERLAP)%nat with 1300%nat. lia.
Qed.

(** With one unit of fuel per stride still ahead, plus one for the final
    test, the loop finishes. *)
Lemma chunkLoop_enough_fuel fuel content i acc :
  (String.length content ≤ i + 1300 * fuel)%nat →
  ∃ chunks, chunkLoop (S fuel) content i acc = Some chunks.
Proof.
  revert i acc. induction fuel as [|fuel IH]; intros i acc Hfuel.
  - simpl. destruct (Nat.ltb_spec i (String.length content)); [lia|eauto].
  - cbn [chunkLoop].
    destruct (Nat.ltb_spec i (String.length content)); [|eauto].
    apply IH. change (CHUNK_SIZE - OVERLAP)%nat with 1300%nat. lia.
Qed.

(** More fuel never changes the result of a finished loop. *)
Lemma chunkLoop_fuel_mono fuel fuel' content i acc chunks :
  (fuel ≤ fuel')%nat →
  chunkLoop fuel content i acc = Some chunks →
  chunkLoop fuel' content i acc = Some chunks.
Proof.
  revert fuel' i acc. induction fuel as [|fuel IH]; intros fuel' i acc Hle;
    simpl; [done|].
  destruct fuel' as [|fuel']; [lia|]. simpl.
  destruct (i <? String.length content)%nat; [|done].
  apply IH. lia.
Qed.

(** C9: for every content the chunking loop of [storeDocument] finishes:
    the overlap is below the window size, and any fuel above the content
    length yields the same finite list of windows, which start at 0, 1300,
    2600, ... and are never more than the content has characters. *)
Theorem chunking_terminates (content : string) :
  (OVERLAP < CHUNK_SIZE)%nat ∧
  ∃ chunks,
    (∀ fuel, (String.length content < fuel)%nat →
             chunkLoop fuel content 0 [] = Some chunks) ∧
    chunks = (λ k, window content (1300 * k)) <$> seq 0 (length chunks) ∧
    (length chunks ≤ String.length content)%nat.
Proof.
  split; [apply stride_positive|].
  destruct (chunkLoop_enough_fuel (String.length content) content 0 [])
    as [chunks Hrun]; [lia|].
  exists chunks. split; [|split].
  - intros fuel Hfuel. apply (chunkLoop_fuel_mono _ _ _ _ _ _ Hfuel Hrun).
  - apply chunkLoop_offsets in Hrun as ->. cbn [app].
    rewrite length_fmap. rewrite chunkOffsets_stride at 1.
    rewrite <- list_fmap_compose. done.
  - apply chunkLoop_offsets in Hrun as ->. cbn [app]. rewrite length_fmap.
    clear. generalize (S (String.length content)) as fuel.
    intros fuel.
    assert (H : ∀ i, (length (chunkOffsets fuel content i)
                      ≤ String.length content - i)%nat).
    { induction fuel as [|fuel IH]; intros i; simpl; [lia|].
      destruct (Nat.ltb_spec i (String.length content)); simpl; [|lia].
      specialize (IH (i + (CHUNK_SIZE - OVERLAP))%nat).
      change (CHUNK_SIZE - OVERLAP)%nat with 1300%nat in *. lia. }
    specialize (H 0%nat). lia.
Qed.

End ChunkingFacts.

(** ** Properties of [storeDocument] *)

Section StoreDocumentFacts.

Import Js Services VectorStore.

Lemma chunkOffsets_length_only fuel c1 c2 i :
  String.length c1 = String.length c2 →
  chunkOffsets fuel c1 i = chunkOffsets fuel c2 i.
Proof.
  intros Hlen. revert i. induction fuel as [|fuel IH]; intros i;
    cbn [chunkOffsets]; [done|].
  rewrite Hlen. destruct (i <? String.length c2)%nat; [|done].
  by rewrite IH.
Qed.

Lemma content4000_length : String.length Samples.content4000 = 4000%nat.
Proof. vm_compute. reflexivity. Qed.

(** A 4000-character content is cut into four windows. *)
Lemma chunkLoop_4000 content fuel :
  String.length content = 4000%nat → (5 ≤ fuel)%nat →
  chunkLoop fuel content 0 [] =
  Some (window content <$> [0; 1300; 2600; 3900]%nat).
Proof.
  intros Hlen Hfuel.
  destruct (chunkLoop_enough_fuel 4 content 0 []) as [chunks Hrun];
    [lia|].
  rewrite (chunkLoop_fuel_mono _ _ _ _ _ _ Hfuel Hrun). f_equal.
  apply chunkLoop_offsets in Hrun as ->. cbn [app]. f_equal.
  rewrite (chunkOffsets_length_only _ content Samples.content4000)
    by (by rewrite content4000_length).
  vm_compute. reflexivity.
Qed.

Lemma chunkLoop_4000_unique content fuel chunks :
  String.length content = 4000%nat →
  chunkLoop fuel content 0 [] = Some chunks →
  chunks = window content <$> [0; 1300; 2600; 3900]%nat.
Proof.
  intros Hlen Hrun.
  pose proof (chunkLoop_fuel_mono fuel (fuel + 5) _ _ _ _ ltac:(lia) Hrun)
    as Hmore.
  rewrite (chunkLoop_4000 content (fuel + 5) Hlen) in Hmore by lia.
  congruence.
Qed.

Lemma string_app_inv_head (p a b : string) : p +:+ a = p +:+ b → a = b.
Proof. induction p as [|c p IH]; simpl; [done|]. intros [= H]. auto. Qed.

(** Record ids of one document differ as soon as the window indices do. *)
Lemma documentVector_id_inj sid fn chunks b i j e1 e2 :
  v_id (documentVector sid fn chunks b i e1) =
  v_id (documentVector sid fn chunks b j e2) → i = j.
Proof.
  unfold documentVector. simpl. intros H.
  do 5 apply string_app_inv_head in H.
  apply (inj pretty) in H. lia.
Qed.

Lemma documentVector_ids_NoDup sid fn chunks b (es : list Embedding) :
  NoDup (v_id <$> imap (documentVector sid fn chunks b) es).
Proof.
  apply NoDup_alt. intros i j x.
  rewrite !list_lookup_fmap, !list_lookup_imap.
  destruct (es !! i) as [ei|]; [|done].
  destruct (es !! j) as [ej|]; [|done].
  simpl. intros [= Hi] [= Hj].
  apply (documentVector_id_inj sid fn chunks b i j ei ej).
  etrans; [exact Hi|symmetry; exact Hj].
Qed.

(** C5, as amended: a 4000-character content is cut into exactly four
    windows, at offsets 0, 1300, 2600 and 3900; [storeDocument] embeds
    them in one batch and, when the embedding and the insert succeed,
    inserts four records whose ids are pairwise distinct. *)
Theorem storeDocument_4000 (E : Env) (sessionId filename content : string)
    (fuel : nat) (w : World) :
  String.length content = 4000%nat → (5 ≤ fuel)%nat →
  let chunks := window content <$> [0; 1300; 2600; 3900]%nat in
  let texts := (λ c, slice c 0 2000) <$> chunks in
  let n := length (trace w) in
  let records :=
    imap (documentVector sessionId filename chunks 0)
         (ai_embedding E n <$> texts) in
  chunkLoop fuel content 0 [] = Some chunks ∧
  producesWindows content [0; 1300; 2600; 3900]%nat ∧
  length records = 4%nat ∧
  NoDup (v_id <$> records) ∧
  ∃ run,
    storeDocument E fuel sessionId filename content = Some run ∧
    (ai_embed_ok E n texts = true → vz_insert_ok E (S n) records = true →
     run w = (Val tt,
              mkWorld (putVectors records (vectors w)) (rows w)
                      (trace w ++ [EvEmbed texts; EvInsert records]))).
Proof.
  intros Hlen Hfuel. cbv zeta.
  pose proof (chunkLoop_4000 content fuel Hlen Hfuel) as Hchunks.
  set (chunks := window content <$> [0; 1300; 2600; 3900]%nat) in *.
  set (texts := (λ c, slice c 0 2000) <$> chunks).
  set (records := imap (documentVector sessionId filename chunks 0)
                       (ai_embedding E (length (trace w)) <$> texts)).
  split; [done|]. split; [by exists fuel|]. split; [done|]. split.
  - apply documentVector_ids_NoDup.
  - unfold storeDocument. rewrite Hchunks.
    do 2 (destruct fuel as [|fuel]; [lia|]).
    cbn [batchLoop]. change (0 <? length chunks)%nat with true.
    change (0 + BATCH_SIZE <? length chunks)%nat with false.
    cbn iota. change (sliceList chunks 0 (0 + BATCH_SIZE)) with chunks.
    fold texts. eexists. split; [reflexivity|].
    intros Hembed Hinsert.
    unfold embedTextBatch, ai_run_embedding, vectorize_insert, tick, log.
    unfold bind, get, modify, ret. cbn [trace vectors rows].
    rewrite Hembed. fold records. cbn [trace vectors rows].
    rewrite length_app, Nat.add_1_r, Hinsert. cbn [trace vectors rows].
    by rewrite <- app_assoc.
Qed.

End StoreDocumentFacts.

Lemma storeDocument_4000_witness :
  String.length Samples.content4000 = 4000%nat ∧
  ∃ run,
    VectorStore.storeDocument (Samples.okEnv (AiReturns None)) 5
      "c1" "notes.txt" Samples.content4000 = Some run ∧
    (run ChatSession.emptyWorld).1 = Val tt ∧
    size (vectors (run ChatSession.emptyWorld).2) = 4%nat.
Proof.
  split; [apply content4000_length|].
  destruct (storeDocument_4000 (Samples.okEnv (AiReturns None)) "c1"
              "notes.txt" Samples.content4000 5 ChatSession.emptyWorld
              content4000_length (le_n 5))
    as (_ & _ & _ & _ & run & Hrun & Hok).
  exists run. split; [exact Hrun|].
  rewrite (Hok eq_refl eq_refl). split; [reflexivity|].
  vm_compute. reflexivity.
Defined.

(** The claim of C5 read literally fails: on a 4000-character content the
    finished loop never holds just the three windows at 0, 1300, 2600. *)
Lemma storeDocument_three_windows_counterexample :
  ¬ VectorStore.producesWindows Samples.content4000 [0; 1300; 2600]%nat.
Proof.
  intros [fuel Hrun].
  apply chunkLoop_4000_unique in Hrun; [|apply content4000_length].
  apply (f_equal length) in Hrun. discriminate Hrun.
Qed.

(** ** Properties of namespace clearing *)

Section ClearFacts.

Import Js Services VectorStore.

Lemma namespaceSize_delete ns i (m : gmap string VectorizeVector) :
  (namespaceSize ns m ≤ S (namespaceSize ns (delete i m)))%nat.
Proof.
  unfold namespaceSize. rewrite map_filter_delete, map_size_delete.
  destruct (filter _ m !! i); simpl; lia.
Qed.

(** Deleting a list of ids removes at most that many records. *)
Lemma namespaceSize_dropVectors ns ids (m : gmap string VectorizeVector) :
  (namespaceSize ns m ≤ namespaceSize ns (dropVectors ids m) + length ids)%nat.
Proof.
  induction ids as [|i ids IH]; simpl; [lia|].
  pose proof (namespaceSize_delete ns i (dropVectors ids m)).
  unfold dropVectors in *. lia.
Qed.

(** Whatever the services answer, one call deletes the ids of at most 100
    matches and changes nothing else in the index. *)
Lemma clearSessionVectors_vectors E sessionId w :
  ∃ ids, (length ids ≤ 100)%nat ∧
         vectors (clearSessionVectors E sessionId w).2 =
         dropVectors ids (vectors w).
Proof.
  unfold clearSessionVectors, vectorize_query, vectorize_deleteByIds,
    tick, log.
  unfold tryCatch, bind, get, modify, ret, throw.
  cbn [vectors rows trace].
  destruct (vz_rank E _ dummyVector sessionId (vectors w)) as [ranked|].
  2:{ exists []. split; [simpl; lia|reflexivity]. }
  destruct (0 <? length (stripMetadata <$> take 100 ranked))%nat.
  2:{ exists []. split; [simpl; lia|reflexivity]. }
  destruct (vz_delete_ok E _ (m_id <$> (stripMetadata <$> take 100 ranked))).
  2:{ exists []. split; [simpl; lia|reflexivity]. }
  eexists. split; [|reflexivity].
  rewrite !length_fmap, length_take. lia.
Qed.

Lemma clearFacts_unfold E w :
  clearFacts E w = clearSessionVectors E FACTS_NAMESPACE w.
Proof. reflexivity. Qed.

(** C7: one call of [clearSessionVectors] or [clearFacts] deletes at most
    100 records: a namespace that held [n] records still holds at least
    [n - 100], so one that held more than 100 is not empty afterwards. *)
Theorem clear_deletes_at_most_cap (E : Env) (sessionId ns : string)
    (w : World) :
  let n := namespaceSize ns (vectors w) in
  let afterSession :=
    namespaceSize ns (vectors (clearSessionVectors E sessionId w).2) in
  let afterFacts := namespaceSize ns (vectors (clearFacts E w).2) in
  (n ≤ afterSession + 100)%nat ∧ (n ≤ afterFacts + 100)%nat ∧
  ((100 < n)%nat → (0 < afterSession)%nat ∧ (0 < afterFacts)%nat).
Proof.
  cbv zeta. rewrite clearFacts_unfold.
  destruct (clearSessionVectors_vectors E sessionId w) as (ids & Hn & ->).
  destruct (clearSessionVectors_vectors E FACTS_NAMESPACE w)
    as (ids' & Hn' & ->).
  pose proof (namespaceSize_dropVectors ns ids (vectors w)).
  pose proof (namespaceSize_dropVectors ns ids' (vectors w)).
  lia.
Qed.

End ClearFacts.

Lemma clear_deletes_at_most_cap_witness :
  let w := mkWorld (Samples.storeOf 101) [] [] in
  (100 < VectorStore.namespaceSize "c1" (vectors w))%nat ∧
  (0 < VectorStore.namespaceSize "c1"
         (vectors (VectorStore.clearSessionVectors
                     (Samples.okEnv (AiReturns None)) "c1" w).2))%nat.
Proof.
  cbv zeta.
  assert (H : (100 < VectorStore.namespaceSize "c1"
                       (vectors (mkWorld (Samples.storeOf 101) [] [])))%nat)
    by (vm_compute; lia).
  split; [exact H|].
  apply (clear_deletes_at_most_cap (Samples.okEnv (AiReturns None))
           "c1" "c1" (mkWorld (Samples.storeOf 101) [] [])).
  exact H.
Defined.

(** ** Running effectful code *)

Section EffectFacts.

Context {S : Type}.

Lemma bind_run {A B} (c : Eff S A) (k : A → Eff S B) s :
  bind c k s = match c s with
               | (Val a, s') => k a s'
               | (Exn e, s') => (Exn e, s')
               end.
Proof. reflexivity. Qed.

(** A best-effort block over the world never throws and leaves the
    session fields alone. *)
Lemma bestEffort_liftW_run (c : Eff World unit) (s : S) (w : World) :
  bestEffort (liftW c) (s, w) = (Val tt, (s, (c w).2)).
Proof.
  unfold bestEffort, tryCatch, liftW, ret. simpl.
  by destruct (c w) as [[[]|e] w'].
Qed.

(** A [try] block that computes a value from a query, with a default
    when the query throws. *)
Lemma tryCatch_liftW_run {A B} (q : Eff World A) (f : A → B) (d : B)
    (s : S) (w : World) :
  tryCatch (bind (liftW q) (λ x, ret (f x))) (λ _, ret d) (s, w) =
  (Val (match (q w).1 with Val x => f x | Exn _ => d end), (s, (q w).2)).
Proof.
  unfold tryCatch, bind, liftW, ret. simpl.
  by destruct (q w) as [[x|e] w'].
Qed.

End EffectFacts.

(** Run the head [bind] of a computation when its first step is a
    best-effort block, a guarded query, or a read of the session. *)
Ltac best_effort_step :=
  rewrite bind_run, bestEffort_liftW_run; cbn beta iota.
Ltac guarded_query_step :=
  rewrite bind_run, tryCatch_liftW_run; cbn beta iota.
Ltac get_self_step :=
  rewrite bind_run; unfold getSelf at 1; cbn beta iota; cbn [fst snd].
Ltac modify_self_step :=
  rewrite bind_run; unfold modifySelf at 1; cbn beta iota; cbn [fst snd].

(** Splits a membership in a trace built by appending into its cases and
    drops those that name a different kind of event. *)
Ltac split_trace H :=
  repeat first
    [ rewrite elem_of_app in H
    | rewrite elem_of_cons in H
    | rewrite elem_of_nil in H
    | match type of H with _ ∨ _ => destruct H as [H|H] end ];
  try discriminate H; try contradiction.

(** ** What the services record *)

Section ServiceFacts.

Import Js Services VectorStore ChatSession.

Variable E : Env.

Lemma insertMessageRow_run sid r c w :
  insertMessageRow E sid r c w =
  let n := length (trace w) in
  let st := InsertMessage sid r c (dateNow E n) in
  if d1_ok E n st
  then (Val tt,
        mkWorld (vectors w) (rows w ++ [mkRow sid r c (dateNow E n)])
                (trace w ++ [EvD1 st]))
  else (Exn "D1_ERROR",
        mkWorld (vectors w) (rows w) (trace w ++ [EvD1 st])).
Proof.
  unfold insertMessageRow, now, d1_run, tick, log.
  unfold bind, get, modify, ret, throw. cbn [vectors rows trace].
  by destruct (d1_ok E _ _).
Qed.

Lemma storeMessage_run ns idx r c w :
  storeMessage E ns idx r c w =
  let n := length (trace w) in
  let text := slice c 0 2000 in
  let v := messageVector ns idx r c (ai_embedding E n text) in
  if ai_embed_ok E n [text]
  then
    if vz_insert_ok E (S n) [v]
    then (Val tt,
          mkWorld (<[v_id v := v]> (vectors w)) (rows w)
                  (trace w ++ [EvEmbed [text]; EvInsert [v]]))
    else (Exn "VECTOR_INSERT_ERROR",
          mkWorld (vectors w) (rows w)
                  (trace w ++ [EvEmbed [text]; EvInsert [v]]))
  else (Exn "AI_ERROR",
        mkWorld (vectors w) (rows w) (trace w ++ [EvEmbed [text]])).
Proof.
  unfold storeMessage, embedText, ai_run_embedding, vectorize_insert,
    tick, log.
  unfold bind, get, modify, ret, throw. cbn [vectors rows trace].
  destruct (ai_embed_ok E _ _); [|done]. cbn [vectors rows trace].
  cbn [fmap list_fmap lookup list_lookup default].
  rewrite length_app, Nat.add_1_r.
  destruct (vz_insert_ok E _ _); cbn [vectors rows trace];
    by rewrite <- app_assoc.
Qed.

(** A recall query changes neither the index nor the rows; it records
    the embedding call and, when that succeeds, the query. *)
Lemma queryRelevantMessages_world ns q k w :
  (queryRelevantMessages E ns q k w).2 =
  let n := length (trace w) in
  mkWorld (vectors w) (rows w)
    (trace w ++
     EvEmbed [slice q 0 2000] ::
     if ai_embed_ok E n [slice q 0 2000]
     then [EvQuery (ai_embedding E n (slice q 0 2000)) k ns] else []).
Proof.
  unfold queryRelevantMessages, embedText, ai_run_embedding,
    vectorize_query, tick, log.
  unfold bind, get, modify, ret, throw. cbn [vectors rows trace].
  destruct (ai_embed_ok E _ _); [|done]. cbn [vectors rows trace].
  cbn [fmap list_fmap lookup list_lookup default].
  destruct (vz_rank E _ _ _ _); cbn [snd]; by rewrite <- app_assoc.
Qed.

Lemma queryRelevantFacts_world q k w :
  (queryRelevantFacts E q k w).2 =
  let n := length (trace w) in
  mkWorld (vectors w) (rows w)
    (trace w ++
     EvEmbed [slice q 0 2000] ::
     if ai_embed_ok E n [slice q 0 2000]
     then [EvQuery (ai_embedding E n (slice q 0 2000)) k FACTS_NAMESPACE]
     else []).
Proof.
  unfold queryRelevantFacts, embedText, ai_run_embedding,
    vectorize_query, tick, log.
  unfold bind, get, modify, ret, throw. cbn [vectors rows trace].
  destruct (ai_embed_ok E _ _); [|done]. cbn [vectors rows trace].
  cbn [fmap list_fmap lookup list_lookup default].
  destruct (vz_rank E _ _ _ _); cbn [snd]; by rewrite <- app_assoc.
Qed.

(** What the row insert and the vector write of one message leave
    behind, whether or not they succeed. *)
Lemma insertMessageRow_world sid r c w :
  (insertMessageRow E sid r c w).2 =
  let n := length (trace w) in
  let t := dateNow E n in
  mkWorld (vectors w)
    (if d1_ok E n (InsertMessage sid r c t)
     then rows w ++ [mkRow sid r c t] else rows w)
    (trace w ++ [EvD1 (InsertMessage sid r c t)]).
Proof.
  rewrite insertMessageRow_run. cbv zeta. by destruct (d1_ok E _ _).
Qed.

Lemma storeMessage_world ns idx r c w :
  (storeMessage E ns idx r c w).2 =
  let n := length (trace w) in
  let text := slice c 0 2000 in
  let v := messageVector ns idx r c (ai_embedding E n text) in
  mkWorld
    (if ai_embed_ok E n [text] && vz_insert_ok E (S n) [v]
     then <[v_id v := v]> (vectors w) else vectors w)
    (rows w)
    (trace w ++ EvEmbed [text] ::
     if ai_embed_ok E n [text] then [EvInsert [v]] else []).
Proof.
  rewrite storeMessage_run. cbv zeta.
  destruct (ai_embed_ok E _ _); [|done].
  by destruct (vz_insert_ok E _ _).
Qed.

Lemma ai_run_chat_run msgs max_tokens temperature w :
  ai_run_chat E msgs max_tokens temperature w =
  (match ai_chat E (length (trace w)) msgs with
   | AiReturns response => Val response
   | AiThrows e => Exn e
   end,
   mkWorld (vectors w) (rows w)
           (trace w ++ [EvChat msgs max_tokens temperature])).
Proof.
  unfold ai_run_chat, tick, log. unfold bind, get, modify, ret, throw.
  by destruct (ai_chat E _ msgs).
Qed.

End ServiceFacts.

(** ** One [/chat] request, step by step *)

Section ChatFacts.

Import Js Services VectorStore Tokenizer ChatSession.

Variable encode : string → list nat.
Variable E : Env.

Lemma pushMessage_index m self :
  (length (messages (pushMessage m self)) - 1)%nat = length (messages self).
Proof. unfold pushMessage. simpl. rewrite length_app. simpl. lia. Qed.

(** Up to the assembly of the prompt nothing can throw: the user message
    is appended, the row insert and the vector write are attempted, and
    the two recalls fall back to the empty string. *)
Lemma buildPrompt_run sid msg self w :
  buildPrompt encode E sid msg (self, w) =
  let w1 := (insertMessageRow E sid "user" msg w).2 in
  let w2 := (storeMessage E (stateId self) (length (messages self))
                          "user" msg w1).2 in
  let q := queryRelevantMessages E (stateId self) msg RAG_TOP_K w2 in
  let fq := queryRelevantFacts E msg FACTS_TOP_K q.2 in
  let rc := match q.1 with
            | Val relevant => recalledContextOf msg relevant
            | Exn _ => ""
            end in
  let fc := match fq.1 with
            | Val facts => factsContextOf facts
            | Exn _ => ""
            end in
  (Val (assemble encode
          (mkMessage system
             (systemContentOf (utcNow E) (instructMode self)
                              (contextTemplate self)))
          rc fc (messages self ++ [mkMessage user msg])),
   (pushMessage (mkMessage user msg) self, fq.2)).
Proof.
  unfold buildPrompt.
  get_self_step. modify_self_step. get_self_step.
  rewrite pushMessage_index.
  best_effort_step. best_effort_step.
  guarded_query_step. guarded_query_step.
  get_self_step. reflexivity.
Qed.

(** The world the prompt assembly leaves behind: the row insert, the
    vector write and the two recalls, one after the other. *)
Lemma worldAfterPrompt_unfold sid msg self w :
  worldAfterPrompt encode E sid msg self w =
  let w1 := (insertMessageRow E sid "user" msg w).2 in
  let w2 := (storeMessage E (stateId self) (length (messages self))
                          "user" msg w1).2 in
  let w3 := (queryRelevantMessages E (stateId self) msg RAG_TOP_K w2).2 in
  (queryRelevantFacts E msg FACTS_TOP_K w3).2.
Proof. unfold worldAfterPrompt. by rewrite buildPrompt_run. Qed.

Lemma buildPrompt_total sid msg self w :
  ∃ p, buildPrompt encode E sid msg (self, w) =
       (Val p, (pushMessage (mkMessage user msg) self,
                worldAfterPrompt encode E sid msg self w)).
Proof.
  unfold worldAfterPrompt. rewrite buildPrompt_run. cbv zeta.
  eexists. reflexivity.
Qed.

(** Only the row insert touches the rows. *)
Lemma worldAfterPrompt_rows sid msg self w :
  rows (worldAfterPrompt encode E sid msg self w) =
  let n := length (trace w) in
  if d1_ok E n (InsertMessage sid "user" msg (dateNow E n))
  then rows w ++ [mkRow sid "user" msg (dateNow E n)] else rows w.
Proof.
  rewrite worldAfterPrompt_unfold. cbv zeta.
  rewrite queryRelevantFacts_world, queryRelevantMessages_world,
    storeMessage_world, insertMessageRow_world.
  reflexivity.
Qed.

(** The only vector write is that of the user message, under the id of
    its position. *)
Lemma worldAfterPrompt_inserts sid msg self w vs :
  EvInsert vs ∈ trace (worldAfterPrompt encode E sid msg self w) →
  EvInsert vs ∈ trace w ∨
  ∃ e, vs = [messageVector (stateId self) (length (messages self))
                           "user" msg e].
Proof.
  rewrite worldAfterPrompt_unfold. cbv zeta.
  rewrite queryRelevantFacts_world, queryRelevantMessages_world,
    storeMessage_world, insertMessageRow_world.
  cbv zeta. cbn [trace]. intros Hin.
  repeat match type of Hin with
         | context [if ?b then _ else _] => destruct b
         end;
    split_trace Hin;
    first [by left | right; injection Hin as ->; by eexists].
Qed.

(** The closing [try] block: a throw of the model becomes the 500
    response and nothing else happens; a return appends the reply, then
    attempts the row insert and the vector write. *)
Lemma respond_run sid p self w :
  respond E sid p (self, w) =
  let w0 := mkWorld (vectors w) (rows w)
              (trace w ++ [EvChat (finalMessages p) MAX_RESPONSE_TOKENS
                                  TEMPERATURE]) in
  match ai_chat E (length (trace w)) (finalMessages p) with
  | AiThrows e =>
      (Val (mkResponse 500 (BodyError "AI inference failed" e)), (self, w0))
  | AiReturns r =>
      let a := replyText r in
      let self' := pushMessage (mkMessage assistant a) self in
      let w1 := (insertMessageRow E sid "assistant" a w0).2 in
      let w2 := (storeMessage E (stateId self) (length (messages self))
                              "assistant" a w1).2 in
      (Val (mkResponse 200 (BodyChat a (length (messages self')))),
       (self', w2))
  end.
Proof.
  unfold respond, tryCatch. rewrite bind_run.
  unfold liftW at 1. cbn [fst snd]. rewrite ai_run_chat_run.
  destruct (ai_chat E _ (finalMessages p)) as [e|r]; [reflexivity|].
  cbn beta iota.
  modify_self_step. best_effort_step. get_self_step.
  rewrite pushMessage_index. best_effort_step. get_self_step.
  reflexivity.
Qed.

Lemma chat_run sid msg st :
  chat encode E sid msg st =
  match buildPrompt encode E sid msg st with
  | (Val p, st') => respond E sid p st'
  | (Exn e, st') => (Exn e, st')
  end.
Proof. reflexivity. Qed.

End ChatFacts.

(** ** Properties of a chat turn *)

Section TurnFacts.

Import Js Services VectorStore Tokenizer ChatSession.

Variable encode : string → list nat.

(** The world the prompt assembly leaves behind, call by call: the row
    insert; the embedding of the message for its vector and, when that
    succeeded, the vector write; then for each of the two recalls the
    embedding of the query and, when that succeeded, the query. *)
Lemma worldAfterPrompt_calls E sid msg self w :
  let n := length (trace w) in
  let text := slice msg 0 2000 in
  let v := messageVector (stateId self) (length (messages self)) "user" msg
             (ai_embedding E (S n) text) in
  let embedded := ai_embed_ok E (S n) [text] in
  let k := (S (S n) + (if embedded then 1 else 0))%nat in
  let k' := (S k + (if ai_embed_ok E k [text] then 1 else 0))%nat in
  let w1 := worldAfterPrompt encode E sid msg self w in
  trace w1 =
    trace w ++
    [EvD1 (InsertMessage sid "user" msg (dateNow E n)); EvEmbed [text]] ++
    (if embedded then [EvInsert [v]] else []) ++
    EvEmbed [text] ::
    (if ai_embed_ok E k [text]
     then [EvQuery (ai_embedding E k text) RAG_TOP_K (stateId self)]
     else []) ++
    EvEmbed [text] ::
    (if ai_embed_ok E k' [text]
     then [EvQuery (ai_embedding E k' text) FACTS_TOP_K FACTS_NAMESPACE]
     else []) ∧
  vectors w1 =
    (if embedded && vz_insert_ok E (S (S n)) [v]
     then <[v_id v := v]> (vectors w) else vectors w).
Proof.
  cbv zeta. rewrite worldAfterPrompt_unfold. cbv zeta.
  rewrite queryRelevantFacts_world, queryRelevantMessages_world,
    storeMessage_world, insertMessageRow_world.
  cbv zeta. cbn [trace vectors rows].
  rewrite !length_app. cbn [length].
  replace (length (trace w) + 1)%nat with (S (length (trace w))) by lia.
  split; [|done].
  destruct (ai_embed_ok E (S (length (trace w))) _); cbn [length];
    rewrite ?Nat.add_succ_r, ?Nat.add_0_r;
    (destruct (ai_embed_ok E _ _); cbn [length];
     rewrite ?Nat.add_succ_r, ?Nat.add_0_r;
     rewrite <- ?app_assoc; reflexivity).
Qed.

(** C4: when the model call throws, the turn answers with the explicit
    500 error; the user message stays in the session and no assistant
    message is added.  Before the model was called, the row insert of
    the user message was attempted, then the embedding of its first 2000
    characters and, when that succeeded, the write of its vector under
    the id of its position; the index holds that vector exactly when the
    write succeeded, and the row exactly when the insert ran.  The two
    recalls follow, and nothing is persisted after the failure. *)
Theorem model_failure_keeps_user_message (E : Env) (sid msg : string)
    (self : ChatSession) (w : World) :
  let w1 := worldAfterPrompt encode E sid msg self w in
  let n := length (trace w) in
  let text := slice msg 0 2000 in
  let v := messageVector (stateId self) (length (messages self)) "user" msg
             (ai_embedding E (S n) text) in
  let embedded := ai_embed_ok E (S n) [text] in
  let k := (S (S n) + (if embedded then 1 else 0))%nat in
  let k' := (S k + (if ai_embed_ok E k [text] then 1 else 0))%nat in
  ∃ p,
    buildPrompt encode E sid msg (self, w) =
      (Val p, (pushMessage (mkMessage user msg) self, w1)) ∧
    trace w1 =
      trace w ++
      [EvD1 (InsertMessage sid "user" msg (dateNow E n)); EvEmbed [text]] ++
      (if embedded then [EvInsert [v]] else []) ++
      EvEmbed [text] ::
      (if ai_embed_ok E k [text]
       then [EvQuery (ai_embedding E k text) RAG_TOP_K (stateId self)]
       else []) ++
      EvEmbed [text] ::
      (if ai_embed_ok E k' [text]
       then [EvQuery (ai_embedding E k' text) FACTS_TOP_K FACTS_NAMESPACE]
       else []) ∧
    vectors w1 =
      (if embedded && vz_insert_ok E (S (S n)) [v]
       then <[v_id v := v]> (vectors w) else vectors w) ∧
    rows w1 =
      (if d1_ok E n (InsertMessage sid "user" msg (dateNow E n))
       then rows w ++ [mkRow sid "user" msg (dateNow E n)] else rows w) ∧
    ∀ e, ai_chat E (length (trace w1)) (finalMessages p) = AiThrows e →
         ∃ st',
           chat encode E sid msg (self, w) =
             (Val (mkResponse 500 (BodyError "AI inference failed" e)), st') ∧
           messages st'.1 = messages self ++ [mkMessage user msg] ∧
           vectors st'.2 = vectors w1 ∧
           rows st'.2 = rows w1 ∧
           trace st'.2 =
             trace w1 ++ [EvChat (finalMessages p) MAX_RESPONSE_TOKENS
                                 TEMPERATURE].
Proof.
  cbv zeta.
  destruct (buildPrompt_total encode E sid msg self w) as [p Hp].
  exists p. split; [exact Hp|].
  destruct (worldAfterPrompt_calls E sid msg self w) as [Htrace Hvectors].
  split; [exact Htrace|]. split; [exact Hvectors|].
  split; [apply worldAfterPrompt_rows|].
  intros e He. rewrite chat_run, Hp, respond_run, He.
  eexists. split; [reflexivity|]. done.
Qed.

(** What one turn does to the session, whatever the services answer. *)
Lemma chat_turn E sid msg self w :
  ∃ resp st',
    chat encode E sid msg (self, w) = (Val resp, st') ∧
    stateId st'.1 = stateId self ∧
    ((∃ a, resp = mkResponse 200
                    (BodyChat a (length (messages self) + 2)) ∧
           messages st'.1 = messages self ++ exchange msg a) ∨
     (status resp = 500%nat ∧
      messages st'.1 = messages self ++ [mkMessage user msg])) ∧
    (∀ vs, EvInsert vs ∈ trace st'.2 →
           EvInsert vs ∈ trace w ∨ writesMessageOf st'.1 vs).
Proof.
  destruct (buildPrompt_total encode E sid msg self w) as [p Hp].
  rewrite chat_run, Hp, respond_run. cbv zeta.
  pose proof (worldAfterPrompt_inserts encode E sid msg self w) as Hold.
  set (w1 := worldAfterPrompt encode E sid msg self w) in *.
  assert (Hvu : ∀ self' e, stateId self' = stateId self →
                  messages self' !! length (messages self) =
                    Some (mkMessage user msg) →
                  writesMessageOf self'
                    [messageVector (stateId self) (length (messages self))
                                   "user" msg e]).
  { intros self' e Hid Hm.
    exists (length (messages self)), (mkMessage user msg), e.
    split; [exact Hm|]. by rewrite Hid. }
  destruct (ai_chat E _ (finalMessages p)) as [e|r].
  - eexists _, _. split; [reflexivity|]. cbn [fst snd].
    split; [done|]. split; [right; done|].
    intros vs. cbn [trace]. intros Hin. split_trace Hin.
    apply Hold in Hin as [?|[e' ->]]; [by left|]. right.
    apply Hvu; [done|]. unfold pushMessage. cbn [messages].
    by rewrite list_lookup_middle.
  - eexists _, _. split; [reflexivity|]. cbn [fst snd].
    split; [done|]. split.
    + left. exists (replyText r). split.
      * unfold pushMessage. cbn [messages]. rewrite !length_app.
        cbn [length].
        replace (length (messages self) + 1 + 1)%nat
          with (length (messages self) + 2)%nat by lia.
        reflexivity.
      * unfold pushMessage, exchange. cbn [messages].
        by rewrite <- app_assoc.
    + intros vs. rewrite storeMessage_world, insertMessageRow_world.
      cbv zeta. cbn [trace].
      set (va := messageVector _ _ "assistant" _ _).
      intros Hin.
      assert (Hcases : EvInsert vs ∈ trace w1 ∨ vs = [va]).
      { match type of Hin with
        | context [if ?b then _ else _] => destruct b
        end;
          split_trace Hin; first [by left | right; by injection Hin]. }
      destruct Hcases as [[?|[e' ->]]%Hold| ->]; [by left| |]; right.
      * apply Hvu; [done|]. unfold pushMessage. cbn [messages].
        rewrite <- app_assoc. cbn [app]. by rewrite list_lookup_middle.
      * eexists (length (messages self) + 1)%nat,
          (mkMessage assistant (replyText r)), _. split.
        -- unfold pushMessage. cbn [messages].
           apply list_lookup_middle. rewrite length_app. simpl. lia.
        -- subst va. unfold pushMessage. cbn [messages stateId role content].
           rewrite length_app. cbn [length roleName]. reflexivity.
Qed.

Lemma transcript_cons t turns a replies :
  transcript (t :: turns) (a :: replies) =
  exchange t.2 a ++ transcript turns replies.
Proof. reflexivity. Qed.

Lemma transcript_length turns replies :
  length replies = length turns →
  length (transcript turns replies) = (2 * length turns)%nat.
Proof.
  revert replies. induction turns as [|t turns IH]; intros [|a replies];
    simpl; try done.
  intros [= Hlen]. unfold transcript in IH. rewrite (IH _ Hlen). lia.
Qed.

Lemma transcript_roles turns replies i m :
  transcript turns replies !! i = Some m →
  role m = if Nat.even i then user else assistant.
Proof.
  revert replies i. induction turns as [|t turns IH];
    intros [|a replies] i; try done.
  rewrite transcript_cons. destruct i as [|[|i]]; simpl.
  - by intros [= <-].
  - by intros [= <-].
  - apply IH.
Qed.

Lemma transcript_lookup turns replies k E msg a :
  turns !! k = Some (E, msg) → replies !! k = Some a →
  transcript turns replies !! (2 * k)%nat = Some (mkMessage user msg) ∧
  transcript turns replies !! (2 * k + 1)%nat = Some (mkMessage assistant a).
Proof.
  revert replies k. induction turns as [|t turns IH];
    intros [|a' replies] k; try done.
  rewrite transcript_cons. destruct k as [|k]; simpl.
  - by intros [= ->] [= ->].
  - intros Ht Ha. replace (k + S (k + 0))%nat with (S (2 * k)) by lia.
    simpl. replace (k + (k + 0) + 1)%nat with (2 * k + 1)%nat by lia.
    by apply IH.
Qed.

Lemma writesMessageOf_mono self self' vs :
  stateId self' = stateId self → messages self `prefix_of` messages self' →
  writesMessageOf self vs → writesMessageOf self' vs.
Proof.
  intros Hid [more Hmore] (i & m & e & Hm & ->).
  exists i, m, e. split; [|by rewrite Hid].
  rewrite Hmore. by apply lookup_app_l_Some.
Qed.

(** A run of turns that all answered 200 has appended one exchange per
    turn, in order. *)
Lemma chatTurns_transcript sid turns self w rs st' :
  chatTurns encode sid turns (self, w) = (rs, st') →
  Forall (λ r, status r = 200%nat) rs →
  ∃ replies,
    length replies = length turns ∧
    messages st'.1 = messages self ++ transcript turns replies ∧
    rs = imap (λ k a, mkResponse 200
                        (BodyChat a (length (messages self) + 2 * k + 2)))
              replies ∧
    stateId st'.1 = stateId self ∧
    (∀ vs, EvInsert vs ∈ trace st'.2 →
           EvInsert vs ∈ trace w ∨ writesMessageOf st'.1 vs).
Proof.
  revert self w rs st'.
  induction turns as [|[E msg] turns IH]; intros self w rs st'.
  - simpl. intros [= <- <-] _. exists []. simpl.
    rewrite app_nil_r. repeat split; auto.
  - cbn [chatTurns].
    destruct (chat_turn E sid msg self w)
      as (resp & [self1 w1] & Hchat & Hid & Hmsgs & Hwrites).
    rewrite Hchat.
    destruct (chatTurns encode sid turns (self1, w1)) as [rs' st''] eqn:Hrest.
    intros [= <- <-] Hok. apply Forall_cons in Hok as [Hresp Hok].
    destruct Hmsgs as [(a & -> & Hm)|[Hbad _]]; [|congruence].
    cbn [fst snd] in *.
    destruct (IH _ _ _ _ Hrest Hok)
      as (replies & Hlen & Hm' & Hrs & Hid' & Hwrites').
    exists (a :: replies). split; [simpl; lia|]. split; [|split; [|split]].
    + rewrite Hm', Hm, transcript_cons. cbn [snd]. by rewrite <- app_assoc.
    + cbn [imap]. f_equal.
      * f_equal. f_equal. lia.
      * rewrite Hrs. apply imap_ext. intros k b _. cbn.
        rewrite Hm, length_app. cbn [exchange length]. do 2 f_equal. lia.
    + congruence.
    + intros vs [Hin|Hin]%Hwrites'; [|by right].
      apply Hwrites in Hin as [?|Hin]; [by left|]. right.
      eapply writesMessageOf_mono; [done| |exact Hin].
      rewrite Hm'. by apply prefix_app_r.
Qed.

(** C3: after N turns that all succeeded on a session whose message list
    was empty, the list holds exactly 2N messages, user and assistant
    alternating: position 2k holds the k-th submitted text and position
    2k+1 the k-th reply, whatever happened to the row inserts and vector
    writes; every vector write recorded on the way stores the message at
    some position under the id derived from that position. *)
Theorem successful_turns_sequence (sid : string)
    (turns : list (Env * string)) (self : ChatSession) (w : World)
    (rs : list Response) (st' : ChatSession * World) :
  messages self = [] →
  chatTurns encode sid turns (self, w) = (rs, st') →
  Forall (λ r, status r = 200%nat) rs →
  let N := length turns in
  length rs = N ∧
  length (messages st'.1) = (2 * N)%nat ∧
  (∀ i, (i < 2 * N)%nat →
        role <$> (messages st'.1 !! i) =
        Some (if Nat.even i then user else assistant)) ∧
  (∀ k E msg, turns !! k = Some (E, msg) →
     messages st'.1 !! (2 * k)%nat = Some (mkMessage user msg) ∧
     ∃ a, rs !! k = Some (mkResponse 200 (BodyChat a (2 * k + 2))) ∧
          messages st'.1 !! (2 * k + 1)%nat = Some (mkMessage assistant a)) ∧
  (∀ vs, EvInsert vs ∈ trace st'.2 →
         EvInsert vs ∈ trace w ∨ writesMessageOf st'.1 vs).
Proof.
  intros Hfresh Hrun Hok N.
  destruct (chatTurns_transcript _ _ _ _ _ _ Hrun Hok)
    as (replies & Hlen & Hm & Hrs & _ & Hwrites).
  rewrite Hfresh in Hm, Hrs. cbn [app length] in Hm, Hrs.
  split; [by rewrite Hrs, length_imap|].
  split; [by rewrite Hm, transcript_length|].
  split; [|split; [|exact Hwrites]].
  - intros i Hi. rewrite Hm.
    destruct (transcript turns replies !! i) as [m|] eqn:Hi'.
    + simpl. f_equal. by eapply transcript_roles.
    + apply lookup_ge_None in Hi'.
      rewrite transcript_length in Hi' by done. subst N. lia.
  - intros k E msg Hk.
    destruct (replies !! k) as [a|] eqn:Ha.
    2:{ apply lookup_ge_None in Ha. apply lookup_lt_Some in Hk. lia. }
    destruct (transcript_lookup _ _ _ _ _ _ Hk Ha) as [Hu Has].
    rewrite Hm. split; [done|]. exists a. split; [|done].
    rewrite Hrs, list_lookup_imap, Ha. simpl. do 3 f_equal.
Qed.

Lemma replyText_fallback r :
  r = None ∨ r = Some "" → replyText r = FALLBACK_REPLY.
Proof. by intros [->| ->]. Qed.

Lemma slice_fallback_2000 : slice FALLBACK_REPLY 0 2000 = FALLBACK_REPLY.
Proof. vm_compute. reflexivity. Qed.

Lemma slice_fallback_8000 : slice FALLBACK_REPLY 0 8000 = FALLBACK_REPLY.
Proof. vm_compute. reflexivity. Qed.

(** A turn depends on the chat model's answer only through the reply
    text derived from it. *)
Lemma chat_withReply E sid msg st r r' :
  replyText r = replyText r' →
  chat encode (withReply E (AiReturns r)) sid msg st =
  chat encode (withReply E (AiReturns r')) sid msg st.
Proof.
  intros Hr. destruct st as [self w].
  rewrite !chat_run, !buildPrompt_run. cbv zeta. cbn beta iota.
  rewrite !respond_run. cbv zeta. cbn [ai_chat withReply].
  rewrite Hr. reflexivity.
Qed.

(** C10: when the model returns without a response text the turn does
    not fail: it answers 200 with the fixed fallback sentence, appends it
    as the assistant message, and calls for its row insert and its vector
    write as for any reply; the whole turn is the one that a model
    answering the fallback sentence itself would produce. *)
Theorem empty_reply_falls_back (E : Env) (sid msg : string)
    (self : ChatSession) (w : World) :
  let w1 := worldAfterPrompt encode E sid msg self w in
  let n := length (trace w1) in
  ∃ p,
    buildPrompt encode E sid msg (self, w) =
      (Val p, (pushMessage (mkMessage user msg) self, w1)) ∧
    (∀ r, ai_chat E n (finalMessages p) = AiReturns r →
          r = None ∨ r = Some "" →
          let a := FALLBACK_REPLY in
          let chatEv := EvChat (finalMessages p) MAX_RESPONSE_TOKENS
                               TEMPERATURE in
          let t := dateNow E (S n) in
          let v := messageVector (stateId self) (S (length (messages self)))
                                 "assistant" a
                                 (ai_embedding E (S (S n)) a) in
          ∃ st',
            chat encode E sid msg (self, w) =
              (Val (mkResponse 200
                      (BodyChat a (length (messages self) + 2))), st') ∧
            messages st'.1 =
              messages self ++ [mkMessage user msg; mkMessage assistant a] ∧
            rows st'.2 =
              (if d1_ok E (S n) (InsertMessage sid "assistant" a t)
               then rows w1 ++ [mkRow sid "assistant" a t] else rows w1) ∧
            trace st'.2 =
              trace w1 ++
              [chatEv; EvD1 (InsertMessage sid "assistant" a t);
               EvEmbed [a]] ++
              (if ai_embed_ok E (S (S n)) [a] then [EvInsert [v]] else []) ∧
            vectors st'.2 =
              (if ai_embed_ok E (S (S n)) [a] &&
                  vz_insert_ok E (S (S (S n))) [v]
               then <[v_id v := v]> (vectors w1) else vectors w1)) ∧
    (∀ st r, r = None ∨ r = Some "" →
             chat encode (withReply E (AiReturns r)) sid msg st =
             chat encode (withReply E (AiReturns (Some FALLBACK_REPLY)))
                  sid msg st).
Proof.
  cbv zeta.
  destruct (buildPrompt_total encode E sid msg self w) as [p Hp].
  exists p. split; [exact Hp|]. split.
  - intros r Hr Hempty.
    rewrite chat_run, Hp, respond_run, Hr. cbv zeta.
    rewrite (replyText_fallback r Hempty).
    rewrite storeMessage_world, insertMessageRow_world. cbv zeta.
    cbn [rows trace vectors]. rewrite slice_fallback_2000.
    unfold pushMessage. cbn [messages stateId].
    rewrite !length_app. cbn [length]. rewrite !Nat.add_1_r.
    eexists. split; [|split; [|split; [|split]]].
    + replace (length (messages self) + 2)%nat
        with (S (S (length (messages self)))) by lia.
      reflexivity.
    + cbn [fst messages]. by rewrite <- app_assoc.
    + reflexivity.
    + cbn [snd trace]. rewrite <- !app_assoc. reflexivity.
    + reflexivity.
  - intros st r Hempty. apply chat_withReply.
    by rewrite (replyText_fallback r Hempty).
Qed.

(** ** Properties of the assembled prompt *)

Lemma SFcompare_swap x y c :
  SFcompare x y = Some c → SFcompare y x = Some (CompOpp c).
Proof.
  destruct x as [sx|sx| |sx mx ex], y as [sy|sy| |sy my ey]; simpl;
    try discriminate;
    try (intros [= <-]; try destruct sx; try destruct sy; reflexivity).
  intros [= <-]. f_equal.
  rewrite (Z.compare_antisym ex ey).
  pose proof (Pos.compare_cont_antisym mx my Eq) as Hm. simpl in Hm.
  destruct sx, sy; simpl; try reflexivity;
    destruct (ex ?= ey)%Z; simpl; try reflexivity.
  - by rewrite <- Hm, CompOpp_involutive.
  - by rewrite <- Hm.
Qed.

(** On binary64 values, [t <= s] excludes [s < t]. *)
Lemma float_leb_not_ltb (t s : float) :
  (t <=? s)%float = true → (s <? t)%float = false.
Proof.
  rewrite leb_spec, ltb_spec. unfold SFleb, SFltb.
  destruct (SFcompare (Prim2SF t) (Prim2SF s)) as [c|] eqn:Hc; [|done].
  rewrite (SFcompare_swap _ _ _ Hc). by destruct c.
Qed.

Lemma keepRecalled_true msg r :
  keepRecalled msg r = true ↔
  (r_score r <? SELF_MATCH_SCORE)%float = true ∧ r_content r ≠ msg.
Proof.
  unfold keepRecalled. rewrite andb_true_iff, negb_true_iff.
  by rewrite String.eqb_neq.
Qed.

Lemma recalledContextOf_join msg relevant :
  recalledContextOf msg relevant =
  join nl (recalledLine <$> filterRecalled msg relevant).
Proof.
  unfold recalledContextOf.
  by destruct (filterRecalled msg relevant).
Qed.

(** C8: the recalled-memory message of a turn is built from exactly the
    matches of the recall query that pass the filter (none when the query
    throws); each of them scores strictly below 0.99 and differs textually
    from the submitted message, and a match scoring 0.99 or more, or equal
    to the submitted text, is never among them. *)
Theorem recalled_never_self (E : Env) (sid msg : string)
    (self : ChatSession) (w : World) :
  let w2 := (storeMessage E (stateId self) (length (messages self)) "user"
               msg (insertMessageRow E sid "user" msg w).2).2 in
  let relevant :=
    match (queryRelevantMessages E (stateId self) msg RAG_TOP_K w2).1 with
    | Val found => found
    | Exn _ => []
    end in
  let filtered := filterRecalled msg relevant in
  let block := join nl (recalledLine <$> filtered) in
  (∃ p,
     buildPrompt encode E sid msg (self, w) =
       (Val p, (pushMessage (mkMessage user msg) self,
                worldAfterPrompt encode E sid msg self w)) ∧
     recalledMessage p =
       (if truthy block
        then Some (mkMessage system
                     ("Recalled memory from earlier in this conversation:"
                      +:+ nl +:+ block))
        else None)) ∧
  (∀ r, r ∈ filtered →
        r ∈ relevant ∧
        (r_score r <? SELF_MATCH_SCORE)%float = true ∧
        r_content r ≠ msg) ∧
  (∀ r, r ∈ relevant →
        (SELF_MATCH_SCORE <=? r_score r)%float = true ∨ r_content r = msg →
        r ∉ filtered).
Proof.
  pose proof (buildPrompt_run encode E sid msg self w) as Hrun.
  cbv zeta in Hrun. cbv zeta.
  set (w2 := (storeMessage E (stateId self) (length (messages self)) "user"
                msg (insertMessageRow E sid "user" msg w).2).2) in *.
  set (q := queryRelevantMessages E (stateId self) msg RAG_TOP_K w2) in *.
  split; [|split].
  - eexists. split.
    { unfold worldAfterPrompt. rewrite Hrun. reflexivity. }
    cbn [recalledMessage assemble].
    rewrite <- recalledContextOf_join. by destruct q.1.
  - intros r [Hkeep Hin]%list_elem_of_filter.
    apply keepRecalled_true in Hkeep. tauto.
  - intros r _ Hbad [Hkeep _]%list_elem_of_filter.
    apply keepRecalled_true in Hkeep as [Hlt Hne].
    destruct Hbad as [Hge|Heq]; [|done].
    apply float_leb_not_ltb in Hge. congruence.
Qed.

(** C2: the prompt of a turn is assembled from a system message, a
    recalled block and a facts block; the budget handed to the trimmer is
    24000 - 1024 minus the system message's count, minus the recalled
    message's count capped at 2000, minus the facts message's count capped
    at 1000 (nothing is charged for an absent block), and the recalled and
    facts messages enter the final list with their whole text whatever
    they count. *)
Theorem history_budget_charges_capped (E : Env) (sid msg : string)
    (self : ChatSession) (w : World) :
  (∃ sys rc fc,
     buildPrompt encode E sid msg (self, w) =
       (Val (assemble encode sys rc fc
               (messages self ++ [mkMessage user msg])),
        (pushMessage (mkMessage user msg) self,
         worldAfterPrompt encode E sid msg self w))) ∧
  ∀ sys rc fc history,
    let p := assemble encode sys rc fc history in
    let rm := mkMessage system
                ("Recalled memory from earlier in this conversation:"
                 +:+ nl +:+ rc) in
    let fm := mkMessage system
                ("Known facts stored by the user:" +:+ nl +:+ fc) in
    let recalledCharge :=
      if truthy rc then Z.min (countMessageTokens encode rm) 2000 else 0 in
    let factsCharge :=
      if truthy fc then Z.min (countMessageTokens encode fm) 1000 else 0 in
    availableForHistory p =
      24000 - 1024 - countMessageTokens encode sys
      - recalledCharge - factsCharge ∧
    trimmed p =
      trimMessagesToFitContext encode history (availableForHistory p) ∧
    finalMessages p =
      [sys] ++ (if truthy fc then [fm] else []) ++
      (if truthy rc then [rm] else []) ++ trimmed p.
Proof.
  split.
  - pose proof (buildPrompt_run encode E sid msg self w) as Hrun.
    cbv zeta in Hrun. eexists _, _, _. unfold worldAfterPrompt.
    rewrite Hrun. reflexivity.
  - intros sys rc fc history. cbv zeta.
    unfold assemble. cbn [availableForHistory trimmed finalMessages].
    unfold MAX_CONTEXT_TOKENS, MAX_RESPONSE_TOKENS, MAX_RECALLED_TOKENS,
      MAX_FACTS_TOKENS.
    by destruct (truthy rc), (truthy fc).
Qed.

End TurnFacts.

(** A recalled block of 3000 characters is charged 2000 tokens and still
    enters the prompt whole. *)
Example capped_charge_keeps_text :
  let rc := Samples.repeatChar (Ascii.ascii_of_nat 97) 3000 in
  let p := ChatSession.assemble Tokenizer.unitEncoder
             (mkMessage system "s") rc "" [] in
  ChatSession.recalledTokens p = 2000 ∧
  (String.length <$> (content <$> ChatSession.recalledMessage p))
    = Some 3051%nat.
Proof. vm_compute. done. Qed.

Lemma successful_turns_sequence_witness :
  let turns :=
    [(Samples.okEnv (AiReturns (Some "Hello!")), "Hi");
     (Samples.flakyEnv (AiReturns (Some "Fine.")), "How are you?")] in
  let run := ChatSession.chatTurns Tokenizer.unitEncoder "c1" turns
               (ChatSession.freshSession "c1", ChatSession.emptyWorld) in
  length (ChatSession.messages run.2.1) = 4%nat.
Proof.
  cbv zeta.
  set (turns := [(Samples.okEnv (AiReturns (Some "Hello!")), "Hi");
     (Samples.flakyEnv (AiReturns (Some "Fine.")), "How are you?")]).
  set (run := ChatSession.chatTurns Tokenizer.unitEncoder "c1" turns
               (ChatSession.freshSession "c1", ChatSession.emptyWorld)).
  assert (Hok : Forall (λ r, ChatSession.status r = 200%nat) run.1)
    by (vm_compute; repeat constructor).
  apply (successful_turns_sequence Tokenizer.unitEncoder "c1" turns
           (ChatSession.freshSession "c1") ChatSession.emptyWorld
           run.1 run.2 eq_refl (surjective_pairing run) Hok).
Defined.

Lemma model_failure_keeps_user_message_witness :
  let E := ChatSession.withReply (Samples.okEnv (AiReturns None))
             (AiThrows "model unavailable") in
  ∃ st',
    ChatSession.chat Tokenizer.unitEncoder E "c1" "Hi"
      (ChatSession.freshSession "object-1", ChatSession.emptyWorld) =
    (Val (ChatSession.mkResponse 500
            (ChatSession.BodyError "AI inference failed"
                                   "model unavailable")), st') ∧
    ChatSession.messages st'.1 = [mkMessage user "Hi"] ∧
    rows st'.2 = [mkRow "c1" "user" "Hi" 0] ∧
    is_Some (vectors st'.2 !! "object-1::0").
Proof.
  cbv zeta.
  pose proof (model_failure_keeps_user_message Tokenizer.unitEncoder
                (ChatSession.withReply (Samples.okEnv (AiReturns None))
                   (AiThrows "model unavailable"))
                "c1" "Hi" (ChatSession.freshSession "object-1")
                ChatSession.emptyWorld) as H.
  cbv zeta in H.
  destruct H as (p & _ & _ & Hvectors & Hrows & Hfail).
  destruct (Hfail "model unavailable" eq_refl)
    as (st' & Hchat & Hm & Hv & Hr & _).
  exists st'. split; [exact Hchat|]. split; [exact Hm|].
  rewrite Hr, Hrows, Hv, Hvectors. split; [reflexivity|].
  vm_compute. by eexists.
Defined.

Lemma empty_reply_falls_back_witness :
  ∃ st',
    ChatSession.chat Tokenizer.unitEncoder
      (Samples.okEnv (AiReturns None)) "c1" "Hi"
      (ChatSession.freshSession "c1", ChatSession.emptyWorld) =
    (Val (ChatSession.mkResponse 200
            (ChatSession.BodyChat ChatSession.FALLBACK_REPLY 2)), st') ∧
    ChatSession.messages st'.1 =
      [mkMessage user "Hi";
       mkMessage assistant ChatSession.FALLBACK_REPLY].
Proof.
  destruct (empty_reply_falls_back Tokenizer.unitEncoder
              (Samples.okEnv (AiReturns None)) "c1" "Hi"
              (ChatSession.freshSession "c1") ChatSession.emptyWorld)
    as (p & _ & Hfb & _).
  destruct (Hfb None eq_refl (or_introl eq_refl))
    as (st' & Hchat & Hm & _).
  exists st'. split; [exact Hchat|exact Hm].
Defined.

(** * Further properties

    ** The trimmer *)

Section TrimmerMore.

Import Tokenizer.
Variable encode : string → list nat.

Abbreviation count' := (countMessageTokens encode).
Abbreviation total' := (sumMessageTokens encode).
Abbreviation trim' := (trimMessagesToFitContext encode).
Abbreviation start' l B :=
  (trimLoop encode l B (length l) 0 (length l)).

(** With a negative budget the loop stops before it takes a message. *)
Lemma trimLoop_negative l B n s :
  B < 0 → trimLoop encode l B n 0 s = s.
Proof.
  intros HB. destruct n as [|i]; simpl; [done|].
  destruct (l !! i) as [m|]; [|done].
  pose proof (countMessageTokens_pos encode m).
  destruct (Z.gtb_spec (0 + count' m) B); [done|lia].
Qed.

(** The start index is the least one whose window fits, or the length of
    the list when the budget is negative. *)
Lemma start_index_spec l B :
  (start' l B ≤ length l)%nat ∧
  (B < 0 → start' l B = length l) ∧
  (0 ≤ B → total' (drop (start' l B) l) ≤ B) ∧
  (∀ j, (j < start' l B)%nat → B < total' (drop j l)).
Proof.
  destruct (trimLoop_start encode l B) as (Hk & Hfit & Hmax).
  split; [done|]. split; [by apply trimLoop_negative|]. split; [done|].
  intros j Hj. destruct Hmax as [H0|(k' & Hk' & Hbig)]; [lia|].
  rewrite Hk' in Hj.
  assert (Hjk : (j ≤ k')%nat) by lia.
  eapply Z.lt_le_trans; [exact Hbig|].
  by apply sumMessageTokens_drop_mono.
Qed.

(** X1: a larger budget never drops a message that a smaller budget
    kept: the window for the smaller budget is a suffix of the window for
    the larger one. *)
Theorem trim_monotone (l : list Message) (B1 B2 : Z) :
  B1 ≤ B2 → trim' l B1 `suffix_of` trim' l B2.
Proof.
  intros HB. unfold trimMessagesToFitContext.
  destruct (start_index_spec l B1) as (Hk1 & Hneg1 & Hfit1 & _).
  destruct (start_index_spec l B2) as (Hk2 & _ & _ & Hmin2).
  assert (Hle : (start' l B2 ≤ start' l B1)%nat).
  { destruct (decide (B1 < 0)) as [Hn|Hp]; [rewrite (Hneg1 Hn); lia|].
    destruct (decide (start' l B2 ≤ start' l B1)%nat) as [|Hgt]; [done|].
    specialize (Hmin2 (start' l B1) ltac:(lia)).
    specialize (Hfit1 ltac:(lia)). lia. }
  replace (start' l B1) with (start' l B2 + (start' l B1 - start' l B2))%nat
    by lia.
  rewrite <- drop_drop. apply suffix_drop.
Qed.

(** X2: a list that fits the budget is returned whole, a list returned
    whole fits the budget unless it is empty, and trimming a trimmed list
    again changes nothing. *)
Theorem trim_fits_whole (l : list Message) (B : Z) :
  (total' l ≤ B → trim' l B = l) ∧
  (trim' l B = l → l = [] ∨ total' l ≤ B) ∧
  trim' (trim' l B) B = trim' l B.
Proof.
  assert (Hwhole : ∀ l', total' l' ≤ B → trim' l' B = l').
  { intros l' Hfit. unfold trimMessagesToFitContext.
    destruct (start_index_spec l' B) as (_ & _ & _ & Hmin).
    destruct (decide (start' l' B = 0%nat)) as [->|Hne]; [done|].
    specialize (Hmin 0%nat ltac:(lia)). rewrite drop_0 in Hmin. lia. }
  split; [apply Hwhole|]. split.
  - unfold trimMessagesToFitContext.
    destruct (start_index_spec l B) as (Hk & Hneg & Hfit & _).
    intros Heq. apply (f_equal length) in Heq. rewrite length_drop in Heq.
    destruct l as [|m l]; [by left|]. right.
    assert (Hz : start' (m :: l) B = 0%nat) by (simpl in *; lia).
    destruct (decide (B < 0)) as [Hn|Hp].
    + rewrite (Hneg Hn) in Hz. simpl in Hz. lia.
    + specialize (Hfit ltac:(lia)). by rewrite Hz in Hfit.
  - destruct (decide (B < 0)) as [Hn|Hp].
    + unfold trimMessagesToFitContext at 2 3.
      destruct (start_index_spec l B) as (_ & Hneg & _ & _).
      rewrite (Hneg Hn), drop_all. reflexivity.
    + apply Hwhole. unfold trimMessagesToFitContext.
      destruct (start_index_spec l B) as (_ & _ & Hfit & _).
      apply Hfit. lia.
Qed.

Lemma trim_newest_cases (l : list Message) (m : Message) (B : Z) :
  last l = Some m →
  (count' m ≤ B → last (trim' l B) = Some m) ∧
  (B < count' m → trim' l B = []).
Proof.
  intros Hlast. apply last_Some in Hlast as [l' ->].
  unfold trimMessagesToFitContext.
  destruct (start_index_spec (l' ++ [m]) B) as (Hk & _ & _ & Hmin).
  assert (Hlen : length (l' ++ [m]) = S (length l'))
    by (rewrite length_app; simpl; lia).
  split.
  - intros Hfit.
    set (k := start' (l' ++ [m]) B) in *.
    assert (Hlt : (k ≤ length l')%nat).
    { destruct (decide (k ≤ length l')%nat) as [|Hgt]; [done|].
      specialize (Hmin (length l') ltac:(lia)).
      rewrite drop_app_length in Hmin. simpl in Hmin. lia. }
    rewrite drop_app_le by done. by rewrite last_snoc.
  - intros Hbig. rewrite Hlen.
    rewrite trimLoop_newest_too_big by lia.
    apply drop_ge. lia.
Qed.

(** X3: the newest message survives the trim exactly when it fits the
    budget on its own; if it does not, nothing survives. *)
Theorem trim_keeps_newest (l : list Message) (m : Message) (B : Z) :
  last l = Some m →
  (count' m ≤ B → last (trim' l B) = Some m) ∧
  (B < count' m → trim' l B = []).
Proof. apply trim_newest_cases. Qed.

Lemma trim_fits_budget (l : list Message) (B : Z) :
  0 ≤ B → total' (trim' l B) ≤ B.
Proof.
  intros HB. unfold trimMessagesToFitContext.
  destruct (start_index_spec l B) as (_ & _ & Hfit & _). by apply Hfit.
Qed.

End TrimmerMore.

Lemma trim_monotone_witness :
  Tokenizer.trimMessagesToFitContext Tokenizer.unitEncoder
    [mkMessage user "hello"; mkMessage assistant "hi"] 6
  `suffix_of`
  Tokenizer.trimMessagesToFitContext Tokenizer.unitEncoder
    [mkMessage user "hello"; mkMessage assistant "hi"] 15.
Proof.
  apply (trim_monotone Tokenizer.unitEncoder). lia.
Defined.

Lemma trim_keeps_newest_witness :
  last (Tokenizer.trimMessagesToFitContext Tokenizer.unitEncoder
          [mkMessage user "hello"; mkMessage assistant "hi"] 6)
  = Some (mkMessage assistant "hi").
Proof.
  apply (trim_keeps_newest Tokenizer.unitEncoder
           [mkMessage user "hello"; mkMessage assistant "hi"]
           (mkMessage assistant "hi") 6 eq_refl).
  vm_compute. discriminate.
Defined.

(** ** The assembled prompt *)

Section PromptMore.

Import Js Services VectorStore Tokenizer ChatSession.
Variable encode : string → list nat.

Lemma sumMessageTokens_cons m l :
  sumMessageTokens encode (m :: l) =
  countMessageTokens encode m + sumMessageTokens encode l.
Proof. reflexivity. Qed.

Lemma assemble_total sys rc fc history :
  let p := assemble encode sys rc fc history in
  sumMessageTokens encode (finalMessages p) =
  (MAX_CONTEXT_TOKENS - MAX_RESPONSE_TOKENS - availableForHistory p)
  + sumMessageTokens encode (trimmed p)
  + uncharged encode (recalledMessage p) (recalledTokens p)
  + uncharged encode (factsMessage p) (factsTokens p).
Proof.
  cbv zeta. unfold assemble.
  cbn [finalMessages availableForHistory trimmed recalledMessage
       recalledTokens factsMessage factsTokens].
  unfold MAX_CONTEXT_TOKENS, MAX_RESPONSE_TOKENS, MAX_RECALLED_TOKENS,
    MAX_FACTS_TOKENS.
  destruct (truthy rc), (truthy fc);
    cbn [option_list option_rect app uncharged];
    rewrite ?sumMessageTokens_cons; lia.
Qed.

(** X4: the assembled prompt counts exactly the window minus the reply
    reserve, minus what the history budget left unused, plus what the
    recalled and facts messages count beyond their caps; so with a budget
    that is not negative and both blocks within their caps the prompt
    never exceeds 24000 - 1024 tokens. *)
Theorem prompt_fits_window (sys : Message) (rc fc : string)
    (history : list Message) :
  let p := assemble encode sys rc fc history in
  let over :=
    uncharged encode (recalledMessage p) (recalledTokens p)
    + uncharged encode (factsMessage p) (factsTokens p) in
  0 ≤ over ∧
  sumMessageTokens encode (finalMessages p) =
    24000 - 1024 - availableForHistory p
    + sumMessageTokens encode (trimmed p) + over ∧
  (0 ≤ availableForHistory p →
   sumMessageTokens encode (finalMessages p) ≤ 24000 - 1024 + over) ∧
  (0 ≤ availableForHistory p →
   (∀ m, recalledMessage p = Some m → countMessageTokens encode m ≤ 2000) →
   (∀ m, factsMessage p = Some m → countMessageTokens encode m ≤ 1000) →
   sumMessageTokens encode (finalMessages p) ≤ 24000 - 1024).
Proof.
  cbv zeta. pose proof (assemble_total sys rc fc history) as Htot.
  cbv zeta in Htot.
  set (p := assemble encode sys rc fc history) in *.
  assert (Hover : 0 ≤ uncharged encode (recalledMessage p) (recalledTokens p) ∧
                  0 ≤ uncharged encode (factsMessage p) (factsTokens p)).
  { subst p. unfold assemble.
    cbn [recalledMessage recalledTokens factsMessage factsTokens].
    destruct (truthy rc), (truthy fc); cbn [uncharged]; lia. }
  assert (Htrim : 0 ≤ availableForHistory p →
                  sumMessageTokens encode (trimmed p) ≤ availableForHistory p).
  { intros Hb. subst p. unfold assemble at 1. cbn [trimmed].
    by apply trim_fits_budget. }
  unfold MAX_CONTEXT_TOKENS, MAX_RESPONSE_TOKENS in Htot.
  split; [lia|]. split; [lia|]. split.
  - intros Hb. specialize (Htrim Hb). lia.
  - intros Hb Hr Hf. specialize (Htrim Hb).
    assert (uncharged encode (recalledMessage p) (recalledTokens p) = 0 ∧
            uncharged encode (factsMessage p) (factsTokens p) = 0) as [Hr0 Hf0].
    { revert Hr Hf. subst p. unfold assemble.
      cbn [recalledMessage recalledTokens factsMessage factsTokens].
      unfold MAX_RECALLED_TOKENS, MAX_FACTS_TOKENS.
      destruct (truthy rc), (truthy fc); cbn [uncharged]; intros Hr Hf;
        try specialize (Hr _ eq_refl); try specialize (Hf _ eq_refl);
        split; lia. }
    lia.
Qed.

End PromptMore.

(** ** Strings *)

Section StringFacts.

Import Js.

Lemma append_cons c x y : String c x +:+ y = String c (x +:+ y).
Proof. reflexivity. Qed.

Lemma append_nil_l x : "" +:+ x = x.
Proof. reflexivity. Qed.

Lemma append_nil_r s : s +:+ "" = s.
Proof.
  induction s as [|c s IH]; [done|]. rewrite append_cons. by f_equal.
Qed.

Lemma append_assoc a b c : a +:+ (b +:+ c) = (a +:+ b) +:+ c.
Proof.
  induction a as [|x a IH]; rewrite ?append_cons, ?append_nil_l; [done|].
  by f_equal.
Qed.

Lemma append_assoc3 a b c d :
  a +:+ b +:+ c +:+ d = (a +:+ b +:+ c) +:+ d.
Proof. by rewrite (append_assoc b c d), append_assoc. Qed.

Lemma length_substring n m s :
  String.length (String.substring n m s) =
  (m `min` (String.length s - n))%nat.
Proof.
  revert n m. induction s as [|c s IH]; intros [|n] [|m]; simpl; try done.
  all: by rewrite IH, ?Nat.sub_0_r.
Qed.

Lemma length_append a b :
  String.length (a +:+ b) = (String.length a + String.length b)%nat.
Proof. induction a as [|c a IH]; simpl; [done|]. by rewrite IH. Qed.

Lemma length_slice s a b :
  String.length (slice s a b) = ((b - a) `min` (String.length s - a))%nat.
Proof. apply length_substring. Qed.

Lemma substring_whole m s :
  (String.length s ≤ m)%nat → String.substring 0 m s = s.
Proof.
  revert m. induction s as [|c s IH]; intros [|m]; simpl; try done; [lia|].
  intros H. rewrite IH; [done|lia].
Qed.

Lemma substring_past n m s :
  (String.length s ≤ n)%nat → String.substring n m s = "".
Proof.
  revert n m. induction s as [|c s IH]; intros [|n] [|m]; simpl; try done;
    try lia; intros H; apply IH; lia.
Qed.

Lemma substring_nothing n s : String.substring n 0 s = "".
Proof.
  revert n. induction s as [|c s IH]; intros [|n]; simpl; try done.
Qed.

Lemma substring_split n a b s :
  String.substring n (a + b) s =
  String.substring n a s +:+ String.substring (n + a) b s.
Proof.
  revert n a. induction s as [|c s IH]; intros n a.
  - destruct n, a, b; reflexivity.
  - destruct n as [|n].
    + destruct a as [|a]; simpl; [done|]. by rewrite (IH 0%nat a).
    + simpl. apply IH.
Qed.

Lemma substring_substring a m b k s :
  (a + m ≤ k)%nat →
  String.substring a m (String.substring b k s) = String.substring (b + a) m s.
Proof.
  revert a m b k. induction s as [|c s IH]; intros a m b k Hk.
  - destruct b, k, a, m; reflexivity.
  - destruct b as [|b].
    + destruct k as [|k].
      * assert (a = 0%nat) as -> by lia. assert (m = 0%nat) as -> by lia.
        reflexivity.
      * cbn [String.substring Nat.add]. destruct a as [|a].
        -- destruct m as [|m]; [done|]. cbn [String.substring]. f_equal.
           apply (IH 0%nat m 0%nat k). lia.
        -- cbn [String.substring]. apply (IH a m 0%nat k). lia.
    + cbn [String.substring Nat.add]. by apply IH.
Qed.

Lemma slice_whole s b : (String.length s ≤ b)%nat → slice s 0 b = s.
Proof. unfold slice. rewrite Nat.sub_0_r. apply substring_whole. Qed.

Lemma join_empty_cons x l : join "" (x :: l) = x +:+ join "" l.
Proof.
  destruct l as [|y l]; [|done]. simpl. by rewrite append_nil_r.
Qed.

End StringFacts.

Section IdFacts.

Import Js VectorStore.

Lemma shortId_slice id n : shortId id n = slice id 0 n.
Proof.
  unfold shortId. destruct (Nat.ltb_spec n (String.length id)); [done|].
  by rewrite slice_whole.
Qed.

Lemma shortId_length id n :
  String.length (shortId id n) = (String.length id `min` n)%nat.
Proof. rewrite shortId_slice, length_slice. lia. Qed.

(** X5: [shortId] keeps an id that is short enough, cuts a longer one down
    to its first [maxLen] characters, and cutting twice changes nothing. *)
Theorem shortId_spec (id : string) (maxLen : nat) :
  String.length (shortId id maxLen) = (String.length id `min` maxLen)%nat ∧
  id = shortId id maxLen +:+ slice id maxLen (String.length id) ∧
  ((String.length id ≤ maxLen)%nat → shortId id maxLen = id) ∧
  shortId (shortId id maxLen) maxLen = shortId id maxLen.
Proof.
  split; [apply shortId_length|]. split; [|split].
  - rewrite shortId_slice. unfold slice. rewrite Nat.sub_0_r.
    destruct (Nat.le_gt_cases (String.length id) maxLen) as [Hle|Hgt].
    + by rewrite substring_whole, substring_past, append_nil_r.
    + pose proof (substring_split 0 maxLen (String.length id - maxLen) id)
        as Hsplit.
      rewrite Nat.add_0_l in Hsplit. rewrite <- Hsplit.
      replace (maxLen + (String.length id - maxLen))%nat
        with (String.length id) by lia.
      by rewrite substring_whole.
  - intros Hle. unfold shortId.
    by destruct (Nat.ltb_spec maxLen (String.length id)); [lia|].
  - unfold shortId at 1. rewrite shortId_length.
    by destruct (Nat.ltb_spec maxLen (String.length id `min` maxLen));
      [lia|].
Qed.

Lemma pretty_N_go_length (k : nat) : ∀ (x : N) (s : string),
  (x < 10 ^ N.of_nat k)%N →
  (String.length (pretty_N_go x s) ≤ String.length s + k)%nat.
Proof.
  induction k as [|k IH]; intros x s Hx.
  - assert (x = 0%N) as -> by (simpl in Hx; lia). rewrite pretty_N_go_0. lia.
  - destruct (decide (x = 0%N)) as [->|Hne].
    + rewrite pretty_N_go_0. lia.
    + rewrite pretty_N_go_step by lia.
      etrans; [apply IH|simpl; lia].
      apply N.Div0.div_lt_upper_bound.
      rewrite Nat2N.inj_succ, N.pow_succ_r' in Hx. lia.
Qed.

(** A number below [10 ^ k] prints with at most [k] digits. *)
Lemma pretty_nat_length (k n : nat) :
  (0 < k)%nat → (N.of_nat n < 10 ^ N.of_nat k)%N →
  (String.length (pretty n) ≤ k)%nat.
Proof.
  intros Hk Hn. unfold pretty, pretty_nat, pretty, pretty_N.
  case_decide; [simpl; lia|].
  etrans; [by apply (pretty_N_go_length k)|simpl; lia].
Qed.

Lemma isAscii_append a b : isAscii (a +:+ b) = isAscii a && isAscii b.
Proof.
  induction a as [|c a IH]; [done|].
  rewrite append_cons. cbn [isAscii]. by rewrite IH, andb_assoc.
Qed.

Lemma isAscii_substring n m s :
  isAscii s = true → isAscii (String.substring n m s) = true.
Proof.
  revert n m. induction s as [|c s IH]; intros [|n] [|m]; try done;
    cbn [isAscii String.substring]; rewrite andb_true_iff;
    intros [Hc Hs]; rewrite ?Hc; by apply IH.
Qed.

Lemma isAscii_shortId id n : isAscii id = true → isAscii (shortId id n) = true.
Proof. rewrite shortId_slice. apply isAscii_substring. Qed.

Lemma pretty_N_char_ascii d :
  (Ascii.nat_of_ascii (pretty_N_char d) <? 128)%nat = true.
Proof. unfold pretty_N_char. by repeat case_match. Qed.

Lemma pretty_N_go_ascii x : ∀ s,
  isAscii s = true → isAscii (pretty_N_go x s) = true.
Proof.
  induction (N.lt_wf_0 x) as [x _ IH]. intros s Hs.
  destruct (decide (x = 0%N)) as [->|Hne].
  - by rewrite pretty_N_go_0.
  - rewrite pretty_N_go_step by lia. apply IH.
    + apply N.div_lt; lia.
    + cbn [isAscii]. by rewrite pretty_N_char_ascii.
Qed.

Lemma pretty_nat_ascii (n : nat) : isAscii (pretty n) = true.
Proof.
  unfold pretty, pretty_nat, pretty, pretty_N. case_decide; [done|].
  by apply pretty_N_go_ascii.
Qed.

(** X6: for a session id, a file name and a fact id below U+0080, the
    record ids are below U+0080 as well, so that their length in bytes is
    their length in units; and it stays within the 64 bytes the index
    allows: for messages up to position [10 ^ 14], for document windows
    up to window [10 ^ 15], and for facts always. *)
Theorem record_ids_fit (sessionId filename role content factId : string)
    (chunks : list string) (messageIndex batchIdx idx : nat)
    (embedding : Embedding) :
  isAscii sessionId = true → isAscii filename = true →
  isAscii factId = true →
  let messageId :=
    v_id (messageVector sessionId messageIndex role content embedding) in
  let documentId :=
    v_id (documentVector sessionId filename chunks batchIdx idx embedding) in
  let factVectorId := "fact::" +:+ shortId factId 30 in
  (isAscii messageId = true ∧ isAscii documentId = true ∧
   isAscii factVectorId = true) ∧
  ((N.of_nat messageIndex < 10 ^ 14)%N →
   (String.length messageId ≤ 64)%nat) ∧
  ((N.of_nat (batchIdx + idx) < 10 ^ 15)%N →
   (String.length documentId ≤ 64)%nat) ∧
  (String.length factVectorId ≤ 36)%nat.
Proof.
  intros Hs Hf Hfact. cbv zeta. split; [|split; [|split]].
  - unfold messageVector, documentVector. cbn [v_id].
    rewrite !isAscii_append, !isAscii_shortId, !pretty_nat_ascii by done.
    done.
  - intros Hn. unfold messageVector. cbn [v_id].
    rewrite !length_append, shortId_length.
    pose proof (pretty_nat_length 14 messageIndex ltac:(lia) Hn).
    change (String.length "::") with 2%nat. lia.
  - intros Hn. unfold documentVector. cbn [v_id].
    rewrite !length_append, !shortId_length.
    pose proof (pretty_nat_length 15 (batchIdx + idx) ltac:(lia) Hn).
    change (String.length "::") with 2%nat.
    change (String.length "doc::") with 5%nat. lia.
  - rewrite length_append, shortId_length.
    change (String.length "fact::") with 6%nat. lia.
Qed.

End IdFacts.

Lemma record_ids_fit_witness :
  (String.length
     (v_id (VectorStore.messageVector "c1" 7 "user" "Hi" [])) ≤ 64)%nat.
Proof.
  pose proof (record_ids_fit "c1" "notes.txt" "user" "Hi" "fact-1" [] 7 0 0
                [] eq_refl eq_refl eq_refl) as H.
  cbv zeta in H. destruct H as (_ & Hm & _).
  apply Hm. vm_compute. reflexivity.
Defined.

(** ** Record ids *)

Section IdSeparation.

Import Js VectorStore.

Abbreviation colon :=
  (Ascii.Ascii false true false true true true false false).

(** No colon occurs in the string. *)
Abbreviation colonFree s := (∀ s1 s2 : string, s ≠ s1 +:+ ":" +:+ s2).

Lemma pretty_N_char_colon d : pretty_N_char d ≠ colon.
Proof. unfold pretty_N_char. repeat case_match; discriminate. Qed.

Lemma colonFree_cons c s :
  c ≠ colon → colonFree s → colonFree (String c s).
Proof.
  intros Hc Hs [|c1 s1] s2; rewrite ?append_cons, ?append_nil_l;
    intros [= H1 H2]; [done|].
  exact (Hs _ _ H2).
Qed.

Lemma pretty_N_go_colonFree x : ∀ s,
  colonFree s → colonFree (pretty_N_go x s).
Proof.
  induction (N.lt_wf_0 x) as [x _ IH]. intros s Hs.
  destruct (decide (x = 0%N)) as [->|Hne].
  - by rewrite pretty_N_go_0.
  - rewrite pretty_N_go_step by lia. apply IH.
    + apply N.div_lt; lia.
    + apply colonFree_cons; [apply pretty_N_char_colon|done].
Qed.

Lemma pretty_nat_colonFree (n : nat) : colonFree (pretty n).
Proof.
  unfold pretty, pretty_nat, pretty, pretty_N. case_decide.
  - intros [|c1 [|c2 s1]] s2; rewrite ?append_cons, ?append_nil_l;
      intros Heq; discriminate Heq.
  - apply pretty_N_go_colonFree. by intros [|c1 s1] s2.
Qed.

(** A string cut at its last "::" splits in one way only. *)
Lemma split_at_separator a b da db :
  colonFree da → colonFree db →
  a +:+ "::" +:+ da = b +:+ "::" +:+ db → a = b ∧ da = db.
Proof.
  intros Hda Hdb. revert b.
  induction a as [|c a IH]; intros [|c' b];
    rewrite ?append_cons, ?append_nil_l.
  - by intros [= ->].
  - intros [= <- H]. exfalso.
    destruct b as [|c'' b]; rewrite ?append_cons, ?append_nil_l in H.
    + injection H as ->. by apply (Hda "" db).
    + injection H as <- ->. by apply (Hda b (":" +:+ db)).
  - intros [= -> H]. exfalso.
    destruct a as [|c'' a]; rewrite ?append_cons, ?append_nil_l in H.
    + injection H as <-. by apply (Hdb "" da).
    + injection H as -> <-. by apply (Hdb a (":" +:+ da)).
  - intros [= <- H]. destruct (IH b H) as [-> ->]. done.
Qed.

(** X7: two message records get the same id exactly when they stand at the
    same position and their session ids agree on the first 48 characters,
    whatever follows them. *)
Theorem message_ids_collide_iff (s1 s2 r1 r2 c1 c2 : string) (i j : nat)
    (e1 e2 : Embedding) :
  v_id (messageVector s1 i r1 c1 e1) = v_id (messageVector s2 j r2 c2 e2) ↔
  slice s1 0 48 = slice s2 0 48 ∧ i = j.
Proof.
  unfold messageVector. cbn [v_id]. rewrite <- !shortId_slice. split.
  - intros H. apply split_at_separator in H as [H1 H2];
      try apply pretty_nat_colonFree.
    split; [done|]. by apply (inj pretty) in H2.
  - by intros [-> ->].
Qed.

(** X8: the window number can always be read off the id of a document
    record, and two document records get the same id exactly when their
    window numbers are equal and the shortened session id and file name,
    joined by the separator, read the same. *)
Theorem document_ids_collide_iff (s1 s2 f1 f2 : string)
    (ch1 ch2 : list string) (b1 b2 i1 i2 : nat) (e1 e2 : Embedding) :
  v_id (documentVector s1 f1 ch1 b1 i1 e1) =
  v_id (documentVector s2 f2 ch2 b2 i2 e2) ↔
  slice s1 0 20 +:+ "::" +:+ slice f1 0 20 =
  slice s2 0 20 +:+ "::" +:+ slice f2 0 20 ∧
  (b1 + i1 = b2 + i2)%nat.
Proof.
  unfold documentVector. cbn [v_id]. rewrite <- !shortId_slice. split.
  - intros H. apply string_app_inv_head in H.
    pose proof append_assoc3 as Hassoc.
    rewrite !Hassoc in H.
    apply split_at_separator in H as [H1 H2];
      try apply pretty_nat_colonFree.
    split; [done|]. by apply (inj pretty) in H2.
  - intros [H ->].
    pose proof append_assoc3 as Hassoc.
    f_equal. rewrite !Hassoc. by rewrite H.
Qed.

End IdSeparation.

(** ** The windows of a document *)

Section ChunkMore.

Import Js VectorStore.

Lemma substring_trunc n m s :
  String.substring n m s =
  String.substring n (m `min` (String.length s - n)) s.
Proof.
  revert n m. induction s as [|c s IH]; intros [|n] [|m]; try done.
  all: cbn [String.substring String.length Nat.sub Nat.min];
    first [ apply IH
          | f_equal; rewrite (IH 0%nat m); by rewrite Nat.sub_0_r ].
Qed.

(** Number of windows: one per started stride. *)
Lemma chunkOffsets_length fuel content i :
  (String.length content ≤ i + 1300 * fuel)%nat →
  length (chunkOffsets (S fuel) content i) =
  ((String.length content - i + 1299) `div` 1300)%nat.
Proof.
  revert i. induction fuel as [|fuel IH]; intros i Hfuel.
  - cbn [chunkOffsets].
    destruct (Nat.ltb_spec i (String.length content)); [lia|].
    replace (String.length content - i)%nat with 0%nat by lia. done.
  - cbn [chunkOffsets] in *.
    destruct (Nat.ltb_spec i (String.length content)) as [Hlt|Hge].
    + cbn [length]. change (CHUNK_SIZE - OVERLAP)%nat with 1300%nat in *.
      rewrite IH by lia.
      destruct (Nat.le_gt_cases (String.length content) (i + 1300)).
      * replace (String.length content - (i + 1300))%nat with 0%nat by lia.
        apply (Nat.div_unique _ _ 1 (String.length content - i - 1)); lia.
      * replace (String.length content - i + 1299)%nat
          with ((String.length content - (i + 1300) + 1299) + 1 * 1300)%nat
          by lia.
        rewrite Nat.div_add by lia. lia.
    + replace (String.length content - i)%nat with 0%nat by lia. done.
Qed.

Lemma chunkOffsets_fuel_mono fuel fuel' content i acc chunks :
  (fuel ≤ fuel')%nat →
  chunkLoop fuel content i acc = Some chunks →
  chunkOffsets fuel' content i = chunkOffsets fuel content i.
Proof.
  revert fuel' i acc. induction fuel as [|fuel IH]; intros fuel' i acc Hle;
    [done|].
  destruct fuel' as [|fuel']; [lia|]. cbn [chunkLoop chunkOffsets].
  destruct (i <? String.length content)%nat; [|done].
  intros H. f_equal. eapply IH; [|exact H]. lia.
Qed.

(** A finished loop has cut the windows at 0, 1300, 2600, ..., one per
    started stride of the content. *)
Lemma chunkLoop_windows content fuel chunks :
  chunkLoop fuel content 0 [] = Some chunks →
  chunks = (λ k, window content (1300 * k)) <$>
           seq 0 ((String.length content + 1299) `div` 1300).
Proof.
  intros Hrun.
  destruct (chunkLoop_enough_fuel (String.length content) content 0 [])
    as [chunks' Hrun']; [lia|].
  pose proof (chunkOffsets_fuel_mono fuel
                (fuel + S (String.length content))
                _ _ _ _ ltac:(lia) Hrun) as H1.
  pose proof (chunkOffsets_fuel_mono (S (String.length content))
                (fuel + S (String.length content))
                _ _ _ _ ltac:(lia) Hrun') as H2.
  apply chunkLoop_offsets in Hrun as ->. cbn [app].
  rewrite <- H1, H2, chunkOffsets_stride, chunkOffsets_length by lia.
  rewrite Nat.sub_0_r, <- list_fmap_compose. done.
Qed.

Lemma window_length content offset :
  String.length (window content offset) =
  (1500 `min` (String.length content - offset))%nat.
Proof.
  unfold window. rewrite length_slice. unfold CHUNK_SIZE. f_equal. lia.
Qed.

(** X9: the windows of a content: there are as many as strides of 1300
    characters start inside it; window [k] is the text from [1300 * k], up
    to 1500 characters long and never empty, and the text handed to the
    embedding model is the whole window. *)
Theorem chunk_windows_bounds (content : string) (fuel : nat)
    (chunks : list string) :
  chunkLoop fuel content 0 [] = Some chunks →
  length chunks = ((String.length content + 1299) `div` 1300)%nat ∧
  ∀ k c, chunks !! k = Some c →
    c = window content (1300 * k) ∧
    String.length c = (1500 `min` (String.length content - 1300 * k))%nat ∧
    (1 ≤ String.length c)%nat ∧
    slice c 0 2000 = c.
Proof.
  intros Hrun. apply chunkLoop_windows in Hrun as ->.
  split; [by rewrite length_fmap, length_seq|].
  intros k c. rewrite list_lookup_fmap.
  destruct (seq _ _ !! k) as [k'|] eqn:Hk; [|done].
  apply lookup_seq in Hk as [-> Hk]. cbn [fmap option_fmap option_map].
  intros [= <-]. cbn [Nat.add].
  assert (1300 * k < String.length content)%nat as Hin.
  { pose proof (Nat.Div0.mul_div_le (String.length content + 1299) 1300).
    lia. }
  rewrite window_length. split; [done|]. split; [done|]. split; [lia|].
  apply slice_whole. rewrite window_length. lia.
Qed.

Lemma chunkLoop_cover content fuel : ∀ i acc chunks,
  chunkLoop fuel content i acc = Some chunks →
  join "" ((λ o, String.substring o 1300 content) <$>
           chunkOffsets fuel content i) =
  String.substring i (String.length content - i) content.
Proof.
  induction fuel as [|fuel IH]; intros i acc chunks; [done|].
  cbn [chunkLoop chunkOffsets].
  destruct (Nat.ltb_spec i (String.length content)) as [Hlt|Hge].
  - intros Hrun. apply IH in Hrun.
    change (CHUNK_SIZE - OVERLAP)%nat with 1300%nat in *.
    cbn [fmap list_fmap]. rewrite join_empty_cons.
    change (list_fmap nat string ?f ?l) with (f <$> l). rewrite Hrun.
    destruct (Nat.le_gt_cases (String.length content) (i + 1300)).
    + replace (String.length content - (i + 1300))%nat with 0%nat by lia.
      rewrite substring_nothing, append_nil_r.
      rewrite substring_trunc. f_equal. lia.
    + rewrite <- substring_split. f_equal. lia.
  - intros _. by rewrite substring_past.
Qed.

(** X10: the windows cover the content: the first 1300 characters of each
    window, put end to end, give the content back; and two neighbouring
    windows overlap in the 200 characters that end the first and start
    the second. *)
Theorem chunk_windows_cover (content : string) (fuel : nat)
    (chunks : list string) :
  chunkLoop fuel content 0 [] = Some chunks →
  join "" ((λ c, slice c 0 1300) <$> chunks) = content ∧
  ∀ k c c', chunks !! k = Some c → chunks !! S k = Some c' →
    slice c 1300 1500 = slice c' 0 200.
Proof.
  intros Hrun. split.
  - pose proof (chunkLoop_cover _ _ _ _ _ Hrun) as Hcover.
    apply chunkLoop_offsets in Hrun as ->. cbn [app].
    rewrite <- list_fmap_compose.
    rewrite Nat.sub_0_r, substring_whole in Hcover by done.
    etrans; [|exact Hcover]. f_equal. apply list_fmap_ext.
    intros _ o _. cbn. unfold window, slice.
    rewrite substring_substring by (unfold CHUNK_SIZE; lia).
    f_equal; lia.
  - apply chunkLoop_windows in Hrun as ->. intros k c c'.
    rewrite !list_lookup_fmap.
    destruct (seq _ _ !! k) as [k1|] eqn:Hk; [|done].
    destruct (seq _ _ !! S k) as [k2|] eqn:Hk'; [|done].
    apply lookup_seq in Hk as [-> _]. apply lookup_seq in Hk' as [-> _].
    cbn [fmap option_fmap option_map]. intros [= <-] [= <-].
    unfold window, slice.
    rewrite !substring_substring by (unfold CHUNK_SIZE; lia).
    f_equal; lia.
Qed.

End ChunkMore.

(** ** The index after an upload *)

Section IndexFacts.

Import Js Services VectorStore.

Lemma putVectors_app vs1 vs2 (m : gmap string VectorizeVector) :
  putVectors (vs1 ++ vs2) m = putVectors vs2 (putVectors vs1 m).
Proof. apply foldl_app. Qed.

Lemma putVectors_lookup_notin vs (m : gmap string VectorizeVector) id :
  id ∉ v_id <$> vs → putVectors vs m !! id = m !! id.
Proof.
  revert m. induction vs as [|v vs IH]; intros m Hid; [done|].
  rewrite fmap_cons, not_elem_of_cons in Hid. destruct Hid as [Hne Hid].
  cbn [putVectors foldl]. unfold putVectors in IH. rewrite IH by done.
  by rewrite lookup_insert_ne.
Qed.

Lemma putVectors_lookup_in vs (m : gmap string VectorizeVector) k v :
  NoDup (v_id <$> vs) → vs !! k = Some v →
  putVectors vs m !! v_id v = Some v.
Proof.
  revert m k. induction vs as [|v' vs IH]; intros m k Hnd Hk; [done|].
  rewrite fmap_cons in Hnd. apply NoDup_cons in Hnd as [Hnotin Hnd].
  cbn [putVectors foldl]. destruct k as [|k].
  - injection Hk as ->.
    pose proof (putVectors_lookup_notin vs (<[v_id v:=v]> m) (v_id v) Hnotin)
      as H.
    unfold putVectors in H. rewrite H. by rewrite lookup_insert_eq.
  - by apply (IH _ k).
Qed.

Lemma namespaceSize_insert_fresh ns v (m : gmap string VectorizeVector) :
  m !! v_id v = None → v_namespace v = ns →
  namespaceSize ns (<[v_id v := v]> m) = S (namespaceSize ns m).
Proof.
  intros Hfresh Hns. unfold namespaceSize.
  rewrite map_filter_insert_True by done.
  rewrite map_size_insert_None; [done|].
  by rewrite map_lookup_filter, Hfresh.
Qed.

Lemma namespaceSize_insert_other ns v (m : gmap string VectorizeVector) :
  m !! v_id v = None → v_namespace v ≠ ns →
  namespaceSize ns (<[v_id v := v]> m) = namespaceSize ns m.
Proof.
  intros Hfresh Hns. unfold namespaceSize.
  rewrite map_filter_insert_False by done.
  by rewrite delete_id.
Qed.

(** Fresh records of one namespace make it grow by their number. *)
Lemma namespaceSize_putVectors_fresh ns vs (m : gmap string VectorizeVector) :
  NoDup (v_id <$> vs) →
  (∀ v, v ∈ vs → m !! v_id v = None ∧ v_namespace v = ns) →
  namespaceSize ns (putVectors vs m) = (namespaceSize ns m + length vs)%nat.
Proof.
  revert m. induction vs as [|v vs IH]; intros m Hnd Hvs;
    [cbn; lia|].
  rewrite fmap_cons in Hnd. apply NoDup_cons in Hnd as [Hnotin Hnd].
  cbn [putVectors foldl length]. unfold putVectors in IH. rewrite IH.
  - destruct (Hvs v) as [Hfresh Hns]; [left|].
    rewrite namespaceSize_insert_fresh by done. lia.
  - done.
  - intros v' Hv'. destruct (Hvs v') as [Hfresh Hns]; [by right|].
    split; [|done]. rewrite lookup_insert_ne; [done|].
    intros Heq. apply Hnotin. rewrite Heq. by apply list_elem_of_fmap_2.
Qed.

End IndexFacts.

Section StoreDocumentMore.

Import Js Services VectorStore.

Variable E : Env.

(** The record of window [b + i] as the batch starting at [b] builds it
    is the record of that window built from the whole list. *)
Lemma documentVector_global sid fn chunks b i e :
  (i < BATCH_SIZE)%nat →
  documentVector sid fn (sliceList chunks b (b + BATCH_SIZE)) b i e =
  documentVector sid fn chunks 0 (b + i) e.
Proof.
  intros Hi. unfold documentVector, sliceList. cbn [Nat.add].
  replace (b + BATCH_SIZE - b)%nat with BATCH_SIZE by lia.
  by rewrite lookup_take_lt, lookup_drop.
Qed.

Lemma batchLoop_fuel_mono fuel fuel' sid fn chunks b run :
  (fuel ≤ fuel')%nat →
  batchLoop E fuel sid fn chunks b = Some run →
  batchLoop E fuel' sid fn chunks b = Some run.
Proof.
  revert fuel' b run.
  induction fuel as [|fuel IH]; intros fuel' b run Hle; [done|].
  destruct fuel' as [|fuel']; [lia|]. cbn [batchLoop].
  destruct (b <? length chunks)%nat; [|done].
  destruct (batchLoop E fuel sid fn chunks (b + BATCH_SIZE))
    as [next|] eqn:Hnext; [|done].
  rewrite (IH fuel' _ next) by (done || lia). done.
Qed.

Lemma batchLoop_enough_fuel fuel sid fn chunks b :
  (length chunks ≤ b + 20 * fuel)%nat →
  ∃ run, batchLoop E (S fuel) sid fn chunks b = Some run.
Proof.
  revert b. induction fuel as [|fuel IH]; intros b Hfuel.
  - cbn [batchLoop].
    destruct (Nat.ltb_spec b (length chunks)); [lia|eauto].
  - cbn [batchLoop].
    destruct (Nat.ltb_spec b (length chunks)); [|eauto].
    destruct (IH (b + BATCH_SIZE)%nat) as [next Hnext];
      [unfold BATCH_SIZE; lia|].
    cbn [batchLoop] in Hnext. rewrite Hnext. eauto.
Qed.

(** What a run of the batch loop from window [b] on leaves behind: the
    records of a run of windows starting at [b], all of them when it
    returns, a whole number of batches when it throws. *)
Lemma batchLoop_run fuel sid fn chunks : ∀ b run w,
  batchLoop E fuel sid fn chunks b = Some run →
  ∃ es : list Embedding,
    vectors (run w).2 =
      putVectors (imap (λ k, documentVector sid fn chunks 0 (b + k)) es)
                 (vectors w) ∧
    rows (run w).2 = rows w ∧
    ((run w).1 = Val tt → length es = (length chunks - b)%nat) ∧
    (∀ e, (run w).1 = Exn e →
          (length es < length chunks - b)%nat ∧ (20 | length es)%nat) ∧
    ((∀ n texts, ai_embed_ok E n texts = true) →
     (∀ n vs, vz_insert_ok E n vs = true) → (run w).1 = Val tt).
Proof.
  induction fuel as [|fuel IH]; intros b run w; [done|].
  cbn [batchLoop].
  destruct (Nat.ltb_spec b (length chunks)) as [Hlt|Hge].
  2:{ intros [= <-]. exists []. cbn.
      repeat split; try done; lia. }
  destruct (batchLoop E fuel sid fn chunks (b + BATCH_SIZE))
    as [next|] eqn:Hnext; [|done].
  intros [= <-].
  set (batchChunks := sliceList chunks b (b + BATCH_SIZE)).
  assert (length batchChunks = (20 `min` (length chunks - b))%nat) as Hbl.
  { unfold batchChunks, sliceList. rewrite length_take, length_drop.
    unfold BATCH_SIZE. lia. }
  unfold embedTextBatch, ai_run_embedding, vectorize_insert, tick, log.
  unfold bind, get, modify, ret, throw. cbn [vectors rows trace].
  destruct (ai_embed_ok E _ _) eqn:Hembed.
  2:{ exists []. cbn. repeat split; try done.
      - lia.
      - apply Nat.divide_0_r.
      - intros Hok. by rewrite Hok in Hembed. }
  cbn [vectors rows trace].
  set (embs := ai_embedding E (length (trace w)) <$> _).
  assert (length embs = length batchChunks) as Hel.
  { unfold embs. by rewrite !length_fmap. }
  assert (imap (documentVector sid fn batchChunks b) embs =
          imap (λ k, documentVector sid fn chunks 0 (b + k)) embs) as Hvs.
  { apply imap_ext. intros i x Hi. apply documentVector_global.
    apply lookup_lt_Some in Hi. unfold BATCH_SIZE. lia. }
  rewrite Hvs.
  destruct (vz_insert_ok E _ _) eqn:Hinsert.
  2:{ exists []. cbn. repeat split; try done.
      - lia.
      - apply Nat.divide_0_r.
      - intros _ Hok. by rewrite Hok in Hinsert. }
  cbn [vectors rows trace].
  match goal with
  | |- context [next ?w1] =>
      destruct (IH (b + BATCH_SIZE)%nat next w1 Hnext)
        as (es' & Hv & Hr & Hval & Hexn & Hok)
  end.
  cbn [vectors rows] in Hv, Hr.
  exists (embs ++ es'). rewrite imap_app, putVectors_app.
  split; [|split; [done|split; [|split]]].
  - rewrite Hv. f_equal.
    destruct (decide (length embs = 20%nat)) as [H20|Hn20].
    + apply imap_ext. intros i x _. f_equal. unfold BATCH_SIZE. lia.
    + destruct (decide (es' = [])) as [->|Hne]; [done|].
      exfalso. destruct ((next _).1) as [[]|e] eqn:Hres.
      * specialize (Hval eq_refl). unfold BATCH_SIZE in Hval.
        destruct es'; [done|]. simpl in Hval. lia.
      * destruct (Hexn e eq_refl) as [Hl _]. unfold BATCH_SIZE in Hl. lia.
  - intros Hres. specialize (Hval Hres). unfold BATCH_SIZE in Hval.
    rewrite length_app. lia.
  - intros e Hres. destruct (Hexn e Hres) as [Hl Hd].
    unfold BATCH_SIZE in Hl. rewrite length_app.
    assert (length embs = 20%nat) as -> by lia.
    split; [lia|]. apply Nat.divide_add_r; [apply Nat.divide_refl|done].
  - done.
Qed.

Lemma windows_count_le content :
  ((String.length content + 1299) `div` 1300 ≤ String.length content)%nat.
Proof.
  destruct (decide (String.length content = 0%nat)) as [->|Hne]; [done|].
  apply Nat.Div0.div_le_upper_bound. lia.
Qed.

(** X11: [storeDocument] finishes on every content: both of its loops end,
    and any fuel above the content length gives the same run; an empty
    content makes no request at all. *)
Theorem storeDocument_finishes (sessionId filename content : string) :
  ∃ run,
    (∀ fuel, (String.length content < fuel)%nat →
       storeDocument E fuel sessionId filename content = Some run) ∧
    (content = "" → ∀ w, run w = (Val tt, w)).
Proof.
  destruct (chunkLoop_enough_fuel (String.length content) content 0 [])
    as [chunks Hchunks]; [lia|].
  pose proof (chunkLoop_windows _ _ _ Hchunks) as Hw.
  assert (length chunks ≤ String.length content)%nat as Hn.
  { rewrite Hw, length_fmap, length_seq. apply windows_count_le. }
  destruct (batchLoop_enough_fuel (String.length content) sessionId filename
              chunks 0) as [run Hrun]; [lia|].
  exists run. split.
  - intros fuel Hfuel. unfold storeDocument.
    rewrite (chunkLoop_fuel_mono _ fuel _ _ _ _ Hfuel Hchunks).
    by apply (batchLoop_fuel_mono (S (String.length content))); [lia|].
  - intros ->. cbn in Hchunks. injection Hchunks as <-.
    cbn in Hrun. by injection Hrun as <-.
Qed.

(** X12: whatever the services answer, [storeDocument] only adds records of
    its own windows, in window order, and never touches the rows: when it
    returns every window has its record, and when it throws the windows of
    the batches before the failing one, a multiple of 20, stay stored. *)
Theorem storeDocument_keeps_whole_batches (sessionId filename content : string)
    (fuel : nat) (run : Eff World unit) (w : World) :
  storeDocument E fuel sessionId filename content = Some run →
  ∃ chunks (es : list Embedding),
    chunkLoop fuel content 0 [] = Some chunks ∧
    vectors (run w).2 =
      putVectors (imap (documentVector sessionId filename chunks 0) es)
                 (vectors w) ∧
    rows (run w).2 = rows w ∧
    ((run w).1 = Val tt → length es = length chunks) ∧
    (∀ e, (run w).1 = Exn e →
          (length es < length chunks)%nat ∧ (20 | length es)%nat).
Proof.
  unfold storeDocument.
  destruct (chunkLoop fuel content 0 []) as [chunks|] eqn:Hchunks; [|done].
  intros Hrun.
  destruct (batchLoop_run _ _ _ _ _ _ w Hrun) as (es & Hv & Hr & Hval & Hexn & _).
  exists chunks, es. rewrite Nat.sub_0_r in Hval, Hexn.
  split; [done|]. split; [exact Hv|]. split; [done|]. split; [done|].
  exact Hexn.
Qed.

(** X13: when every embedding and insert request succeeds and the ids are
    not taken yet, [storeDocument] returns, the namespace of the session
    grows by one record per window, and window [k] is found under the id
    numbered [k], with the namespace of the session, the role "document"
    and the window text under the file-name header. *)
Theorem storeDocument_stores_every_window
    (sessionId filename content : string) (fuel : nat)
    (run : Eff World unit) (w : World) :
  let docId := λ k : nat,
    "doc::" +:+ shortId sessionId 20 +:+ "::" +:+ shortId filename 20 +:+
    "::" +:+ pretty k in
  storeDocument E fuel sessionId filename content = Some run →
  (∀ n texts, ai_embed_ok E n texts = true) →
  (∀ n vs, vz_insert_ok E n vs = true) →
  (∀ k, vectors w !! docId k = None) →
  (run w).1 = Val tt ∧
  namespaceSize sessionId (vectors (run w).2) =
    (namespaceSize sessionId (vectors w) +
     (String.length content + 1299) `div` 1300)%nat ∧
  ∀ k, (1300 * k < String.length content)%nat →
    ∃ v, vectors (run w).2 !! docId k = Some v ∧
         v_namespace v = sessionId ∧
         v_metadata v =
           mkMetadata "document"
             (slice ("[Document: " +:+ filename +:+ "]" +:+ nl +:+ nl +:+
                     window content (1300 * k)) 0 8000).
Proof.
  intros docId. unfold storeDocument.
  destruct (chunkLoop fuel content 0 []) as [chunks|] eqn:Hchunks; [|done].
  intros Hrun Hembed Hinsert Hfresh.
  destruct (batchLoop_run _ _ _ _ _ _ w Hrun)
    as (es & Hv & _ & Hval & _ & Hok).
  specialize (Hok Hembed Hinsert). specialize (Hval Hok).
  rewrite Nat.sub_0_r in Hval.
  pose proof (chunkLoop_windows _ _ _ Hchunks) as Hw.
  assert (length chunks = ((String.length content + 1299) `div` 1300)%nat)
    as Hn by (by rewrite Hw, length_fmap, length_seq).
  split; [done|]. rewrite Hv. split.
  - rewrite namespaceSize_putVectors_fresh.
    + by rewrite length_imap, Hval, Hn.
    + apply documentVector_ids_NoDup.
    + intros v Hin. apply list_elem_of_lookup in Hin as [k Hk].
      rewrite list_lookup_imap in Hk.
      destruct (es !! k) as [e|]; [|done]. injection Hk as <-.
      split; [apply Hfresh|done].
  - intros k Hk.
    assert (k < length chunks)%nat as Hlt.
    { rewrite Hn. apply Nat.div_le_lower_bound; lia. }
    destruct (lookup_lt_is_Some_2 es k) as [e He]; [lia|].
    exists (documentVector sessionId filename chunks 0 k e).
    split; [|split; [done|]].
    + change (docId k)
        with (v_id (documentVector sessionId filename chunks 0 k e)).
      apply (putVectors_lookup_in
               (imap (documentVector sessionId filename chunks 0) es) _ k);
        [apply documentVector_ids_NoDup|].
      by rewrite list_lookup_imap, He.
    + unfold documentVector. cbn [v_metadata Nat.add]. do 3 f_equal.
      rewrite Hw, list_lookup_fmap, lookup_seq_lt by lia. done.
Qed.

End StoreDocumentMore.

Lemma chunk_windows_bounds_witness :
  ∃ chunks,
    VectorStore.chunkLoop 2 "hello" 0 [] = Some chunks ∧
    ∀ k c, chunks !! k = Some c → Js.slice c 0 2000 = c.
Proof.
  exists [Js.slice "hello" 0 1500]. split; [reflexivity|].
  intros k c Hc.
  destruct (chunk_windows_bounds "hello" 2 [Js.slice "hello" 0 1500]
              eq_refl) as [_ Hall].
  by destruct (Hall k c Hc) as (_ & _ & _ & Hslice).
Defined.

Lemma chunk_windows_cover_witness :
  Js.join "" ((λ c, Js.slice c 0 1300) <$> [Js.slice "hello" 0 1500])
  = "hello".
Proof.
  apply (chunk_windows_cover "hello" 2 [Js.slice "hello" 0 1500] eq_refl).
Defined.

Lemma storeDocument_keeps_whole_batches_witness :
  ∃ run,
    VectorStore.storeDocument Samples.failEnv 2 "c1" "notes.txt" "hello"
      = Some run ∧
    rows (run ChatSession.emptyWorld).2 = [].
Proof.
  destruct (VectorStore.storeDocument Samples.failEnv 2 "c1" "notes.txt"
              "hello") as [run|] eqn:Hrun; [|discriminate Hrun].
  exists run. split; [reflexivity|].
  destruct (storeDocument_keeps_whole_batches Samples.failEnv "c1"
              "notes.txt" "hello" 2 run ChatSession.emptyWorld Hrun)
    as (chunks & es & _ & _ & Hrows & _).
  exact Hrows.
Defined.

Lemma storeDocument_stores_every_window_witness :
  ∃ run,
    VectorStore.storeDocument (Samples.okEnv (AiReturns None)) 2 "c1"
      "notes.txt" "hello" = Some run ∧
    (run ChatSession.emptyWorld).1 = Val tt.
Proof.
  destruct (VectorStore.storeDocument (Samples.okEnv (AiReturns None)) 2
              "c1" "notes.txt" "hello") as [run|] eqn:Hrun;
    [|discriminate Hrun].
  exists run. split; [reflexivity|].
  apply (storeDocument_stores_every_window (Samples.okEnv (AiReturns None))
           "c1" "notes.txt" "hello" 2 run ChatSession.emptyWorld Hrun).
  - intros n texts. reflexivity.
  - intros n vs. reflexivity.
  - intros k. reflexivity.
Defined.

(** ** Message records, recall and clearing *)

Section MessageStoreMore.

Import Js Services VectorStore.

Variable E : Env.

(** X14: [storeMessage] touches one id only and never the rows; when it
    throws the index is as before; when it returns and the id was free,
    the record of the message is found under that id, in the namespace of
    the session, with the role and the first 8000 characters of the
    content, embedded from the first 2000, and the namespace has grown by
    one. *)
Theorem storeMessage_round_trip (sessionId role content : string)
    (messageIndex : nat) (w : World) :
  let id := shortId sessionId 48 +:+ "::" +:+ pretty messageIndex in
  let res := storeMessage E sessionId messageIndex role content w in
  rows res.2 = rows w ∧
  (∀ id', id' ≠ id → vectors res.2 !! id' = vectors w !! id') ∧
  (∀ e, res.1 = Exn e → vectors res.2 = vectors w) ∧
  (res.1 = Val tt → vectors w !! id = None →
   vectors res.2 !! id =
     Some (mkVector id
             (ai_embedding E (length (trace w)) (slice content 0 2000))
             sessionId (mkMetadata role (slice content 0 8000))) ∧
   namespaceSize sessionId (vectors res.2) =
     S (namespaceSize sessionId (vectors w))).
Proof.
  cbv zeta. rewrite storeMessage_run. cbv zeta.
  set (v := messageVector sessionId messageIndex role content _).
  destruct (ai_embed_ok E _ _); [|by repeat split].
  destruct (vz_insert_ok E _ _); [|by repeat split].
  cbn [fst snd vectors rows]. split; [done|]. split; [|split; [done|]].
  - intros id' Hne. by rewrite lookup_insert_ne.
  - intros _ Hfresh. split; [by rewrite lookup_insert_eq|].
    by apply namespaceSize_insert_fresh.
Qed.

(** X15: once a message is stored at a position of a session, storing at
    the same position again, whatever the text and whatever the services
    do, leaves the number of records unchanged. *)
Theorem storeMessage_same_position (E' : Env)
    (sessionId r1 c1 r2 c2 : string) (messageIndex : nat) (w : World) :
  (storeMessage E sessionId messageIndex r1 c1 w).1 = Val tt →
  let w1 := (storeMessage E sessionId messageIndex r1 c1 w).2 in
  let w2 := (storeMessage E' sessionId messageIndex r2 c2 w1).2 in
  size (vectors w2) = size (vectors w1) ∧
  namespaceSize sessionId (vectors w2) = namespaceSize sessionId (vectors w1).
Proof.
  cbv zeta. rewrite !storeMessage_world. rewrite storeMessage_run.
  cbv zeta.
  destruct (ai_embed_ok E _ _); [|done].
  destruct (vz_insert_ok E _ _); [|done].
  intros _. cbn [fst snd vectors rows trace andb].
  set (m1 := <[_ := _]> (vectors w)).
  destruct (_ && _); [|done].
  set (v2 := messageVector sessionId messageIndex r2 c2 _).
  assert (is_Some (m1 !! v_id v2)) as [v1 Hv1].
  { unfold m1. change (v_id v2) with
      (v_id (messageVector sessionId messageIndex r1 c1
               (ai_embedding E (length (trace w)) (slice c1 0 2000)))).
    rewrite lookup_insert_eq. by eexists. }
  assert (v_namespace v1 = sessionId) as Hns1.
  { unfold m1 in Hv1. change (v_id v2) with
      (v_id (messageVector sessionId messageIndex r1 c1
               (ai_embedding E (length (trace w)) (slice c1 0 2000))))
      in Hv1.
    rewrite lookup_insert_eq in Hv1. by injection Hv1 as <-. }
  split.
  - by rewrite map_size_insert_Some.
  - unfold namespaceSize. rewrite map_filter_insert_True by done.
    rewrite map_size_insert_Some; [done|].
    exists v1. by apply map_lookup_filter_Some.
Qed.

End MessageStoreMore.

Section QueryMore.

Import Js Services VectorStore.

Variable E : Env.

Lemma truthy_nonempty s : truthy s = true → s ≠ "".
Proof. by destruct s. Qed.

Lemma hasContent_metadata m :
  hasContent m = true →
  ∃ md, m_metadata m = Some md ∧ md_content md ≠ "".
Proof.
  unfold hasContent. destruct (m_metadata m) as [md|]; [|done].
  intros H. exists md. split; [done|]. by apply truthy_nonempty.
Qed.

Lemma length_matches_kept (ranked : list VectorizeMatch) k :
  (length (filter (λ m, hasContent m = true) (take k ranked)) ≤ k)%nat.
Proof.
  etrans; [apply length_filter|]. rewrite length_take. lia.
Qed.

(** X16: the two recall queries only read: they change neither the index
    nor the rows.  What they return is at most [topK] entries, each with a
    non-empty content, and for messages a non-empty role. *)
Theorem recall_results_bounded (sessionId queryText : string) (topK : nat)
    (w : World) :
  let res := queryRelevantMessages E sessionId queryText topK w in
  let resF := queryRelevantFacts E queryText topK w in
  (vectors res.2 = vectors w ∧ rows res.2 = rows w ∧
   ∀ rs, res.1 = Val rs →
     (length rs ≤ topK)%nat ∧
     ∀ r, r ∈ rs → r_content r ≠ "" ∧ r_role r ≠ "") ∧
  (vectors resF.2 = vectors w ∧ rows resF.2 = rows w ∧
   ∀ fs, resF.1 = Val fs →
     (length fs ≤ topK)%nat ∧ ∀ f, f ∈ fs → f_content f ≠ "").
Proof.
  cbv zeta. split.
  - rewrite queryRelevantMessages_world. cbv zeta. cbn [vectors rows].
    split; [done|]. split; [done|].
    unfold queryRelevantMessages, embedText, ai_run_embedding,
      vectorize_query, tick, log.
    unfold bind, get, modify, ret, throw. cbn [vectors rows trace].
    destruct (ai_embed_ok E _ _); [|intros rs Hrs; discriminate Hrs].
    cbn [vectors rows trace].
    cbn [fmap list_fmap lookup list_lookup default].
    destruct (vz_rank E _ _ _ _) as [ranked|];
      [|intros rs Hrs; discriminate Hrs].
    intros rs [= <-]. rewrite length_fmap.
    split; [apply length_matches_kept|].
    intros r Hr. apply list_elem_of_fmap in Hr as (m & -> & Hm).
    apply list_elem_of_filter in Hm as [Hm _].
    apply hasContent_metadata in Hm as (md & -> & Hc).
    cbn [default r_content r_role]. split; [done|].
    cbv [id]. destruct (truthy (md_role md)) eqn:Hrole; [|discriminate].
    by apply truthy_nonempty.
  - rewrite queryRelevantFacts_world. cbv zeta. cbn [vectors rows].
    split; [done|]. split; [done|].
    unfold queryRelevantFacts, embedText, ai_run_embedding,
      vectorize_query, tick, log.
    unfold bind, get, modify, ret, throw. cbn [vectors rows trace].
    destruct (ai_embed_ok E _ _); [|intros fs Hfs; discriminate Hfs].
    cbn [vectors rows trace].
    cbn [fmap list_fmap lookup list_lookup default].
    destruct (vz_rank E _ _ _ _) as [ranked|];
      [|intros fs Hfs; discriminate Hfs].
    intros fs [= <-]. rewrite length_fmap.
    split; [apply length_matches_kept|].
    intros f Hf. apply list_elem_of_fmap in Hf as (m & -> & Hm).
    apply list_elem_of_filter in Hm as [Hm _].
    by apply hasContent_metadata in Hm as (md & -> & Hc).
Qed.

(** X17: [listFacts] never throws: a failed query gives the empty list.  It
    reads the index with one query of the facts namespace, and lists at
    most 50 facts, each with a non-empty content. *)
Theorem listFacts_never_throws (w : World) :
  ∃ fs,
    listFacts E w =
      (Val fs, mkWorld (vectors w) (rows w)
                 (trace w ++ [EvQuery dummyVector 50 FACTS_NAMESPACE])) ∧
    (length fs ≤ 50)%nat ∧
    (∀ f, f ∈ fs → fe_content f ≠ "") ∧
    (vz_rank E (length (trace w)) dummyVector FACTS_NAMESPACE (vectors w)
       = None → fs = []).
Proof.
  unfold listFacts, vectorize_query, tick, log.
  unfold tryCatch, bind, get, modify, ret, throw. cbn [vectors rows trace].
  destruct (vz_rank E _ _ _ _) as [ranked|].
  - eexists. split; [reflexivity|]. rewrite length_fmap.
    split; [apply length_matches_kept|]. split; [|done].
    intros f Hf. apply list_elem_of_fmap in Hf as (m & -> & Hm).
    apply list_elem_of_filter in Hm as [Hm _].
    by apply hasContent_metadata in Hm as (md & -> & Hc).
  - exists []. split; [reflexivity|]. split; [simpl; lia|].
    split; [|done]. intros f Hf. by apply elem_of_nil in Hf.
Qed.

End QueryMore.

Section ClearMore.

Import Js Services VectorStore.

Variable E : Env.

Lemma dropVectors_lookup ids (m : gmap string VectorizeVector) id :
  dropVectors ids m !! id =
  if decide (id ∈ ids) then None else m !! id.
Proof.
  induction ids as [|i ids IH]; cbn [dropVectors foldr].
  - by rewrite decide_False by apply not_elem_of_nil.
  - unfold dropVectors in IH.
    destruct (decide (id = i)) as [->|Hne].
    + rewrite lookup_delete_eq. by rewrite decide_True by left.
    + rewrite lookup_delete_ne, IH by done.
      destruct (decide (id ∈ ids)) as [Hin|Hnin].
      * by rewrite decide_True by (by right).
      * rewrite decide_False; [done|].
        rewrite elem_of_cons. by intros [?|?].
Qed.

Lemma dropVectors_subseteq ids (m : gmap string VectorizeVector) :
  dropVectors ids m ⊆ m.
Proof.
  apply map_subseteq_spec. intros id v. rewrite dropVectors_lookup.
  by destruct (decide _).
Qed.

Lemma clearSessionVectors_run sessionId w :
  clearSessionVectors E sessionId w =
  let n := length (trace w) in
  let w1 := mkWorld (vectors w) (rows w)
              (trace w ++ [EvQuery dummyVector 100 sessionId]) in
  match vz_rank E n dummyVector sessionId (vectors w) with
  | None => (Val tt, w1)
  | Some ranked =>
      let ids := m_id <$> take 100 ranked in
      if (0 <? length (take 100 ranked))%nat
      then
        (Val tt,
         mkWorld (if vz_delete_ok E (S n) ids
                  then dropVectors ids (vectors w) else vectors w)
                 (rows w)
                 (trace w ++ [EvQuery dummyVector 100 sessionId;
                              EvDeleteByIds ids]))
      else (Val tt, w1)
  end.
Proof.
  unfold clearSessionVectors, vectorize_query, vectorize_deleteByIds,
    tick, log.
  unfold tryCatch, bind, get, modify, ret, throw.
  cbn [vectors rows trace].
  destruct (vz_rank E _ dummyVector sessionId (vectors w)) as [ranked|];
    [|done].
  cbv zeta. rewrite length_fmap, <- list_fmap_compose.
  change (m_id ∘ stripMetadata) with m_id.
  destruct (0 <? length (take 100 ranked))%nat; [|done].
  cbn [vectors rows trace]. rewrite length_app, Nat.add_1_r.
  destruct (vz_delete_ok E _ _); cbn [vectors rows trace];
    by rewrite <- app_assoc.
Qed.

Lemma clearSessionVectors_only_removes sessionId w :
  (clearSessionVectors E sessionId w).1 = Val tt ∧
  rows (clearSessionVectors E sessionId w).2 = rows w ∧
  vectors (clearSessionVectors E sessionId w).2 ⊆ vectors w.
Proof.
  rewrite clearSessionVectors_run. cbv zeta.
  destruct (vz_rank E _ _ _ _) as [ranked|]; [|done].
  destruct (0 <? length (take 100 ranked))%nat; [|done].
  cbn [fst snd vectors rows]. split; [done|]. split; [done|].
  destruct (vz_delete_ok E _ _); [apply dropVectors_subseteq|done].
Qed.

(** X18: [clearSessionVectors] never throws, never touches the rows and
    only removes records: every record of the index afterwards was there
    before.  With no match it sends no delete request, and when the query
    or the delete request fails the index is as before. *)
Theorem clearSessionVectors_safe (sessionId : string) (w : World) :
  let res := clearSessionVectors E sessionId w in
  let n := length (trace w) in
  res.1 = Val tt ∧ rows res.2 = rows w ∧ vectors res.2 ⊆ vectors w ∧
  (vz_rank E n dummyVector sessionId (vectors w) = Some [] →
   res.2 = mkWorld (vectors w) (rows w)
             (trace w ++ [EvQuery dummyVector 100 sessionId])) ∧
  (vz_rank E n dummyVector sessionId (vectors w) = None →
   vectors res.2 = vectors w) ∧
  ((∀ ids, vz_delete_ok E (S n) ids = false) → vectors res.2 = vectors w).
Proof.
  cbv zeta.
  destruct (clearSessionVectors_only_removes sessionId w)
    as (Hval & Hrows & Hsub).
  split; [done|]. split; [done|]. split; [done|].
  rewrite clearSessionVectors_run. cbv zeta.
  destruct (vz_rank E _ _ _ _) as [ranked|]; [|done].
  destruct (0 <? length (take 100 ranked))%nat eqn:Hlen; [|done].
  split; [|split; [done|]].
  - intros [= ->]. discriminate Hlen.
  - intros Hfail. by rewrite Hfail.
Qed.

(** X19: a namespace of at most 100 records is emptied by one call, when
    the query lists all its records and the delete request succeeds;
    records the query does not list stay as they are. *)
Theorem clearSessionVectors_empties_small_namespace (sessionId : string)
    (w : World) (ranked : list VectorizeMatch) :
  vz_rank E (length (trace w)) dummyVector sessionId (vectors w)
    = Some ranked →
  (length ranked ≤ 100)%nat →
  (∀ id v, vectors w !! id = Some v → v_namespace v = sessionId →
           id ∈ m_id <$> ranked) →
  (∀ ids, vz_delete_ok E (S (length (trace w))) ids = true) →
  let after := vectors (clearSessionVectors E sessionId w).2 in
  namespaceSize sessionId after = 0%nat ∧
  ∀ id, id ∉ m_id <$> ranked → after !! id = vectors w !! id.
Proof.
  intros Hrank Hlen Hall Hdel. cbv zeta.
  rewrite clearSessionVectors_run. cbv zeta. rewrite Hrank, Hdel.
  rewrite take_ge by done.
  assert (∀ m : gmap string VectorizeVector,
            (∀ id v, m !! id = Some v → v_namespace v ≠ sessionId) →
            namespaceSize sessionId m = 0%nat) as Hzero.
  { intros m Hm. unfold namespaceSize. apply map_size_empty_iff.
    apply map_empty. intros id. apply map_lookup_filter_None.
    right. intros v Hv. by apply (Hm id). }
  destruct (0 <? length ranked)%nat eqn:Hne; cbn [snd vectors].
  - split.
    + apply Hzero. intros id v. rewrite dropVectors_lookup.
      destruct (decide _) as [|Hnin]; [done|].
      intros Hv Hns. apply Hnin. by apply (Hall id v).
    + intros id Hnin. rewrite dropVectors_lookup.
      by rewrite decide_False.
  - split; [|done]. apply Hzero. intros id v Hv Hns.
    destruct ranked; [|done].
    specialize (Hall id v Hv Hns). by apply elem_of_nil in Hall.
Qed.

End ClearMore.

Section FactsMore.

Import Js Services VectorStore.

Lemma deleteFact_run (E : Env) id w :
  deleteFact E id w =
  let n := length (trace w) in
  if vz_delete_ok E n [id]
  then (Val tt, mkWorld (delete id (vectors w)) (rows w)
                  (trace w ++ [EvDeleteByIds [id]]))
  else (Exn "VECTOR_DELETE_ERROR",
        mkWorld (vectors w) (rows w) (trace w ++ [EvDeleteByIds [id]])).
Proof.
  unfold deleteFact, vectorize_deleteByIds, tick, log.
  unfold bind, get, modify, ret, throw. cbn [vectors rows trace].
  by destruct (vz_delete_ok E _ _).
Qed.

Lemma storeFact_run (E : Env) factId content w :
  storeFact E factId content w =
  let n := length (trace w) in
  let text := slice content 0 2000 in
  let v := mkVector ("fact::" +:+ shortId factId 30)
             (ai_embedding E n text) FACTS_NAMESPACE
             (mkMetadata "fact" (slice content 0 8000)) in
  if ai_embed_ok E n [text]
  then
    if vz_insert_ok E (S n) [v]
    then (Val tt,
          mkWorld (<[v_id v := v]> (vectors w)) (rows w)
                  (trace w ++ [EvEmbed [text]; EvInsert [v]]))
    else (Exn "VECTOR_INSERT_ERROR",
          mkWorld (vectors w) (rows w)
                  (trace w ++ [EvEmbed [text]; EvInsert [v]]))
  else (Exn "AI_ERROR",
        mkWorld (vectors w) (rows w) (trace w ++ [EvEmbed [text]])).
Proof.
  unfold storeFact, embedText, ai_run_embedding, vectorize_insert,
    tick, log.
  unfold bind, get, modify, ret, throw. cbn [vectors rows trace].
  destruct (ai_embed_ok E _ _); [|done]. cbn [vectors rows trace].
  cbn [fmap list_fmap lookup list_lookup default].
  rewrite length_app, Nat.add_1_r.
  destruct (vz_insert_ok E _ _); cbn [vectors rows trace];
    by rewrite <- app_assoc.
Qed.

(** X20: [deleteFact] deletes whatever record carries the id, of whichever
    namespace: when the request succeeds the record is gone and its
    namespace has one record less; every other record stays; when the
    request fails the call throws and the index is as before. *)
Theorem deleteFact_any_record (E : Env) (factVectorId : string)
    (w : World) :
  let res := deleteFact E factVectorId w in
  rows res.2 = rows w ∧
  (∀ id, id ≠ factVectorId → vectors res.2 !! id = vectors w !! id) ∧
  (∀ e, res.1 = Exn e → vectors res.2 = vectors w) ∧
  (res.1 = Val tt →
   vectors res.2 !! factVectorId = None ∧
   ∀ v, vectors w !! factVectorId = Some v →
        S (namespaceSize (v_namespace v) (vectors res.2)) =
        namespaceSize (v_namespace v) (vectors w)).
Proof.
  cbv zeta. rewrite deleteFact_run. cbv zeta.
  destruct (vz_delete_ok E _ _); cbn [fst snd vectors rows];
    [|by repeat split].
  split; [done|]. split; [|split; [done|]].
  - intros id Hne. by rewrite lookup_delete_ne.
  - intros _. split; [by rewrite lookup_delete_eq|].
    intros v Hv. unfold namespaceSize.
    rewrite map_filter_delete, map_size_delete.
    rewrite (map_lookup_filter_Some_2 _ _ _ v) by done.
    pose proof (map_size_ne_0_lookup_2
                  (filter (λ kv, v_namespace kv.2 = v_namespace v)
                          (vectors w)) factVectorId) as Hpos.
    rewrite (map_lookup_filter_Some_2 _ _ _ v) in Hpos by done.
    specialize (Hpos ltac:(by eexists)). lia.
Qed.

(** X21: a fact stored under a free id is found under "fact::" followed by
    the first 30 characters of the fact id, in the facts namespace, with
    the role "fact"; deleting it by that id gives the index back as it
    was. *)
Theorem storeFact_deleteFact_round_trip (E E' : Env)
    (factId content : string) (w : World) :
  let id := "fact::" +:+ shortId factId 30 in
  vectors w !! id = None →
  (storeFact E factId content w).1 = Val tt →
  let w1 := (storeFact E factId content w).2 in
  (∃ v, vectors w1 !! id = Some v ∧ v_namespace v = FACTS_NAMESPACE ∧
        v_metadata v = mkMetadata "fact" (slice content 0 8000)) ∧
  namespaceSize FACTS_NAMESPACE (vectors w1) =
    S (namespaceSize FACTS_NAMESPACE (vectors w)) ∧
  ((deleteFact E' id w1).1 = Val tt →
   vectors (deleteFact E' id w1).2 = vectors w).
Proof.
  cbv zeta. intros Hfresh. rewrite deleteFact_run, storeFact_run.
  cbv zeta.
  destruct (ai_embed_ok E _ _); [|done].
  destruct (vz_insert_ok E _ _); [|done].
  intros _. cbn [fst snd vectors rows trace v_id]. split; [|split].
  - eexists. rewrite lookup_insert_eq. by split.
  - by apply (namespaceSize_insert_fresh _ (mkVector _ _ _ _)).
  - destruct (vz_delete_ok E' _ _); [|done]. intros _.
    cbn [snd vectors]. by rewrite delete_insert_id.
Qed.

End FactsMore.

(** ** Turns and the clear route *)

Section TurnMore.

Import Js Services VectorStore Tokenizer ChatSession.

Variable encode : string → list nat.
Variable E : Env.


Lemma option_list_system (m : option Message) :
  (∀ x, m = Some x → role x = system) →
  Forall (λ x, role x = system) (option_list m).
Proof.
  destruct m as [x|]; cbn; [|constructor].
  intros H. constructor; [by apply H|constructor].
Qed.

(** X22: the message just submitted is the last message of the prompt
    whenever its own token count is within what is left for the history;
    when it is not, the prompt holds no conversation message at all, only
    system messages.  The history part of the prompt is always a trailing
    part of the session's messages. *)
Theorem prompt_carries_submitted_message (sid msg : string)
    (self : ChatSession) (w : World) :
  ∃ p st',
    buildPrompt encode E sid msg (self, w) = (Val p, st') ∧
    trimmed p `suffix_of` messages st'.1 ∧
    messages st'.1 = messages self ++ [mkMessage user msg] ∧
    (countMessageTokens encode (mkMessage user msg) ≤ availableForHistory p →
     last (finalMessages p) = Some (mkMessage user msg)) ∧
    (availableForHistory p < countMessageTokens encode (mkMessage user msg) →
     trimmed p = [] ∧ Forall (λ m, role m = system) (finalMessages p)).
Proof.
  rewrite buildPrompt_run. cbv zeta. eexists _, _.
  split; [reflexivity|]. cbn [fst snd].
  set (history := messages self ++ [mkMessage user msg]).
  set (p := assemble _ _ _ _ history).
  assert (last history = Some (mkMessage user msg)) as Hlast
    by apply last_snoc.
  destruct (trim_newest_cases encode history (mkMessage user msg)
              (availableForHistory p) Hlast) as [Hfit Hover].
  split; [apply suffix_drop|]. split; [done|]. split.
  - intros Hle. specialize (Hfit Hle).
    unfold p, assemble. cbn [finalMessages availableForHistory] in *.
    rewrite !last_app. fold p in Hfit. cbn [availableForHistory] in Hfit.
    unfold p, assemble in Hfit. cbn [availableForHistory] in Hfit.
    by rewrite Hfit.
  - intros Hlt. specialize (Hover Hlt).
    unfold p, assemble in Hover |- *.
    cbn [finalMessages availableForHistory trimmed] in *.
    split; [exact Hover|]. rewrite Hover, app_nil_r.
    constructor; [done|]. apply Forall_app.
    split; apply option_list_system; intros x Hx;
      (match type of Hx with
       | (if ?b then _ else _) = _ => destruct b
       end; [by injection Hx as <-|discriminate Hx]).
Qed.


(** X24: the session never stores a system message: if it holds none, it
    holds none after a turn, so the system messages of a prompt are the
    leading ones the turn builds itself, three at most. *)
Theorem session_holds_no_system_message (sid msg : string)
    (self : ChatSession) (w : World) :
  Forall (λ m, role m ≠ system) (messages self) →
  Forall (λ m, role m ≠ system)
         (messages (chat encode E sid msg (self, w)).2.1) ∧
  ∃ p st',
    buildPrompt encode E sid msg (self, w) = (Val p, st') ∧
    (length (filter (λ m, role m = system) (finalMessages p)) ≤ 3)%nat.
Proof.
  intros Hinv. split.
  - destruct (buildPrompt_total encode E sid msg self w) as [p Hp].
    rewrite chat_run, Hp, respond_run. cbv zeta.
    destruct (ai_chat E _ (finalMessages p)) as [e|r];
      cbn [fst snd pushMessage messages];
      rewrite ?Forall_app; repeat split; try done;
      by repeat constructor.
  - rewrite buildPrompt_run. cbv zeta. eexists _, _.
    split; [reflexivity|].
    set (history := messages self ++ [mkMessage user msg]).
    assert (Forall (λ m, role m ≠ system) history) as Hh.
    { apply Forall_app. split; [done|]. by repeat constructor. }
    unfold assemble. cbn [finalMessages].
    rewrite !filter_app, !length_app.
    assert (∀ l, Forall (λ m, role m ≠ system) l →
                 filter (λ m, role m = system) l = []) as Hnone.
    { intros l Hl. induction Hl as [|x l Hx Hl IH]; [done|].
      by rewrite filter_cons_False. }
    rewrite (Hnone (trimMessagesToFitContext _ _ _)).
    2:{ unfold trimMessagesToFitContext. by apply Forall_drop. }
    assert (∀ o : option Message,
              (length (filter (λ m, role m = system) (option_list o))
               ≤ 1)%nat) as Hopt.
    { intros [x|]; [|simpl; lia].
      etrans; [apply length_filter|]. simpl. lia. }
    match goal with
    | |- (_ + (?a + (?b + _)) ≤ 3)%nat =>
        assert (a ≤ 1)%nat by apply Hopt;
        assert (b ≤ 1)%nat by apply Hopt
    end.
    cbn [length]. rewrite filter_cons_True by done.
    cbn [filter list_filter length]. lia.
Qed.

(** X25: [/clear] never fails: it answers 200, empties the messages of the
    session and keeps its settings; it removes rows of this session only,
    all of them when the delete statement runs, and it only removes
    records from the index.  The next successful turn starts the count
    again at two. *)
Theorem clear_route (sid : string) (self : ChatSession) (w : World) :
  ∃ w',
    clear E sid (self, w) =
      (Val (mkResponse 200 BodyOk), (resetMessages self, w')) ∧
    vectors w' ⊆ vectors w ∧
    rows w' = (if d1_ok E (length (trace w)) (DeleteMessages sid)
               then filter (λ r, row_session_id r ≠ sid) (rows w)
               else rows w) ∧
    filter (λ r, row_session_id r ≠ sid) (rows w') =
      filter (λ r, row_session_id r ≠ sid) (rows w) ∧
    ∀ E2 msg resp st2,
      chat encode E2 sid msg (resetMessages self, w') = (Val resp, st2) →
      status resp = 200%nat →
      ∃ a, resp = mkResponse 200 (BodyChat a 2) ∧
           messages st2.1 = exchange msg a.
Proof.
  unfold clear. modify_self_step. best_effort_step. get_self_step.
  best_effort_step. eexists. split; [reflexivity|].
  destruct (clearSessionVectors_only_removes E (stateId (resetMessages self))
              (d1_run E (DeleteMessages sid) w).2) as (_ & Hr & Hv).
  assert (vectors (d1_run E (DeleteMessages sid) w).2 = vectors w ∧
          rows (d1_run E (DeleteMessages sid) w).2 =
            (if d1_ok E (length (trace w)) (DeleteMessages sid)
             then filter (λ r, row_session_id r ≠ sid) (rows w)
             else rows w)) as [Hv1 Hr1].
  { unfold d1_run, tick, log. unfold bind, get, modify, ret, throw.
    cbn [vectors rows trace]. by destruct (d1_ok E _ _). }
  rewrite Hv1 in Hv. rewrite Hr1 in Hr.
  split; [exact Hv|]. split; [exact Hr|]. split.
  - rewrite Hr. destruct (d1_ok E _ _); [|done].
    by rewrite list_filter_filter, (list_filter_iff _ (λ r, row_session_id r ≠ sid))
      by (intros r; tauto).
  - intros E2 msg resp st2 Hchat Hstatus.
    match type of Hchat with
    | chat _ _ _ _ (_, ?w0) = _ =>
        destruct (buildPrompt_total encode E2 sid msg (resetMessages self)
                    w0) as [p Hp]
    end.
    rewrite chat_run, Hp, respond_run in Hchat. cbv zeta in Hchat.
    destruct (ai_chat E2 _ _) as [e|r]; injection Hchat as <- <-.
    + discriminate Hstatus.
    + by exists (replyText r).
Qed.

End TurnMore.

Lemma storeMessage_same_position_witness :
  let E := Samples.okEnv (AiReturns None) in
  let w1 := (VectorStore.storeMessage E "c1" 0 "user" "Hi"
               ChatSession.emptyWorld).2 in
  size (vectors (VectorStore.storeMessage E "c1" 0 "user" "Hello" w1).2) =
  size (vectors w1).
Proof.
  cbv zeta.
  pose proof (storeMessage_same_position (Samples.okEnv (AiReturns None))
                (Samples.okEnv (AiReturns None)) "c1" "user" "Hi" "user"
                "Hello" 0 ChatSession.emptyWorld) as H.
  cbv zeta in H.
  assert (H1 : (VectorStore.storeMessage (Samples.okEnv (AiReturns None))
                  "c1" 0 "user" "Hi" ChatSession.emptyWorld).1 = Val tt)
    by (vm_compute; reflexivity).
  exact (proj1 (H H1)).
Defined.

(** The ranking of the samples lists every record of the namespace. *)
Lemma rankAll_lists_namespace score v ns (m : gmap string VectorizeVector)
    ranked id rec :
  Samples.rankAll score v ns m = Some ranked →
  m !! id = Some rec → v_namespace rec = ns → id ∈ m_id <$> ranked.
Proof.
  intros [= <-] Hrec Hns. rewrite <- list_fmap_compose.
  apply list_elem_of_fmap. exists (id, rec). split; [done|].
  apply list_elem_of_filter. split; [done|].
  by apply elem_of_map_to_list.
Qed.

Lemma clearSessionVectors_empties_small_namespace_witness :
  VectorStore.namespaceSize "c1"
    (vectors (VectorStore.clearSessionVectors (Samples.okEnv (AiReturns None))
                "c1" (mkWorld (Samples.storeOf 3) [] [])).2) = 0%nat.
Proof.
  pose proof (clearSessionVectors_empties_small_namespace
                (Samples.okEnv (AiReturns None)) "c1"
                (mkWorld (Samples.storeOf 3) [] [])
                ((λ kv, mkMatch kv.1 0.5%float (Some (v_metadata kv.2)))
                 <$> filter (λ kv, v_namespace kv.2 = "c1")
                            (map_to_list (Samples.storeOf 3)))
                eq_refl) as H.
  assert (H1 : (length
                  ((λ kv : string * VectorizeVector,
                      mkMatch kv.1 0.5%float (Some (v_metadata kv.2)))
                   <$> filter (λ kv, v_namespace kv.2 = "c1")
                              (map_to_list (Samples.storeOf 3))) ≤ 100)%nat)
    by (vm_compute; lia).
  specialize (H H1 (λ id rec Hrec Hns,
                      rankAll_lists_namespace 0.5%float
                        VectorStore.dummyVector "c1" (Samples.storeOf 3)
                        _ id rec eq_refl Hrec Hns)
                (λ ids, eq_refl)).
  exact (proj1 H).
Defined.

Lemma storeFact_deleteFact_round_trip_witness :
  let E := Samples.okEnv (AiReturns None) in
  let w1 := (VectorStore.storeFact E "fact-1" "The sky is blue"
               ChatSession.emptyWorld).2 in
  VectorStore.namespaceSize VectorStore.FACTS_NAMESPACE (vectors w1) = 1%nat.
Proof.
  cbv zeta.
  pose proof (storeFact_deleteFact_round_trip
                (Samples.okEnv (AiReturns None))
                (Samples.okEnv (AiReturns None)) "fact-1" "The sky is blue"
                ChatSession.emptyWorld) as H.
  cbv zeta in H.
  assert (H1 : vectors ChatSession.emptyWorld
                 !! ("fact::" +:+ VectorStore.shortId "fact-1" 30) = None)
    by (vm_compute; reflexivity).
  assert (H2 : (VectorStore.storeFact (Samples.okEnv (AiReturns None))
                  "fact-1" "The sky is blue" ChatSession.emptyWorld).1
               = Val tt)
    by (vm_compute; reflexivity).
  destruct (H H1 H2) as (_ & Hsize & _).
  rewrite Hsize. vm_compute. reflexivity.
Defined.

Lemma session_holds_no_system_message_witness :
  Forall (λ m, role m ≠ system)
    (ChatSession.messages
       (ChatSession.chat Tokenizer.unitEncoder (Samples.okEnv (AiReturns None))
          "c1" "Hi" (ChatSession.freshSession "c1",
                     ChatSession.emptyWorld)).2.1).
Proof.
  pose proof (session_holds_no_system_message Tokenizer.unitEncoder
                (Samples.okEnv (AiReturns None)) "c1" "Hi"
                (ChatSession.freshSession "c1") ChatSession.emptyWorld)
    as H.
  assert (H1 : Forall (λ m, role m ≠ system)
                 (ChatSession.messages (ChatSession.freshSession "c1")))
    by constructor.
  exact (proj1 (H H1)).
Defined.

(** ** The Durable Object and the routes of the worker *)

Section ObjectFacts.

Import Js Services VectorStore Tokenizer ChatSession DurableObject.

Variable encode : string → list nat.
Variable E : Env.
Variable D : Database.

Lemma ensureLoaded_loaded sid self w :
  loaded self = true →
  ensureLoaded D sid (self, w) = (Val tt, (self, w)).
Proof.
  intros Hl. unfold ensureLoaded. get_self_step. by rewrite Hl.
Qed.

(** Loading never throws, sets the flag, and leaves the id of the
    session alone. *)
Lemma ensureLoaded_total sid self w :
  ∃ self' w',
    ensureLoaded D sid (self, w) = (Val tt, (self', w')) ∧
    loaded self' = true ∧
    stateId (session self') = stateId (session self) ∧
    (loaded self = true → self' = self ∧ w' = w).
Proof.
  destruct (loaded self) eqn:Hl.
  - exists self, w. rewrite ensureLoaded_loaded by done. by destruct self.
  - unfold ensureLoaded, bestEffort, tryCatch, bind, liftW, getSelf,
      modifySelf, ret.
    cbv beta iota delta [fst snd]. rewrite Hl.
    destruct (selectChat D sid w) as [[[row|]|e] w1];
      cbv beta iota delta [fst snd];
      [destruct (selectMessages D sid w1) as [[[rs|]|e] w2]..|];
      cbv beta iota delta [fst snd]; eexists _, _;
      (split; [reflexivity|]); by repeat split.
Qed.


(** X27: deleting a chat through the worker never clears the object of
    that chat: the request it sends to the object carries no session
    header, so the object answers 400 and keeps its messages, its
    settings and its flag, and deletes no vector: the index is as before,
    since a statement on [chats] does not reach it.  The rows are what
    that statement left.  The worker still answers [ok] when the
    statement ran, and 500 when it threw. *)
Theorem delete_chat_keeps_session (id : string) (self : Instance)
    (w : World) :
  id ≠ "" →
  (∀ w0, vectors (deleteChat D id w0).2 = vectors w0) →
  let d := deleteChat D id w in
  let res := Worker.apiChatsDelete encode E D (Some id) (self, w) in
  res =
    (Val match d.1 with
         | Val _ => Worker.Ok
         | Exn e => Worker.Error 500 "Failed to delete chat" (Some e)
         end,
     (self, d.2)) ∧
  messages (session res.2.1) = messages (session self) ∧
  vectors res.2.2 = vectors w ∧
  rows res.2.2 = rows d.2.
Proof.
  intros Hid Hindex. cbv zeta.
  assert (Worker.apiChatsDelete encode E D (Some id) (self, w) =
          (Val match (deleteChat D id w).1 with
               | Val _ => Worker.Ok
               | Exn e => Worker.Error 500 "Failed to delete chat" (Some e)
               end,
           (self, (deleteChat D id w).2))) as ->.
  { unfold Worker.apiChatsDelete, Worker.present.
    destruct id as [|c id]; [done|]. cbn [truthy negb default].
    unfold tryCatch, bind, liftW, fetch. cbn [rq_sessionId]. unfold ret.
    cbv beta iota delta [fst snd from_option Datatypes.id].
    by destruct (deleteChat D (String c id) w) as [[[]|e] w1]. }
  cbn [fst snd]. by rewrite Hindex.
Qed.

Lemma isRoute_false request path1 method1 path2 method2 :
  isRoute request path1 method1 = true →
  (path1 ≠ path2 ∨ method1 ≠ method2) →
  isRoute request path2 method2 = false.
Proof.
  unfold isRoute. rewrite andb_true_iff, !String.eqb_eq.
  intros [-> ->] Hne. apply andb_false_iff.
  rewrite !String.eqb_neq. tauto.
Qed.

(** X28: the settings live in the object: [POST /settings] never fails,
    answers with the settings the object now holds, which are the posted
    ones for the fields posted and the old ones otherwise, whether or
    not the update statements run; a later [GET /settings] answers the
    same, and an object that is loaded consults no statement for it. *)
Theorem settings_round_trip (sid : string) (post get_ : Request)
    (self : Instance) (w : World) :
  sid ≠ "" →
  rq_sessionId post = Some sid → isRoute post "/settings" "POST" = true →
  rq_sessionId get_ = Some sid → isRoute get_ "/settings" "GET" = true →
  ∃ self0 self' w',
    (loaded self = true → self0 = self) ∧
    loaded self' = true ∧
    messages (session self') = messages (session self0) ∧
    contextTemplate (session self') =
      default (contextTemplate (session self0)) (rq_contextTemplate post) ∧
    instructMode (session self') =
      default (instructMode (session self0)) (rq_instructMode post) ∧
    fetch encode E D post (self, w) =
      (Val (Settings true (contextTemplate (session self'))
                     (instructMode (session self'))), (self', w')) ∧
    fetch encode E D get_ (self', w') =
      (Val (Settings false (contextTemplate (session self'))
                     (instructMode (session self'))), (self', w')).
Proof.
  intros Hsid Hpost Hproute Hget Hgroute.
  assert (truthy sid = true) as Htruthy by (by destruct sid).
  destruct (ensureLoaded_total sid self w)
    as (self0 & w0 & Hload & Hl0 & _ & Hsame).
  pose proof (isRoute_false _ _ _ "/chat" "POST" Hproute
                ltac:(by left)) as Hp1.
  pose proof (isRoute_false _ _ _ "/clear" "POST" Hproute
                ltac:(by left)) as Hp2.
  pose proof (isRoute_false _ _ _ "/settings" "GET" Hproute
                ltac:(by right)) as Hp3.
  pose proof (isRoute_false _ _ _ "/chat" "POST" Hgroute
                ltac:(by left)) as Hg1.
  pose proof (isRoute_false _ _ _ "/clear" "POST" Hgroute
                ltac:(by left)) as Hg2.
  assert (∀ (update : string → string → Eff World unit)
            (set : string → ChatSession → ChatSession)
            (field : option string) (s : Instance) (w1 : World),
            ∃ w2,
              match field with
              | Some v =>
                  bind (modifySelf (setSession (set v)))
                       (λ _, bestEffort (liftW (update v sid)))
              | None => ret tt
              end (s, w1) =
              (Val tt,
               (match field with
                | Some v => setSession (set v) s
                | None => s
                end, w2))) as Hstep.
  { intros update set [v|] s w1.
    - modify_self_step. rewrite bestEffort_liftW_run. by eexists.
    - by exists w1. }
  destruct (Hstep (updateContextTemplate D) setContextTemplate
              (rq_contextTemplate post) self0 w0) as [w1 H1].
  destruct (Hstep (updateInstructMode D) setInstructMode
              (rq_instructMode post)
              (match rq_contextTemplate post with
               | Some v => setSession (setContextTemplate v) self0
               | None => self0
               end) w1) as [w2 H2].
  set (s1 := match rq_contextTemplate post with
             | Some v => setSession (setContextTemplate v) self0
             | None => self0
             end) in *.
  set (s2 := match rq_instructMode post with
             | Some v => setSession (setInstructMode v) s1
             | None => s1
             end) in *.
  assert (loaded s2 = true) as Hl2
    by (unfold s2, s1;
        by destruct (rq_contextTemplate post), (rq_instructMode post)).
  exists self0, s2, w2.
  split; [by intros Hl; apply Hsame|]. split; [done|].
  split; [|split; [|split; [|split]]].
  - unfold s2, s1.
    by destruct (rq_contextTemplate post), (rq_instructMode post).
  - unfold s2, s1.
    by destruct (rq_contextTemplate post), (rq_instructMode post).
  - unfold s2, s1.
    by destruct (rq_contextTemplate post), (rq_instructMode post).
  - unfold fetch. rewrite Hpost, Htruthy. cbn [negb].
    rewrite bind_run, Hload. cbn beta iota.
    rewrite Hp1, Hp2, Hp3, Hproute.
    rewrite bind_run, H1. cbn beta iota.
    rewrite bind_run, H2. cbn beta iota.
    get_self_step. reflexivity.
  - unfold fetch. rewrite Hget, Htruthy. cbn [negb].
    rewrite bind_run, ensureLoaded_loaded by done.
    cbn beta iota. rewrite Hg1, Hg2, Hgroute. get_self_step. reflexivity.
Qed.

End ObjectFacts.

Section WorkerFacts.

Import Js Services VectorStore Tokenizer ChatSession.

Variable encode : string → list nat.

(** Breaks a membership in a trace built by appending into its cases. *)
Ltac trace_cases H :=
  repeat match type of H with
         | _ ∈ _ ++ _ => apply elem_of_app in H as [H|H]
         | _ ∈ _ :: _ => apply elem_of_cons in H as [H|H]
         | _ ∈ (if ?b then _ else _) => destruct b
         | _ ∈ [] => by apply elem_of_nil in H
         end.

(** The queries of a turn: one in the namespace named by the id of the
    object, for 5 matches, and one in the facts namespace, for 3. *)
Lemma chat_queries E sid msg self w v k ns :
  EvQuery v k ns ∈ trace (chat encode E sid msg (self, w)).2.2 →
  EvQuery v k ns ∈ trace w ∨
  (ns = stateId self ∧ k = RAG_TOP_K) ∨
  (ns = FACTS_NAMESPACE ∧ k = FACTS_TOP_K).
Proof.
  destruct (buildPrompt_total encode E sid msg self w) as [p Hp].
  rewrite chat_run, Hp, respond_run. cbv zeta.
  assert (EvQuery v k ns ∈ trace (worldAfterPrompt encode E sid msg self w) →
          EvQuery v k ns ∈ trace w ∨
          (ns = stateId self ∧ k = RAG_TOP_K) ∨
          (ns = FACTS_NAMESPACE ∧ k = FACTS_TOP_K)) as Hprompt.
  { rewrite worldAfterPrompt_unfold. cbv zeta.
    rewrite queryRelevantFacts_world, queryRelevantMessages_world,
      storeMessage_world, insertMessageRow_world.
    cbv zeta. cbn [trace]. intros Hin. trace_cases Hin;
      first [ by left | discriminate Hin
            | injection Hin as -> -> ->; right; by (left + right) ]. }
  destruct (ai_chat E _ (finalMessages p)) as [e|r]; cbn [fst snd trace].
  - intros Hin. trace_cases Hin; [by apply Hprompt|discriminate Hin].
  - rewrite storeMessage_world, insertMessageRow_world. cbv zeta.
    cbn [trace]. intros Hin.
    trace_cases Hin; first [by apply Hprompt | discriminate Hin].
Qed.

Lemma putVectors_lookup_cases vs (m : gmap string VectorizeVector) id rec :
  putVectors vs m !! id = Some rec → m !! id = Some rec ∨ rec ∈ vs.
Proof.
  revert m. induction vs as [|v vs IH]; intros m; [by left|].
  cbn [putVectors foldl]. intros H. apply IH in H as [H|H].
  - destruct (decide (id = v_id v)) as [->|Hne].
    + rewrite lookup_insert_eq in H. injection H as ->. right. by left.
    + rewrite lookup_insert_ne in H by done. by left.
  - right. by right.
Qed.

(** X29: an upload whose body is not JSON, or is [null], throws before
    anything is done.  Any other upload never throws: it answers ok, 400
    or 500; and it writes under the session id of its body: every record
    of the index after it was there before or is a document record of
    that namespace.  A turn of the chat, however, queries the namespace
    named by the id of the object, and the facts namespace; when these
    differ from the session id of the upload, no query of the turn
    addresses the uploaded documents. *)
Theorem upload_namespace_and_recall (E E' : Env) (fuel : nat)
    (body : Worker.Body Worker.UploadFields)
    (run : Eff World Worker.Reply)
    (sid msg : string) (self : ChatSession) (w w' : World) :
  Worker.apiUpload E fuel body = Some run →
  match body with
  | Worker.JsonValue _ =>
      ∃ reply, (run w).1 = Val reply ∧
        (reply = Worker.Ok ∨
         reply = Worker.Error 400 "Missing required fields" None ∨
         ∃ e, reply = Worker.Error 500 "Failed to process document"
                        (Some e))
  | _ => (∃ e, (run w).1 = Exn e) ∧ (run w).2 = w
  end ∧
  (∀ id rec, vectors (run w).2 !! id = Some rec →
     vectors w !! id = Some rec ∨
     (∃ fields, body = Worker.JsonValue fields ∧
                Worker.up_sessionId fields = Some (v_namespace rec)) ∧
     md_role (v_metadata rec) = "document") ∧
  (∀ v k ns,
     EvQuery v k ns ∈ trace (chat encode E' sid msg (self, w')).2.2 →
     EvQuery v k ns ∈ trace w' ∨ ns = stateId self ∨ ns = FACTS_NAMESPACE) ∧
  (∀ v k ns fields,
     body = Worker.JsonValue fields →
     Worker.up_sessionId fields = Some ns →
     ns ≠ stateId self → ns ≠ FACTS_NAMESPACE →
     EvQuery v k ns ∈ trace (chat encode E' sid msg (self, w')).2.2 →
     EvQuery v k ns ∈ trace w').
Proof.
  intros Hrun.
  assert (∀ v k ns,
            EvQuery v k ns ∈ trace (chat encode E' sid msg (self, w')).2.2 →
            EvQuery v k ns ∈ trace w' ∨ ns = stateId self ∨
            ns = FACTS_NAMESPACE) as Hq.
  { intros v k ns Hin.
    apply chat_queries in Hin as [?|[[? _]|[? _]]]; auto. }
  split; [|split; [|split; [done|]]].
  - unfold Worker.apiUpload in Hrun.
    destruct body as [| |fields];
      [injection Hrun as <-; split; [by eexists|done]..|].
    destruct (negb _ || _ || _).
    { injection Hrun as <-. eexists. split; [done|]. right. by left. }
    destruct (storeDocument E fuel _ _ _) as [r0|]; [|done].
    injection Hrun as <-. unfold tryCatch, bind, ret.
    destruct (r0 w) as [[[]|e] w1]; cbn [fst]; eexists; (split; [done|]).
    + by left.
    + right. right. by eexists.
  - unfold Worker.apiUpload in Hrun.
    destruct body as [| |fields];
      [injection Hrun as <-; by left..|].
    destruct (negb (Worker.present (Worker.up_text fields)) || _ || _)
      eqn:Hmissing; [injection Hrun as <-; by left|].
    destruct (Worker.up_sessionId fields) as [ns|] eqn:Hns;
      [|by rewrite orb_true_r in Hmissing].
    cbn [default from_option Datatypes.id] in Hrun.
    destruct (storeDocument E fuel ns _ _) as [r0|] eqn:Hstore; [|done].
    injection Hrun as <-.
    unfold storeDocument in Hstore.
    destruct (chunkLoop fuel _ 0 []) as [chunks|]; [|done].
    destruct (batchLoop_run E _ _ _ _ _ _ w Hstore)
      as (es & Hv & _ & _ & _ & _).
    assert (vectors (tryCatch (bind r0 (λ _, ret Worker.Ok))
                       (λ err, ret (Worker.Error 500
                                      "Failed to process document"
                                      (Some err))) w).2 =
            vectors (r0 w).2) as ->.
    { unfold tryCatch, bind, ret. by destruct (r0 w) as [[[]|e] w1]. }
    intros id rec Hrec. rewrite Hv in Hrec.
    apply putVectors_lookup_cases in Hrec as [?|Hin]; [by left|].
    right. apply list_elem_of_lookup in Hin as [i Hi].
    rewrite list_lookup_imap in Hi.
    destruct (es !! i); [|done]. injection Hi as <-.
    split; [|done]. by exists fields.
  - intros v k ns fields _ _ Hne1 Hne2 Hin.
    by apply Hq in Hin as [?|[?|?]].
Qed.

Lemma listFacts_total E w :
  ∃ fs,
    listFacts E w =
      (Val fs, mkWorld (vectors w) (rows w)
                 (trace w ++ [EvQuery dummyVector 50 FACTS_NAMESPACE])) ∧
    (length fs ≤ 50)%nat.
Proof.
  unfold listFacts, vectorize_query, tick, log.
  unfold tryCatch, bind, get, modify, ret, throw. cbn [vectors rows trace].
  destruct (vz_rank E _ _ _ _) as [ranked|].
  - eexists. split; [reflexivity|]. rewrite length_fmap.
    apply length_matches_kept.
  - exists []. split; [reflexivity|]. simpl. lia.
Qed.

(** X30: the facts routes: listing never answers 500 (the failure branch
    cannot be reached: a failed query gives an empty list); deleting
    without an id always answers ok and only removes records, also when
    nothing could be cleared; deleting with an id answers ok exactly when
    the delete request succeeds, and 500 with the index unchanged when it
    fails. *)
Theorem fact_routes_replies (E : Env) (factId : option string) (w : World) :
  (∃ fs,
     Worker.apiFactsGet E w =
       (Val (Worker.Facts fs),
        mkWorld (vectors w) (rows w)
          (trace w ++ [EvQuery dummyVector 50 FACTS_NAMESPACE])) ∧
     (length fs ≤ 50)%nat) ∧
  (Worker.present factId = false →
   (Worker.apiFactsDelete E factId w).1 = Val Worker.Ok ∧
   vectors (Worker.apiFactsDelete E factId w).2 ⊆ vectors w) ∧
  (∀ id, factId = Some id → id ≠ "" →
     if vz_delete_ok E (length (trace w)) [id]
     then (Worker.apiFactsDelete E factId w).1 = Val Worker.Ok ∧
          vectors (Worker.apiFactsDelete E factId w).2 =
            delete id (vectors w)
     else (∃ e, (Worker.apiFactsDelete E factId w).1 =
                  Val (Worker.Error 500 "Failed to delete fact(s)" (Some e))) ∧
          vectors (Worker.apiFactsDelete E factId w).2 = vectors w).
Proof.
  split; [|split].
  - destruct (listFacts_total E w) as (fs & Hrun & Hlen).
    exists fs. split; [|done].
    unfold Worker.apiFactsGet, tryCatch. by rewrite bind_run, Hrun.
  - intros Habsent. unfold Worker.apiFactsDelete. rewrite Habsent.
    unfold tryCatch. rewrite bind_run, clearFacts_unfold.
    destruct (clearSessionVectors_only_removes E FACTS_NAMESPACE w)
      as (Hval & _ & Hsub).
    destruct (clearSessionVectors E FACTS_NAMESPACE w) as [[[]|e] w1];
      cbn [fst snd] in *; [done|discriminate Hval].
  - intros id -> Hid. unfold Worker.apiFactsDelete, Worker.present.
    destruct id as [|c id]; [done|].
    cbn [truthy default from_option Datatypes.id].
    unfold tryCatch. rewrite bind_run, deleteFact_run. cbv zeta.
    destruct (vz_delete_ok E _ _); cbn [fst snd vectors]; [done|].
    split; [by eexists|done].
Qed.

End WorkerFacts.

Lemma delete_chat_keeps_session_witness :
  let self := DurableObject.mkInstance
                (ChatSession.mkSession "object-1" [mkMessage user "Hi"]
                                       "" "") true in
  Worker.apiChatsDelete Tokenizer.unitEncoder
    (Samples.okEnv (AiReturns None)) Samples.idleDatabase (Some "c1")
    (self, ChatSession.emptyWorld) =
  (Val Worker.Ok, (self, ChatSession.emptyWorld)).
Proof.
  cbv zeta.
  pose proof (delete_chat_keeps_session Tokenizer.unitEncoder
                (Samples.okEnv (AiReturns None)) Samples.idleDatabase "c1"
                (DurableObject.mkInstance
                   (ChatSession.mkSession "object-1" [mkMessage user "Hi"]
                                          "" "") true)
                ChatSession.emptyWorld) as H.
  assert (H1 : "c1" ≠ "") by discriminate.
  exact (proj1 (H H1 (λ w0, eq_refl))).
Defined.

Lemma settings_round_trip_witness :
  let post := DurableObject.mkRequest "/settings" "POST" (Some "c1") ""
                (Some "Be brief") None in
  ∃ self' w',
    DurableObject.fetch Tokenizer.unitEncoder (Samples.okEnv (AiReturns None))
      Samples.idleDatabase post
      (DurableObject.mkInstance (ChatSession.freshSession "object-1") true,
       ChatSession.emptyWorld) =
    (Val (DurableObject.Settings true "Be brief" ""), (self', w')).
Proof.
  cbv zeta.
  pose proof (settings_round_trip Tokenizer.unitEncoder
                (Samples.okEnv (AiReturns None)) Samples.idleDatabase "c1"
                (DurableObject.mkRequest "/settings" "POST" (Some "c1") ""
                   (Some "Be brief") None)
                (DurableObject.mkRequest "/settings" "GET" (Some "c1") ""
                   None None)
                (DurableObject.mkInstance (ChatSession.freshSession "object-1")
                                          true)
                ChatSession.emptyWorld) as H.
  assert (H1 : "c1" ≠ "") by discriminate.
  destruct (H H1 eq_refl eq_refl eq_refl eq_refl)
    as (self0 & self' & w' & Hsame & _ & _ & Hct & Him & Hpost & _).
  exists self', w'. rewrite Hpost, Hct, Him, (Hsame eq_refl).
  reflexivity.
Defined.

Lemma upload_namespace_and_recall_witness :
  let body := Worker.JsonValue
                (Worker.mkUploadFields (Some "hello") (Some "notes.txt")
                                       (Some "c1")) in
  ∃ run,
    Worker.apiUpload (Samples.okEnv (AiReturns None)) 2 body = Some run ∧
    ∀ id rec, vectors (run ChatSession.emptyWorld).2 !! id = Some rec →
              v_namespace rec = "c1".
Proof.
  cbv zeta.
  destruct (Worker.apiUpload (Samples.okEnv (AiReturns None)) 2
              (Worker.JsonValue
                 (Worker.mkUploadFields (Some "hello") (Some "notes.txt")
                                        (Some "c1"))))
    as [run|] eqn:Hrun; [|discriminate Hrun].
  exists run. split; [reflexivity|].
  pose proof (upload_namespace_and_recall Tokenizer.unitEncoder
                (Samples.okEnv (AiReturns None))
                (Samples.okEnv (AiReturns None)) 2 _ run "c1" "Hi"
                (ChatSession.freshSession "object-1") ChatSession.emptyWorld
                ChatSession.emptyWorld Hrun) as (_ & Hframe & _).
  intros id rec Hrec.
  destruct (Hframe id rec Hrec) as [Hold|[(fields & Hbody & Hns) _]].
  - discriminate Hold.
  - injection Hbody as <-. by injection Hns.
Defined.
